(** * Order-note sheet assembler: a shallow embedding

    The two near-duplicate scripts [main.py] and [pdf-to-excel-processor.py]
    fill an order-note spreadsheet template through openpyxl.  This file
    embeds their Excel-processing functions over an explicit worksheet
    state, with Python exceptions as an error monad, and proves the
    properties of the template-growing engine.

    Layout of the development:
    - [Py]        Python values, truthiness, [dict.get], [str.split]/[join];
    - [Openpyxl]  the worksheet state and the library calls the scripts use
                  (openpyxl 3.0 behaviour: merged ranges kept as a list);
    - [Common]    the functions that are textually shared by both scripts;
    - [Main]      [main.py];
    - [Processor] [pdf-to-excel-processor.py];
    - [Layout], [Contents]  the notions the statements are written in;
    - [PdfProcessing]  the retry loop of [process_pdf] and
                  [process_image] and the cleaning of the answer;
    - [Driver]    [process_excel_imputation] and [process_all_pdfs];
    - the theorems. *)

From stdpp Require Import gmap strings list fin_maps pretty.
From Stdlib Require Import ZArith Lia Ascii.

Open Scope Z_scope.
Set Warnings "-register-all".

(** ** Python values and exceptions *)

Module Py.

(** Values that [json.loads] can return.  JSON numbers are kept as
    integers: nothing below depends on a fractional part. *)
Inductive PyVal : Type :=
  | PNone
  | PStr (s : string)
  | PInt (z : Z)
  | PBool (b : bool)
  | PList (l : list PyVal)
  | PDict (d : list (string * PyVal)).

(** The exception classes that can arise; all derive from [Exception]. *)
Inductive Exn : Type := ValueError | KeyError | AttributeError | TypeError.

Inductive Res (A : Type) : Type :=
  | Ok (a : A)
  | Raise (e : Exn).
Arguments Ok {A} a.
Arguments Raise {A} e.

#[global] Instance Exn_eq_dec : EqDecision Exn.
Proof. solve_decision. Defined.

(** [bool(v)]. *)
Definition truthy (v : PyVal) : bool :=
  match v with
  | PNone => false
  | PStr s => negb (String.eqb s "")
  | PInt z => negb (z =? 0)
  | PBool b => b
  | PList l => match l with [] => false | _ => true end
  | PDict d => match d with [] => false | _ => true end
  end.

(** Lookup in a JSON object held as an association list (the first
    binding of a key is the live one). *)
Fixpoint assoc (k : string) (d : list (string * PyVal)) : option PyVal :=
  match d with
  | [] => None
  | (k', v) :: d' => if String.eqb k k' then Some v else assoc k d'
  end.

(** [d.get(key, default)]: only dictionaries have [get]. *)
Definition get (d : PyVal) (k : string) (default : PyVal) : Res PyVal :=
  match d with
  | PDict l => Ok (match assoc k l with Some v => v | None => default end)
  | _ => Raise AttributeError
  end.

Definition newline : ascii := ascii_of_nat 10.

(** [s.split(sep)] for a one-character separator: never the empty list. *)
Fixpoint split (sep : ascii) (s : string) : list string :=
  match s with
  | EmptyString => [EmptyString]
  | String c s' =>
      if Ascii.eqb c sep then EmptyString :: split sep s'
      else match split sep s' with
           | h :: t => String c h :: t
           | [] => [String c EmptyString]
           end
  end.

(** [sep.join(l)]. *)
Fixpoint join (sep : ascii) (l : list string) : string :=
  match l with
  | [] => EmptyString
  | [x] => x
  | x :: rest => x +:+ String sep (join sep rest)
  end.

(** A [str] is a sequence of code points; the strings here are UTF-8, so
    a character is a lead byte with its continuation bytes (10xxxxxx). *)
Definition is_continuation (c : ascii) : bool :=
  let n := N_of_ascii c in ((128 <=? n) && (n <? 192))%N.

Fixpoint chars_go (cur : option string) (s : string) : list string :=
  let flush := match cur with Some w => [w] | None => [] end in
  match s with
  | EmptyString => flush
  | String c s' =>
      if is_continuation c
      then chars_go (Some (default EmptyString cur +:+ String c EmptyString)) s'
      else flush ++ chars_go (Some (String c EmptyString)) s'
  end.

Definition chars (s : string) : list string := chars_go None s.

(** [len(v)]. *)
Definition len (v : PyVal) : Res nat :=
  match v with
  | PStr s => Ok (length (chars s))
  | PList l => Ok (length l)
  | PDict d => Ok (length d)
  | _ => Raise TypeError
  end.

(** The elements a [for] loop over [v] visits. *)
Definition iter (v : PyVal) : Res (list PyVal) :=
  match v with
  | PStr s => Ok (PStr <$> chars s)
  | PList l => Ok l
  | PDict d => Ok ((λ kv, PStr kv.1) <$> d)
  | _ => Raise TypeError
  end.

(** [v.split('\n')]: only strings have [split]. *)
Definition str_split (v : PyVal) : Res (list string) :=
  match v with
  | PStr s => Ok (split newline s)
  | _ => Raise AttributeError
  end.

End Py.
Export Py.

(** ** The openpyxl worksheet *)

Module Openpyxl.

(** *** Styles: the attributes the scripts read or assign *)

Record Side := { side_style : option string; side_color : option string }.
Record Border := { b_left : Side; b_right : Side; b_top : Side; b_bottom : Side }.
Record Font := { font_name : option string; font_size : option Z; font_bold : bool }.
Record Alignment :=
  { horizontal : option string; vertical : option string; wrapText : bool }.
Record PatternFill :=
  { start_color : option string; end_color : option string; fill_type : option string }.
Record Protection := { locked : bool; hidden : bool }.

Record Style := {
  font : Font;
  border : Border;
  fill : PatternFill;
  number_format : string;
  protection : option Protection;
  alignment : Alignment
}.

Definition no_side : Side := {| side_style := None; side_color := None |}.
(** [Side(style=s)] and [Side(style=s, color=c)]. *)
Definition side (s : string) (c : option string) : Side :=
  {| side_style := Some s; side_color := c |}.
(** [Border()], [Font()], [Alignment()], [PatternFill()]. *)
Definition Border_ : Border :=
  {| b_left := no_side; b_right := no_side; b_top := no_side; b_bottom := no_side |}.
Definition Font_ : Font := {| font_name := None; font_size := None; font_bold := false |}.
Definition Alignment_ : Alignment :=
  {| horizontal := None; vertical := None; wrapText := false |}.
Definition PatternFill_ : PatternFill :=
  {| start_color := None; end_color := None; fill_type := None |}.

(** The style of a cell nobody has styled (the workbook's entries 0). *)
Definition default_font : Font :=
  {| font_name := Some "Calibri"; font_size := Some 11; font_bold := false |}.
Definition default_style : Style :=
  {| font := default_font; border := Border_; fill := PatternFill_;
     number_format := "General";
     protection := Some {| locked := true; hidden := false |};
     alignment := Alignment_ |}.

#[global] Instance Side_eq_dec : EqDecision Side.
Proof. solve_decision. Defined.
#[global] Instance Border_eq_dec : EqDecision Border.
Proof. solve_decision. Defined.
#[global] Instance Font_eq_dec : EqDecision Font.
Proof. solve_decision. Defined.
#[global] Instance Alignment_eq_dec : EqDecision Alignment.
Proof. solve_decision. Defined.
#[global] Instance PatternFill_eq_dec : EqDecision PatternFill.
Proof. solve_decision. Defined.
#[global] Instance Protection_eq_dec : EqDecision Protection.
Proof. solve_decision. Defined.
#[global] Instance Style_eq_dec : EqDecision Style.
Proof. solve_decision. Defined.

Definition with_font (f : Font) (s : Style) : Style :=
  {| font := f; border := border s; fill := fill s;
     number_format := number_format s; protection := protection s;
     alignment := alignment s |}.
Definition with_border (b : Border) (s : Style) : Style :=
  {| font := font s; border := b; fill := fill s;
     number_format := number_format s; protection := protection s;
     alignment := alignment s |}.
Definition with_fill (p : PatternFill) (s : Style) : Style :=
  {| font := font s; border := border s; fill := p;
     number_format := number_format s; protection := protection s;
     alignment := alignment s |}.
Definition with_number_format (n : string) (s : Style) : Style :=
  {| font := font s; border := border s; fill := fill s;
     number_format := n; protection := protection s;
     alignment := alignment s |}.
Definition with_protection (p : option Protection) (s : Style) : Style :=
  {| font := font s; border := border s; fill := fill s;
     number_format := number_format s; protection := p;
     alignment := alignment s |}.
Definition with_alignment (a : Alignment) (s : Style) : Style :=
  {| font := font s; border := border s; fill := fill s;
     number_format := number_format s; protection := protection s;
     alignment := a |}.

(** *** Cells, ranges and the sheet *)

(** An entry of [ws._cells]: an ordinary [Cell], or the read-only
    [MergedCell] placeholder that fills a merged range apart from its
    top-left anchor. *)
Inductive Cell : Type :=
  | Plain (value : PyVal) (st : Style)
  | MergedCell (st : Style).

Definition cell_value (c : Cell) : PyVal :=
  match c with Plain v _ => v | MergedCell _ => PNone end.
Definition cell_style (c : Cell) : Style :=
  match c with Plain _ s => s | MergedCell s => s end.
Definition is_MergedCell (c : Cell) : bool :=
  match c with Plain _ _ => false | MergedCell _ => true end.
Definition map_style (f : Style → Style) (c : Cell) : Cell :=
  match c with Plain v s => Plain v (f s) | MergedCell s => MergedCell (f s) end.

(** A [CellRange], by its bounds.  Its string form ([str(r)], "I4:L9")
    determines the bounds and is determined by them, so the strings the
    scripts pass around are represented by the bounds themselves. *)
Record CellRange := { min_row : Z; min_col : Z; max_row : Z; max_col : Z }.

#[global] Instance CellRange_eq_dec : EqDecision CellRange.
Proof. solve_decision. Defined.

Abbreviation coord := (Z * Z)%type (only parsing).

Record Worksheet := {
  cells : gmap (Z * Z) Cell;          (* ws._cells, keyed by (row, column) *)
  merged : list CellRange;            (* ws.merged_cells.ranges *)
  heights : gmap Z (option Z)         (* ws.row_dimensions[r].height *)
}.

Definition set_cells (f : gmap (Z * Z) Cell → gmap (Z * Z) Cell) (ws : Worksheet) :=
  {| cells := f (cells ws); merged := merged ws; heights := heights ws |}.
Definition set_merged (f : list CellRange → list CellRange) (ws : Worksheet) :=
  {| cells := cells ws; merged := f (merged ws); heights := heights ws |}.
Definition set_heights (f : gmap Z (option Z) → gmap Z (option Z)) (ws : Worksheet) :=
  {| cells := cells ws; merged := merged ws; heights := f (heights ws) |}.

(** The cells of a range, row by row ([CellRange.cells]). *)
Definition range_cells (r : CellRange) : list (Z * Z) :=
  row ← seqZ (min_row r) (max_row r - min_row r + 1);
  (λ col, (row, col)) <$> seqZ (min_col r) (max_col r - min_col r + 1).

(** [a.issubset(b)], the test behind [coord in ws.merged_cells]. *)
Definition issubset (a b : CellRange) : bool :=
  (min_row b <=? min_row a) && (max_row a <=? max_row b) &&
  (min_col b <=? min_col a) && (max_col a <=? max_col b).

(** [r.min_row <= row <= r.max_row]. *)
Definition touches_row (row : Z) (r : CellRange) : bool :=
  (min_row r <=? row) && (row <=? max_row r).

(** The rows and columns that carry a cell. *)
Definition rows_of (ws : Worksheet) : list Z := (λ kv, kv.1.1) <$> map_to_list (cells ws).
Definition cols_of (ws : Worksheet) : list Z := (λ kv, kv.1.2) <$> map_to_list (cells ws).

(** [ws.max_row], [ws.min_column], [ws.max_column]: 1 on an empty sheet. *)
Definition sheet_max_row (ws : Worksheet) : Z :=
  match rows_of ws with [] => 1 | r :: rs => foldr Z.max r rs end.
Definition min_column (ws : Worksheet) : Z :=
  match cols_of ws with [] => 1 | c :: cs => foldr Z.min c cs end.
Definition max_column (ws : Worksheet) : Z :=
  match cols_of ws with [] => 1 | c :: cs => foldr Z.max c cs end.

(** *** Computations on a sheet that may raise *)

Definition M (A : Type) : Type := Worksheet → Res A * Worksheet.

#[global] Instance M_ret : MRet M := λ A a ws, (Ok a, ws).
#[global] Instance M_bind : MBind M := λ A B f m ws,
  match m ws with
  | (Ok a, ws') => f a ws'
  | (Raise e, ws') => (Raise e, ws')
  end.

Definition raise {A} (e : Exn) : M A := λ ws, (Raise e, ws).
Definition lift {A} (r : Res A) : M A := λ ws, (r, ws).
Definition get_ws : M Worksheet := λ ws, (Ok ws, ws).
Definition modify (f : Worksheet → Worksheet) : M unit := λ ws, (Ok tt, f ws).

(** [try: body except (classes): handler]. *)
Definition try_except {A} (body : M A) (classes : Exn → bool) (handler : Exn → M A) : M A :=
  λ ws, match body ws with
        | (Raise e, ws') => if classes e then handler e ws' else (Raise e, ws')
        | r => r
        end.

(** [except Exception] and [except (ValueError, KeyError)]. *)
Definition Exception : Exn → bool := λ _, true.
Definition ValueError_KeyError : Exn → bool :=
  λ e, match e with ValueError | KeyError => true | _ => false end.

(** [for x in l: body]. *)
Fixpoint for_ {A} (l : list A) (body : A → M unit) : M unit :=
  match l with
  | [] => mret tt
  | x :: l' => body x ;; for_ l' body
  end.

(** A [for] loop whose body may [break] (it answers [true] to leave). *)
Fixpoint for_break {A} (l : list A) (body : A → M bool) : M unit :=
  match l with
  | [] => mret tt
  | x :: l' => b ← body x; if (b : bool) then mret tt else for_break l' body
  end.

Definition exec {A} (m : M A) (ws : Worksheet) : Worksheet := (m ws).2.
Definition result {A} (m : M A) (ws : Worksheet) : Res A := (m ws).1.

(** *** The library calls *)

(** [ws._get_cell(row, column)]: the cell is created when absent.  A cell
    object is referred to by its coordinate. *)
Definition ensure_cell (k : Z * Z) (m : gmap (Z * Z) Cell) : gmap (Z * Z) Cell :=
  match m !! k with
  | Some _ => m
  | None => <[k := Plain PNone default_style]> m
  end.

Definition _get_cell (row col : Z) : M coord :=
  modify (set_cells (ensure_cell (row, col))) ;;
  mret (row, col).

(** What a cell accepts as a value; lists and dictionaries are refused. *)
Definition storable (v : PyVal) : bool :=
  match v with PList _ | PDict _ => false | _ => true end.

(** [c.value = v].  The [value] of a [MergedCell] is read-only.  Strings
    are stored as given (the library's cap on the length of a string and
    its check for control characters are outside this model). *)
Definition set_value (c : coord) (v : PyVal) : M unit := λ ws,
  match cells ws !! c with
  | Some (MergedCell _) => (Raise AttributeError, ws)
  | Some (Plain _ st) =>
      if storable v then (Ok tt, set_cells <[c := Plain v st]> ws)
      else (Raise ValueError, ws)
  | None => (Ok tt, ws)
  end.

(** [c.font = ...], [c.border = ...] and the like: allowed on any cell. *)
Definition set_style (c : coord) (f : Style → Style) : M unit :=
  modify (set_cells (alter (map_style f) c)).

(** [ws.cell(row=row, column=col, value=value)]. *)
Definition cell (row col : Z) (value : PyVal) : M coord :=
  if (row <? 1) || (col <? 1) then raise ValueError
  else
    c ← _get_cell row col;
    match value with
    | PNone => mret tt
    | _ => set_value c value
    end ;;
    mret c.

(** [ws['C3'] = v]: the value is assigned even when it is [None]. *)
Definition setitem (row col : Z) (v : PyVal) : M unit :=
  c ← _get_cell row col; set_value c v.

(** [isinstance(c, MergedCell)] and [c.has_style]. *)
Definition isinstance_MergedCell (c : coord) : M bool :=
  ws ← get_ws; mret (from_option is_MergedCell false (cells ws !! c)).
Definition has_style (c : coord) : M bool :=
  ws ← get_ws;
  mret (from_option (λ x, bool_decide (cell_style x ≠ default_style)) false (cells ws !! c)).
Definition style_of (c : coord) : M Style :=
  ws ← get_ws; mret (from_option cell_style default_style (cells ws !! c)).

(** [ws.row_dimensions[row].height], read and assigned. *)
Definition get_height (row : Z) : M (option Z) :=
  ws ← get_ws; mret (default None (heights ws !! row)).
Definition set_height (row : Z) (h : option Z) : M unit :=
  modify (set_heights <[row := h]>).

Definition ws_max_row : M Z := ws ← get_ws; mret (sheet_max_row ws).

(** Bounds from which a [CellRange] can be built. *)
Definition valid_range (r : CellRange) : bool :=
  (1 <=? min_row r) && (min_row r <=? max_row r) &&
  (1 <=? min_col r) && (min_col r <=? max_col r).

Definition insert_all (ks : list coord) (c : Cell) (m : gmap (Z * Z) Cell) :=
  foldr (λ k, <[k := c]>) m ks.

(** [ws.merge_cells(...)]: the anchor is created when absent, the range
    is recorded unless already there, and every other cell of the range
    is replaced by a fresh placeholder.  Overlapping another merged range
    is not an error.  (The library also re-applies the anchor's border to
    the placeholders; that cosmetic step is not tracked.) *)
Definition merge_cells (r : CellRange) : M unit :=
  if valid_range r then
    _get_cell (min_row r) (min_col r) ;;
    modify (set_merged (λ l, if decide (r ∈ l) then l else l ++ [r])) ;;
    modify (set_cells (insert_all (tail (range_cells r)) (MergedCell default_style)))
  else raise ValueError.

(** [del ws._cells[k]] for each [k] in turn: [KeyError] at the first
    coordinate that carries no cell. *)
Fixpoint delete_each (ks : list coord) : M unit :=
  match ks with
  | [] => mret tt
  | k :: ks' =>
      ws ← get_ws;
      match cells ws !! k with
      | None => raise KeyError
      | Some _ => modify (set_cells (delete k)) ;; delete_each ks'
      end
  end.

(** [l.remove(r)]: the first occurrence; [None] when there is none. *)
Fixpoint list_remove (r : CellRange) (l : list CellRange) : option (list CellRange) :=
  match l with
  | [] => None
  | x :: l' => if decide (x = r) then Some l'
               else (x ::.) <$> list_remove r l'
  end.

(** [ws.unmerge_cells(r)]: [ValueError] when [r] lies in no merged range;
    otherwise the range is taken off the list first and then the cells
    after the anchor are deleted one by one. *)
Definition unmerge_cells (r : CellRange) : M unit :=
  ws ← get_ws;
  if existsb (issubset r) (merged ws) then
    match list_remove r (merged ws) with
    | None => raise ValueError
    | Some l' =>
        modify (set_merged (λ _, l')) ;;
        delete_each (tail (range_cells r))
    end
  else raise ValueError.

Definition shift_rows (d : Z) (k : Z * Z) : Z * Z := (k.1 + d, k.2).

(** [ws.insert_rows(idx)]: every cell from row [idx] down moves one row
    lower.  Merged ranges and row heights stay where they are. *)
Definition insert_rows (idx : Z) : M unit :=
  modify (set_cells (λ m,
    kmap (M2 := gmap (Z * Z)) (shift_rows 1) (filter (λ kv, idx ≤ kv.1.1) m)
    ∪ filter (λ kv, kv.1.1 < idx) m)).

(** [ws.delete_rows(idx, amount)]: the cells from row [idx + amount] down
    move [amount] rows up, over whatever is there, and then the rows of
    the gutter (computed from the extent before the move) are emptied
    between the sheet's first and last column.  Merged ranges stay. *)
Definition delete_rows (idx amount : Z) : M unit :=
  ws ← get_ws;
  let lo := Z.max (sheet_max_row ws + 1 - amount) idx in
  let hi := Z.min (idx + amount) (sheet_max_row ws) in
  modify (set_cells (λ m,
    kmap (M2 := gmap (Z * Z)) (shift_rows (- amount)) (filter (λ kv, idx + amount ≤ kv.1.1) m)
    ∪ filter (λ kv, kv.1.1 < idx + amount) m)) ;;
  ws1 ← get_ws;
  let c0 := min_column ws1 in
  let c1 := max_column ws1 in
  modify (set_cells (filter (λ kv,
    ¬ (lo ≤ kv.1.1 ≤ hi ∧ c0 ≤ kv.1.2 ≤ c1)))).

End Openpyxl.
Export Openpyxl.

(** ** The functions both scripts share *)

Module Common.

(** [safely_unmerge_row_cells(ws, row)].  [main.py] collects the strings
    of the ranges while walking the live list and the processor script
    walks a snapshot and collects the range objects; nothing is unmerged
    during the collection, so both are this function. *)
Definition safely_unmerge_row_cells (row : Z) : M unit :=
  try_except
    (ws ← get_ws;
     let ranges_to_unmerge := filter (λ r, touches_row row r) (merged ws) in
     for_ ranges_to_unmerge (λ range_str,
       try_except (unmerge_cells range_str) ValueError_KeyError (λ _, mret tt)))
    Exception (λ _, mret tt).

(** [PatternFill(start_color="FF0000", end_color="FF0000", fill_type="solid")]. *)
Definition red_fill : PatternFill :=
  {| start_color := Some "FF0000"; end_color := Some "FF0000"; fill_type := Some "solid" |}.

(** [copy_row_format(ws, source_row, target_row)]. *)
Definition copy_row_format (source_row target_row : Z) : M unit :=
  try_except
    (h ← get_height source_row;
     set_height target_row h ;;
     safely_unmerge_row_cells target_row ;;
     for_ (seqZ 1 12) (λ col,
       try_except
         (source ← cell source_row col PNone;
          target ← cell target_row col PNone;
          styled ← has_style source;
          if (styled : bool) then
            st ← style_of source;
            set_style target (with_font (font st)) ;;
            set_style target (with_border (border st)) ;;
            set_style target (with_fill (fill st)) ;;
            set_style target (with_number_format (number_format st)) ;;
            set_style target (with_protection (protection st)) ;;
            set_style target (with_alignment (alignment st))
          else mret tt)
         Exception (λ _, mret tt)) ;;
     last_cell ← cell target_row 12 PNone;
     set_style last_cell (with_fill red_fill))
    Exception (λ _, mret tt).

(** The f-string ["{n}."]. *)
Definition row_label (n : Z) : PyVal := PStr (pretty n +:+ ".").

(** [prepare_product_rows(ws, num_items)]. *)
Definition prepare_product_rows (num_items : Z) : M unit :=
  if num_items <=? 2 then mret tt
  else
    for_ (seqZ 0 (num_items - 2)) (λ i,
      try_except
        (insert_rows (14 + i) ;;
         copy_row_format 13 (14 + i) ;;
         cell (14 + i) 1 (row_label (3 + i)) ;;
         mret tt)
        Exception (λ _, mret tt)).

(** [set_product_data(ws, row, product)]. *)
Definition set_product_data (row : Z) (product : PyVal) : M unit :=
  try_except
    (safely_unmerge_row_cells row ;;
     cell row 1 (row_label (row - 11)) ;;
     v ← lift (get product "Item Name" (PStr "")); cell row 2 v ;;
     v ← lift (get product "Embossing Data" (PStr "")); cell row 3 v ;;
     v ← lift (get product "Products Heating" (PStr "")); cell row 5 v ;;
     v ← lift (get product "Sachet Size" (PStr "")); cell row 6 v ;;
     v ← lift (get product "Filling Volume" (PStr "")); cell row 7 v ;;
     v ← lift (get product "Qty" (PStr "")); cell row 8 v ;;
     v ← lift (get product "Required Bulk Quantity" (PStr "")); cell row 9 v ;;
     cell row 10 (PStr "/") ;;
     mret tt)
    Exception (λ _, mret tt).

(** [enumerate(items, start=k)]. *)
Fixpoint enumerate (k : Z) (items : list PyVal) : list (Z * PyVal) :=
  match items with
  | [] => []
  | x :: rest => (k, x) :: enumerate (k + 1) rest
  end.

(** The requirements box, I4:L9. *)
Definition reqs_box : CellRange :=
  {| min_row := 4; min_col := 9; max_row := 9; max_col := 12 |}.

(** The part of [map_data_to_excel] that is the same in both scripts
    before the box is merged: the five header fields and the clauses of
    the requirements text. *)
Definition write_header_fields (data : PyVal) : M (list string) :=
  v ← lift (get data "Client Name" (PStr "")); setitem 3 3 v ;;
  v ← lift (get data "Order Number" (PStr "")); setitem 4 3 v ;;
  v ← lift (get data "Foil" (PStr "")); setitem 5 3 v ;;
  v ← lift (get data "Return of Bulk Containers" (PStr "")); setitem 6 3 v ;;
  v ← lift (get data "Microbiological Analysis" (PStr "")); setitem 7 3 v ;;
  specific_reqs ← lift (get data "Specific order requirements" (PStr ""));
  if truthy specific_reqs then lift (str_split specific_reqs)
  else mret [EmptyString].

(** From [ws.merge_cells('I4:L9')] to the row heights of the box, again
    the same in both scripts. *)
Definition fill_requirements_box (specific_reqs : list string) : M unit :=
  merge_cells reqs_box ;;
  c ← _get_cell 4 9;
  set_value c (PStr (join newline specific_reqs)) ;;
  set_style c (with_alignment
    {| horizontal := Some "left"; vertical := Some "top"; wrapText := true |}) ;;
  for_ (seqZ 4 6) (λ row, set_height row (Some 20)).

(** The loop "Map all products". *)
Definition write_products (items : list PyVal) : M unit :=
  for_ (enumerate 1 items) (λ ip, set_product_data (11 + ip.1) ip.2).

(** "Handle multiple products" and "Map all products", the same in both
    scripts; the value of [items] is handed on. *)
Definition map_products (data : PyVal) : M PyVal :=
  items ← lift (get data "Items" (PList []));
  n ← lift (len items);
  prepare_product_rows (Z.of_nat n) ;;
  its ← lift (iter items);
  write_products its ;;
  mret items.

End Common.
Export Common.

(** ** [main.py] *)

Module Main.

(** [f'I{r}:L{r}']. *)
Definition header_range (r : Z) : CellRange :=
  {| min_row := r; min_col := 9; max_row := r; max_col := 12 |}.

(** The loop "unmerge the range if it is merged, then stop looking". *)
Definition unmerge_if_present (target : CellRange) : M unit :=
  ws ← get_ws;
  for_break (merged ws) (λ merged_range,
    if decide (merged_range = target) then
      try_except (unmerge_cells target) ValueError_KeyError (λ _, mret tt) ;;
      mret true
    else mret false).

Definition thin_border : Border :=
  {| b_left := side "thin" None; b_right := side "thin" None;
     b_top := side "thin" None; b_bottom := side "thin" None |}.

Definition caption : string := "Expedícia objednávky".

(** The body of the loop "clear content and formatting of individual
    cells within the header range". *)
Definition clear_cell (new_start_row col_idx : Z) : M unit :=
  c ← cell new_start_row col_idx PNone;
  set_value c PNone ;;
  set_style c (with_font Font_) ;;
  set_style c (with_fill PatternFill_) ;;
  set_style c (with_border Border_) ;;
  set_style c (with_alignment Alignment_) ;;
  set_style c (with_number_format "General") ;;
  set_style c (with_protection None).

(** [_recreate_expedicia_section(ws, new_start_row)]. *)
Definition _recreate_expedicia_section (new_start_row : Z) : M unit :=
  let header_range_str := header_range new_start_row in
  unmerge_if_present header_range_str ;;
  for_ (seqZ 9 4) (λ col_idx, clear_cell new_start_row col_idx) ;;
  merge_cells header_range_str ;;
  header_cell ← cell new_start_row 9 PNone;
  set_value header_cell (PStr caption) ;;
  set_style header_cell (with_alignment
    {| horizontal := Some "center"; vertical := Some "center"; wrapText := false |}) ;;
  set_style header_cell (with_font
    {| font_name := None; font_size := None; font_bold := true |}) ;;
  set_style header_cell (with_border thin_border) ;;
  set_height new_start_row (Some 20).

(** [last_product_row = 11 + len(items)]. *)
Definition last_product_row (items : PyVal) : Res Z :=
  match len items with
  | Ok n => Ok (11 + Z.of_nat n)
  | Raise e => Raise e
  end.

(** [map_data_to_excel(wb, data)]; the workbook it returns is the state. *)
Definition map_data_to_excel (data : PyVal) : M unit :=
  try_except
    (specific_reqs ← write_header_fields data;
     unmerge_if_present reqs_box ;;
     fill_requirements_box specific_reqs ;;
     items ← map_products data;
     last_product_row ← lift (last_product_row items);
     let new_expedicia_start_row := last_product_row + 2 in
     _recreate_expedicia_section new_expedicia_start_row)
    Exception (λ _, mret tt).

End Main.

(** ** [pdf-to-excel-processor.py] *)

Module Processor.

Definition left_center : Alignment :=
  {| horizontal := Some "left"; vertical := Some "center"; wrapText := false |}.

(** The body of the inner [try] of [add_additional_rows]. *)
Definition blank_row (current_row : Z) : M unit :=
  start_cell ← cell current_row 1 PNone;
  b ← isinstance_MergedCell start_cell;
  (if negb b then set_value start_cell (PStr "") else mret tt) ;;
  end_cell ← cell current_row 12 PNone;
  b ← isinstance_MergedCell end_cell;
  (if negb b then set_value end_cell (PStr "") else mret tt) ;;
  for_ (seqZ 2 10) (λ col,
    c ← cell current_row col PNone;
    b ← isinstance_MergedCell c;
    if negb b then
      set_value c (PStr "") ;;
      set_style c (with_alignment left_center)
    else mret tt).

(** The body of the loop "Add 9 rows" of [add_additional_rows]. *)
Definition add_row (current_row : Z) : M unit :=
  safely_unmerge_row_cells current_row ;;
  mr ← ws_max_row;
  (if mr <? current_row then insert_rows current_row else mret tt) ;;
  set_height current_row (Some 25) ;;
  try_except (blank_row current_row) Exception (λ _, mret tt).

(** [add_additional_rows(ws, last_item_row)]. *)
Definition add_additional_rows (last_item_row : Z) : M Z :=
  try_except
    (let start_row := last_item_row + 1 in
     for_ (seqZ 0 9) (λ i, add_row (start_row + i)) ;;
     mret (start_row + 8))
    Exception (λ _, mret last_item_row).

Definition caption : string := "Expedícia objednávky".

Definition box (side_ : Side) : Border :=
  {| b_left := side_; b_right := side_; b_top := side_; b_bottom := side_ |}.

(** [format_expedition_row(ws, last_item_row)]. *)
Definition format_expedition_row (last_item_row : Z) : M unit :=
  try_except
    (let target_row := last_item_row + 2 in
     let merge_start_col := 9 in
     let merge_end_col := 12 in
     merge_cells {| min_row := target_row; min_col := merge_start_col;
                    max_row := target_row; max_col := merge_end_col |} ;;
     merged_cell ← cell target_row merge_start_col PNone;
     set_value merged_cell (PStr caption) ;;
     set_style merged_cell (with_font
       {| font_name := Some "Calibri"; font_size := Some 20; font_bold := true |}) ;;
     set_style merged_cell (with_alignment
       {| horizontal := Some "center"; vertical := Some "center"; wrapText := false |}) ;;
     let border_style := box (side "medium" (Some "000000")) in
     for_ (seqZ merge_start_col (merge_end_col + 1 - merge_start_col)) (λ col,
       cell_to_style ← cell target_row col PNone;
       set_style cell_to_style (with_border border_style)))
    Exception (λ _, mret tt).

Definition calibri16 : Font :=
  {| font_name := Some "Calibri"; font_size := Some 16; font_bold := false |}.

(** [format_palette_info_row(ws, last_item_row)]. *)
Definition format_palette_info_row (last_item_row : Z) : M unit :=
  try_except
    (let target_row := last_item_row + 3 in
     let side_ := side "thin" (Some "000000") in
     let border_style :=
       {| b_left := side_; b_right := side_; b_top := no_side; b_bottom := side_ |} in
     let alignment_style := left_center in
     cell_i ← cell target_row 9 PNone;
     set_value cell_i (PStr "Typ palty") ;;
     set_style cell_i (with_border border_style) ;;
     set_style cell_i (with_alignment alignment_style) ;;
     set_style cell_i (with_font calibri16) ;;
     merge_cells {| min_row := target_row; min_col := 10;
                    max_row := target_row; max_col := 11 |} ;;
     cell_j ← cell target_row 10 PNone;
     set_value cell_j (PStr "Rozmer") ;;
     set_style cell_j (with_alignment alignment_style) ;;
     set_style cell_j (with_font calibri16) ;;
     c ← cell target_row 10 PNone; set_style c (with_border border_style) ;;
     c ← cell target_row 11 PNone; set_style c (with_border border_style) ;;
     cell_l ← cell target_row 12 PNone;
     set_value cell_l (PStr "Váha") ;;
     set_style cell_l (with_border border_style) ;;
     set_style cell_l (with_alignment alignment_style) ;;
     set_style cell_l (with_font calibri16))
    Exception (λ _, mret tt).

Definition left_border : Border :=
  {| b_left := side "thin" (Some "000000"); b_right := no_side;
     b_top := no_side; b_bottom := no_side |}.
Definition full_border : Border := box (side "thin" (Some "000000")).

(** [format_final_rows(ws, last_item_row)]. *)
Definition format_final_rows (last_item_row : Z) : M unit :=
  try_except
    (let start_row := last_item_row + 4 in
     let end_row := last_item_row + 7 in
     for_ (seqZ start_row (end_row + 1 - start_row)) (λ row,
       c ← cell row 9 PNone;
       set_style c (with_border left_border)) ;;
     merge_cells {| min_row := start_row; min_col := 10;
                    max_row := end_row; max_col := 11 |} ;;
     for_ (seqZ start_row (end_row + 1 - start_row)) (λ row,
       for_ (seqZ 10 2) (λ col,
         c ← cell row col PNone;
         set_style c (with_border full_border))))
    Exception (λ _, mret tt).

(** [format_footer_rows(ws, last_item_row)]. *)
Definition format_footer_rows (last_item_row : Z) : M unit :=
  try_except
    (let signature_row_num := last_item_row + 8 in
     let final_border_row_num := last_item_row + 9 in
     for_ (seqZ 9 4) (λ col,
       c ← cell signature_row_num col PNone;
       set_style c (with_border left_border)) ;;
     for_ (seqZ 1 12) (λ col,
       c ← cell final_border_row_num col PNone;
       set_style c (with_border full_border)))
    Exception (λ _, mret tt).

(** [last_item_row = 11 + len(items) if items else 12]. *)
Definition last_item_row (items : PyVal) : Res Z :=
  if truthy items then
    match len items with
    | Ok n => Ok (11 + Z.of_nat n)
    | Raise e => Raise e
    end
  else Ok 12.

(** "Clean up any existing extra rows BEFORE adding new ones". *)
Definition clean_extra_rows (last_item_row : Z) : M unit :=
  current_max_row ← ws_max_row;
  if last_item_row <? current_max_row then
    for_ (seqZ (last_item_row + 1) (current_max_row + 1 - (last_item_row + 1)))
      (λ row_to_clean, safely_unmerge_row_cells row_to_clean) ;;
    let rows_to_delete := current_max_row - last_item_row in
    if 0 <? rows_to_delete then
      try_except (delete_rows (last_item_row + 1) rows_to_delete)
        Exception (λ _, mret tt)
    else mret tt
  else mret tt.

(** The five calls that render the trailing block. *)
Definition render_trailing_block (last_item_row : Z) : M unit :=
  final_row ← add_additional_rows last_item_row;
  format_expedition_row last_item_row ;;
  format_palette_info_row last_item_row ;;
  format_final_rows last_item_row ;;
  format_footer_rows last_item_row.

(** [map_data_to_excel(wb, data)]. *)
Definition map_data_to_excel (data : PyVal) : M unit :=
  try_except
    (specific_reqs ← write_header_fields data;
     fill_requirements_box specific_reqs ;;
     items ← map_products data;
     last_item_row ← lift (last_item_row items);
     clean_extra_rows last_item_row ;;
     render_trailing_block last_item_row)
    Exception (λ _, mret tt).

End Processor.

(** * The layout and the properties to prove *)

Module Layout.

(** The item rows are rows [11 + idx] for [idx] from 1, so the first
    item row is row 12; the template ships rows 12 and 13, and row 13 is
    the model row the new rows are styled after. *)
Definition first_item_row : Z := 12.
Definition model_row : Z := 13.

(** Whether the sheet holds a read-only placeholder at a coordinate. *)
Definition placeholder (ws : Worksheet) (k : Z * Z) : bool :=
  from_option is_MergedCell false (cells ws !! k).

(** The value read at a coordinate ([None] where there is no cell). *)
Definition value_at (ws : Worksheet) (k : Z * Z) : PyVal :=
  from_option cell_value PNone (cells ws !! k).

(** The style read at a coordinate. *)
Definition style_at (ws : Worksheet) (k : Z * Z) : Style :=
  from_option cell_style default_style (cells ws !! k).

(** The sheet after a range was merged. *)
Definition merge_done (rg : CellRange) (ws : Worksheet) : Worksheet :=
  {| cells := insert_all (tail (range_cells rg)) (MergedCell default_style)
                (ensure_cell (min_row rg, min_col rg) (cells ws));
     merged := (if decide (rg ∈ merged ws) then merged ws else merged ws ++ [rg]);
     heights := heights ws |}.

(** Dissolving merges only removes: cells and merged ranges may go,
    none appears or changes. *)
Definition dissolves (ws ws' : Worksheet) : Prop :=
  (∀ k, cells ws' !! k = cells ws !! k ∨ cells ws' !! k = None) ∧
  (∀ rg, rg ∈ merged ws' → rg ∈ merged ws).

(** What follows the requirements box in each script. *)
Definition main_tail (data : PyVal) : M unit :=
  items ← map_products data;
  last_product_row ← lift (Main.last_product_row items);
  Main._recreate_expedicia_section (last_product_row + 2).

Definition processor_tail (data : PyVal) : M unit :=
  items ← map_products data;
  last_item_row ← lift (Processor.last_item_row items);
  Processor.clean_extra_rows last_item_row ;;
  Processor.render_trailing_block last_item_row.

(** The requirements box as the assembler leaves it: the text in the
    anchor I4 with wrapping on, and I4:L9 merged. *)
Definition box_filled (text : string) (ws : Worksheet) : Prop :=
  (∃ st, cells ws !! (4, 9) = Some (Plain (PStr text) st) ∧
         wrapText (alignment st) = true) ∧
  reqs_box ∈ merged ws.

(** I4 is not inside (other than as the anchor of) a merged range that
    reaches down to the item rows. *)
Definition box_anchor_free (ws : Worksheet) : Prop :=
  ∀ rg, rg ∈ merged ws → 12 ≤ max_row rg → (4, 9) ∉ tail (range_cells rg).

(** No ordinary or empty coordinate turns into a placeholder. *)
Definition no_new_placeholder (ws ws' : Worksheet) : Prop :=
  ∀ k, placeholder ws k = false → placeholder ws' k = false.

(** A property that, once it holds, still holds afterwards. *)
Definition keeps (P : Worksheet → Prop) : relation Worksheet :=
  λ ws ws', P ws → P ws'.

(** No placeholder in the columns [cols] from row [r0] down. *)
Definition placeholder_free (cols : Z → Prop) (r0 : Z) (ws : Worksheet) : Prop :=
  ∀ r c, r0 ≤ r → cols c → placeholder ws (r, c) = false.

(** Row [11 + j] carries the label of the [j]-th item. *)
Definition labelled (ws : Worksheet) (j : Z) : Prop :=
  ∃ st, cells ws !! (11 + j, 1) = Some (Plain (row_label j) st).

(** No merged range touches an item row up to the [n]-th. *)
Definition item_rows_unmerged (n : Z) (ws : Worksheet) : Prop :=
  ∀ rg j, rg ∈ merged ws → 1 ≤ j ≤ n → ¬ touches_row (11 + j) rg.

(** The sheet after row provisioning and the item writes. *)
Definition items_written (items : list PyVal) (ws : Worksheet) : Worksheet :=
  exec (write_products items)
    (exec (prepare_product_rows (Z.of_nat (length items))) ws).

(** The merged ranges are the same list. *)
Definition merged_same : relation Worksheet := λ ws ws', merged ws' = merged ws.

(** The merged ranges after are those before that touch none of the
    rows in [rows]. *)
Definition merged_dissolved (rows : Z → Prop) (ws ws' : Worksheet) : Prop :=
  ∀ rg, rg ∈ merged ws' ↔ rg ∈ merged ws ∧ ∀ r, rows r → ¬ touches_row r rg.

(** The merged ranges after are those before and those of [rgs]. *)
Definition merged_added (rgs : list CellRange) (ws ws' : Worksheet) : Prop :=
  ∀ rg, rg ∈ merged ws' ↔ rg ∈ merged ws ∨ rg ∈ rgs.

(** Only cells in the rows [S] differ. *)
Definition rows_only (S : Z → Prop) : relation Worksheet :=
  λ ws ws', ∀ r c, ¬ S r → cells ws' !! (r, c) = cells ws !! (r, c).

(** No cell below row [last]. *)
Definition empty_below (last : Z) (ws : Worksheet) : Prop :=
  ∀ r c, last < r → cells ws !! (r, c) = None.

(** A field of a JSON object as [d.get(key, '')] reads it. *)
Definition field (d : list (string * PyVal)) (key : string) : PyVal :=
  match assoc key d with Some v => v | None => PStr "" end.

(** A successful assignment of a value to an ordinary cell. *)
Definition write_cell (k : Z * Z) (v : PyVal) (ws : Worksheet) : Worksheet :=
  set_cells <[k := Plain v (style_at ws k)]> ws.

(** The sheet after the five header fields were assigned. *)
Definition header_fields_written (d : list (string * PyVal)) (ws : Worksheet) : Worksheet :=
  write_cell (7, 3) (field d "Microbiological Analysis")
    (write_cell (6, 3) (field d "Return of Bulk Containers")
       (write_cell (5, 3) (field d "Foil")
          (write_cell (4, 3) (field d "Order Number")
             (write_cell (3, 3) (field d "Client Name") ws)))).

(** The columns the item row writer assigns to. *)
Definition item_columns : list Z := [1; 2; 3; 5; 6; 7; 8; 9; 10].

(** A border with a line on all four sides. *)
Definition bordered (b : Border) : Prop :=
  is_Some (side_style (b_left b)) ∧ is_Some (side_style (b_right b)) ∧
  is_Some (side_style (b_top b)) ∧ is_Some (side_style (b_bottom b)).

(** The dispatch header as rendered at row [t]: I–L merged, the caption
    in the anchor, centered, bold, bordered. *)
Definition header_at (ws : Worksheet) (t : Z) : Prop :=
  Main.header_range t ∈ merged ws ∧
  ∃ st, cells ws !! (t, 9) = Some (Plain (PStr Main.caption) st) ∧
        horizontal (alignment st) = Some "center" ∧
        font_bold (font st) = true ∧
        bordered (border st).

(** The three merged ranges of the trailing block rendered after
    [last_item_row]: the header, the two-column label, the notes box. *)
Definition trailing_ranges (last_item_row : Z) : list CellRange :=
  [ {| min_row := last_item_row + 2; min_col := 9;
       max_row := last_item_row + 2; max_col := 12 |};
    {| min_row := last_item_row + 3; min_col := 10;
       max_row := last_item_row + 3; max_col := 11 |};
    {| min_row := last_item_row + 4; min_col := 10;
       max_row := last_item_row + 7; max_col := 11 |} ].

(** An [OrderRecord] as the extraction step delivers it: a JSON object
    whose header fields are scalars or absent, whose requirements text is
    a string, null or absent, and whose [Items] is a list (or absent). *)
Definition scalar_field (d : list (string * PyVal)) (k : string) : bool :=
  match assoc k d with Some v => storable v | None => true end.

Definition requirements_of (d : list (string * PyVal)) : option string :=
  match assoc "Specific order requirements" d with
  | Some (PStr s) => Some s
  | Some PNone | None => Some EmptyString
  | Some _ => None
  end.

Definition items_of (d : list (string * PyVal)) : option (list PyVal) :=
  match assoc "Items" d with
  | Some (PList l) => Some l
  | None => Some []
  | Some _ => None
  end.

Definition order_record (data : PyVal) (reqs : string) (items : list PyVal) : Prop :=
  ∃ d, data = PDict d ∧
       scalar_field d "Client Name" = true ∧
       scalar_field d "Order Number" = true ∧
       scalar_field d "Foil" = true ∧
       scalar_field d "Return of Bulk Containers" = true ∧
       scalar_field d "Microbiological Analysis" = true ∧
       requirements_of d = Some reqs ∧
       items_of d = Some items.

(** Modelled from the spec: the template workbook
    (files/empty file for extraction excel file.xlsx) is not among the
    sources.  The spec's template contract gives it fixed single cells
    for the five header fields, the requirements box anchored at I4, two
    item rows, and no trailing block; here: none of the header cells nor
    I4 is a placeholder of some merge, ... *)
Definition header_cells_plain (ws : Worksheet) : Prop :=
  (∀ r, 3 ≤ r ≤ 7 → placeholder ws (r, 3) = false) ∧ placeholder ws (4, 9) = false.

(** ... and from the first item row down nothing is merged. *)
Definition nothing_merged_below (ws : Worksheet) : Prop :=
  (∀ r c, 12 ≤ r → placeholder ws (r, c) = false) ∧
  (∀ rg, rg ∈ merged ws → max_row rg < 12).

Definition template_contract (ws : Worksheet) : Prop :=
  header_cells_plain ws ∧ nothing_merged_below ws.

(** The sheet [ws'] once the header fields and the requirements box
    are done on [ws]: the box is filled, the box is the only range that
    may be new, nothing from row 10 down has changed, and the header
    cells are still ordinary cells. *)
Definition box_done (text : string) (ws ws' : Worksheet) : Prop :=
  box_filled text ws' ∧
  (∀ rg, rg ∈ merged ws' ↔ rg ∈ merged ws ∨ rg = reqs_box) ∧
  (∀ k, 10 ≤ k.1 → cells ws' !! k = cells ws !! k) ∧
  header_cells_plain ws'.

(** Changes confined to the rows from [R] down: above [R] a cell is
    as before, unless it was lost with a merged range that reached
    down to [R]; the merged ranges that end above [R] are all kept, and
    the only new ranges start at [R] or lower. *)
Definition changes_below (R : Z) (ws ws' : Worksheet) : Prop :=
  (∀ r c, r < R →
     cells ws' !! (r, c) = cells ws !! (r, c) ∨
     (cells ws' !! (r, c) = None ∧
      ∃ rg, rg ∈ merged ws ∧ R ≤ max_row rg ∧ (r, c) ∈ tail (range_cells rg))) ∧
  (∀ rg, rg ∈ merged ws' → rg ∈ merged ws ∨ R ≤ min_row rg) ∧
  (∀ rg, rg ∈ merged ws → max_row rg < R → rg ∈ merged ws').

(** A computation respects a relation on sheets when every run takes
    a sheet to a related one, whether it returns or raises. *)
Definition respects {A} (Rel : relation Worksheet) (m : M A) : Prop :=
  ∀ ws, Rel ws (exec m ws).

Abbreviation confined R := (respects (changes_below R)).

(** Nothing differs outside the coordinates in [S]: the frame of a write. *)
Definition same_outside (S : Z * Z → Prop) (ws ws' : Worksheet) : Prop :=
  (∀ k, ¬ S k → cells ws' !! k = cells ws !! k) ∧
  merged ws' = merged ws ∧ heights ws' = heights ws.

(** The last item row in the spec's words: [first_item_row + item_count - 1],
    and the template's second item row as the floor for an empty order. *)
Definition spec_last_item_row (item_count : nat) : Z :=
  match item_count with
  | O => model_row
  | _ => first_item_row + Z.of_nat item_count - 1
  end.

(** Merged ranges are only lost, and only those that touch a row in [rows]. *)
Definition merged_kept (rows : Z → Prop) : relation Worksheet := λ ws ws',
  (∀ rg, rg ∈ merged ws' → rg ∈ merged ws) ∧
  (∀ rg, rg ∈ merged ws → (∀ r, rows r → ¬ touches_row r rg) → rg ∈ merged ws').

(** Every merged range ends above the item rows or is one of [rgs]. *)
Definition merged_above_or (rgs : list CellRange) (ws : Worksheet) : Prop :=
  ∀ rg, rg ∈ merged ws → max_row rg < first_item_row ∨ rg ∈ rgs.

(** No placeholder in the rows from [lo] up to, not including, [hi]. *)
Definition free_rows (lo hi : Z) (ws : Worksheet) : Prop :=
  ∀ r c, lo ≤ r < hi → placeholder ws (r, c) = false.

(** The row [t] can take the header of [main.py]: no placeholder from the
    first item row down to it, none in its column I, and in its columns
    J–L either none or those of a header range that is merged there. *)
Definition header_row_ready (t : Z) (ws : Worksheet) : Prop :=
  free_rows 12 t ws ∧ placeholder ws (t, 9) = false ∧
  ((∀ c, 10 ≤ c ≤ 12 → placeholder ws (t, c) = false) ∨
   (Main.header_range t ∈ merged ws ∧ ∀ c, 10 ≤ c ≤ 12 → is_Some (cells ws !! (t, c)))).

(** A computation that never raises. *)
Definition total {A} (m : M A) : Prop := ∀ ws, ∃ a, result m ws = Ok a.

(** *** Sample sheets and orders *)

(** A blank template in the shape of the template contract: the header
    cells, the requirements box merged at I4:L9, the two item rows. *)
Definition blank_template : Worksheet :=
  {| cells :=
       insert_all (tail (range_cells reqs_box)) (MergedCell default_style)
         (list_to_map
            [ ((3, 3), Plain PNone default_style);
              ((4, 3), Plain PNone default_style);
              ((5, 3), Plain PNone default_style);
              ((6, 3), Plain PNone default_style);
              ((7, 3), Plain PNone default_style);
              ((4, 9), Plain PNone default_style);
              ((12, 1), Plain (PStr "1.") default_style);
              ((12, 2), Plain PNone default_style);
              ((13, 1), Plain (PStr "2.") default_style);
              ((13, 2), Plain PNone (with_font Font_ default_style));
              ((13, 12), Plain PNone (with_fill red_fill default_style)) ]);
     merged := [reqs_box];
     heights := ∅ |}.

Definition sample_item (name : string) : PyVal :=
  PDict [ ("Item Name", PStr name); ("Sachet Size", PStr "60x100");
          ("Filling Volume", PStr "10ml"); ("Products Heating", PStr "nie");
          ("Embossing Data", PStr "WW"); ("Required Bulk Quantity", PStr "25kg");
          ("Qty", PStr "25000") ].

Definition sample_order (items : list PyVal) : PyVal :=
  PDict [ ("Client Name", PStr "ACME"); ("Order Number", PStr "O2025079");
          ("Foil", PStr "PET/AL/LDPE"); ("Return of Bulk Containers", PStr "ANO");
          ("Microbiological Analysis", PStr "NIE");
          ("Specific order requirements",
           PStr (join newline ["A"; "B"; "C"]));
          ("Items", PList items) ].

(** An item whose name came back as JSON [null], and an order whose
    [Items] came back as [null]. *)
Definition null_name_item : PyVal := PDict [ ("Item Name", PNone) ].
Definition null_items_order : PyVal :=
  PDict [ ("Client Name", PStr "ACME"); ("Items", PNone) ].

(** A sheet whose cell B12 still holds text from an earlier use. *)
Definition used_row_sheet : Worksheet :=
  {| cells := {[ (12, 2) := Plain (PStr "old") default_style ]};
     merged := []; heights := ∅ |}.

End Layout.
Export Layout.

(** * What the cells hold: further properties to prove *)

Module Contents.

(** The header cell (in column C) each order field goes to, as
    [map_data_to_excel] assigns them. *)
Definition header_layout : list (Z * string) :=
  [ (3, "Client Name"); (4, "Order Number"); (5, "Foil");
    (6, "Return of Bulk Containers"); (7, "Microbiological Analysis") ].

(** The column each field of an item goes to, as [set_product_data]
    assigns them. *)
Definition item_layout : list (Z * string) :=
  [ (2, "Item Name"); (3, "Embossing Data"); (5, "Products Heating");
    (6, "Sachet Size"); (7, "Filling Volume"); (8, "Qty");
    (9, "Required Bulk Quantity") ].

(** An item whose seven fields are strings, or absent. *)
Definition text_item (p : list (string * PyVal)) : Prop :=
  ∀ col key, (col, key) ∈ item_layout → ∃ s, field p key = PStr s.

(** The header cells lie in no merged range that reaches the item rows
    (other than as its anchor). *)
Definition header_cells_free (ws : Worksheet) : Prop :=
  ∀ rg r, rg ∈ merged ws → 12 ≤ max_row rg → 3 ≤ r ≤ 7 → (r, 3) ∉ tail (range_cells rg).

(** What can be read at a coordinate: the value, the style, and whether
    the cell is a placeholder.  A cell that is created on access reads
    like no cell at all. *)
Definition view (ws : Worksheet) (k : Z * Z) : PyVal * Style * bool :=
  (value_at ws k, style_at ws k, placeholder ws k).

(** Outside the coordinates in [S] everything reads as before. *)
Definition reads_same (S : Z * Z → Prop) : relation Worksheet :=
  λ ws ws', ∀ k, ¬ S k → view ws' k = view ws k.

(** Outside [S] values and placeholders are as before (styles may change). *)
Definition content_same (S : Z * Z → Prop) : relation Worksheet :=
  λ ws ws', ∀ k, ¬ S k →
    value_at ws' k = value_at ws k ∧ placeholder ws' k = placeholder ws k.

(** The row heights are as before outside the rows in [S]. *)
Definition heights_same (S : Z → Prop) : relation Worksheet :=
  λ ws ws', ∀ r, ¬ S r → heights ws' !! r = heights ws !! r.

(** The sheet after an item with text fields is written to [row] of
    the sheet [ws] (whose merges on the row are already dissolved). *)
Definition item_written (row : Z) (p : list (string * PyVal)) (ws : Worksheet) : Worksheet :=
  write_cell (row, 10) (PStr "/")
    (write_cell (row, 9) (field p "Required Bulk Quantity")
       (write_cell (row, 8) (field p "Qty")
          (write_cell (row, 7) (field p "Filling Volume")
             (write_cell (row, 6) (field p "Sachet Size")
                (write_cell (row, 5) (field p "Products Heating")
                   (write_cell (row, 3) (field p "Embossing Data")
                      (write_cell (row, 2) (field p "Item Name")
                         (write_cell (row, 1) (row_label (row - 11)) ws)))))))).

(** The body of the loop "Copy cell formats" of [copy_row_format]. *)
Definition copy_cell_format (source_row target_row col : Z) : M unit :=
  try_except
    (source ← cell source_row col PNone;
     target ← cell target_row col PNone;
     styled ← has_style source;
     if (styled : bool) then
       st ← style_of source;
       set_style target (with_font (font st)) ;;
       set_style target (with_border (border st)) ;;
       set_style target (with_fill (fill st)) ;;
       set_style target (with_number_format (number_format st)) ;;
       set_style target (with_protection (protection st)) ;;
       set_style target (with_alignment (alignment st))
     else mret tt)
    Exception (λ _, mret tt).

(** The style a cell of the target row has after [copy_row_format]:
    the style of the cell above it in the source row when that one has
    a style, its own otherwise; in column L the fill is red. *)
Definition copied_style (ws : Worksheet) (source_row target_row col : Z) : Style :=
  let s := if decide (style_at ws (source_row, col) = default_style)
           then style_at ws (target_row, col)
           else style_at ws (source_row, col) in
  if decide (col = 12) then with_fill red_fill s else s.

(** A computation that neither reads nor assigns row heights: it runs
    the same whatever the heights are, and leaves them alone. *)
Definition heights_blind {A} (m : M A) : Prop :=
  ∀ f ws, m (set_heights f ws) = ((m ws).1, set_heights f (m ws).2).

(** The style a freshly inserted item row gets in a column: that of
    the model row 13 of the sheet [ws], the fill in column L red. *)
Definition model_row_style (ws : Worksheet) (col : Z) : Style :=
  let s := style_at ws (13, col) in
  if decide (col = 12) then with_fill red_fill s else s.

(** The body of the loop of [prepare_product_rows]. *)
Definition prepare_row (i : Z) : M unit :=
  try_except
    (insert_rows (14 + i) ;;
     copy_row_format 13 (14 + i) ;;
     cell (14 + i) 1 (row_label (3 + i)) ;;
     mret tt)
    Exception (λ _, mret tt).

(** The value and the kind (placeholder or not) read at a coordinate. *)
Definition content (ws : Worksheet) (k : Z * Z) : PyVal * bool :=
  (value_at ws k, placeholder ws k).

(** How a cell reads after [add_additional_rows] blanked it: a
    placeholder is skipped, any other cell holds the empty string. *)
Definition blanked (ws : Worksheet) (k : Z * Z) : PyVal * bool :=
  if placeholder ws k then content ws k else (PStr "", false).

(** The placeholders of the trailing block rendered after
    [last_item_row]: J–L of the header row, K of the palette row, and
    J–K of the four rows of the notes box except its anchor. *)
Definition trailing_placeholder (last_item_row r c : Z) : bool :=
  ((r =? last_item_row + 2) && (10 <=? c) && (c <=? 12)) ||
  ((r =? last_item_row + 3) && (c =? 11)) ||
  ((last_item_row + 4 <=? r) && (r <=? last_item_row + 7) &&
   (10 <=? c) && (c <=? 11) && negb ((r =? last_item_row + 4) && (c =? 10))).

(** What the cells of the trailing block hold once it is rendered. *)
Definition trailing_content (last_item_row r c : Z) : PyVal * bool :=
  if trailing_placeholder last_item_row r c then (PNone, true)
  else if (r =? last_item_row + 2) && (c =? 9) then (PStr Processor.caption, false)
  else if (r =? last_item_row + 3) && (c =? 9) then (PStr "Typ palty", false)
  else if (r =? last_item_row + 3) && (c =? 10) then (PStr "Rozmer", false)
  else if (r =? last_item_row + 3) && (c =? 12) then (PStr "Váha", false)
  else (PStr "", false).

(** The body of the loop "Clear any existing content in the middle
    columns (B-K)" of [add_additional_rows]. *)
Definition blank_middle (current_row col : Z) : M unit :=
  c ← cell current_row col PNone;
  b ← isinstance_MergedCell c;
  if negb b then
    set_value c (PStr "") ;;
    set_style c (with_alignment Processor.left_center)
  else mret tt.

(** An order that names no items at all: the key "Items" is absent. *)
Definition order_without_items : PyVal :=
  PDict [ ("Client Name", PStr "ACME"); ("Order Number", PStr "O2025079") ].

End Contents.
Export Contents.

(** * Asking the model: [process_pdf] and [process_image]

    Both scripts, and [extraction.py] for images, send the document to
    the model in a loop of at most [max_retries] attempts, clean the
    answer and parse it as JSON.  The three functions differ in the
    prompt, the MIME type and the default of [initial_delay] only. *)

Module PdfProcessing.

(** A Python [str]: the sequence of its code points. *)
Definition text : Type := list N.

(** The code points of an ASCII literal of the source. *)
Definition lit (s : string) : text := N_of_ascii <$> String.list_ascii_of_string s.

(** What [str.strip()] without an argument removes: the code points
    for which [str.isspace] holds. *)
Definition isspace (c : N) : bool :=
  (((9 <=? c) && (c <=? 13)) || ((28 <=? c) && (c <=? 32)) || (c =? 133) || (c =? 160)
   || (c =? 5760) || ((8192 <=? c) && (c <=? 8202)) || (c =? 8232) || (c =? 8233)
   || (c =? 8239) || (c =? 8287) || (c =? 12288))%N.

Fixpoint lstrip (drop : N → bool) (s : text) : text :=
  match s with
  | c :: s' => if drop c then lstrip drop s' else s
  | [] => []
  end.

Definition rstrip (drop : N → bool) (s : text) : text :=
  reverse (lstrip drop (reverse s)).

(** The characters that [s.strip()] ([chars = None]) and
    [s.strip(chars)] remove: the argument is a set of characters, it
    is not a prefix or a suffix. *)
Definition removable (chars : option text) (c : N) : bool :=
  match chars with
  | None => isspace c
  | Some cs => bool_decide (c ∈ cs)
  end.

(** [s.strip()] and [s.strip(chars)]: the removable characters are
    taken from both ends one by one. *)
Definition strip (chars : option text) (s : text) : text :=
  rstrip (removable chars) (lstrip (removable chars) s).

(** [response.text.strip()] followed by
    [response_text.strip('```json').strip('```').strip()]. *)
Definition clean (response_text : text) : text :=
  let response_text := strip None response_text in
  strip None (strip (Some (lit "```")) (strip (Some (lit "```json")) response_text)).

(** Texts made of white space, and texts made of the characters of the
    fence literal: the backtick and the letters j, s, o, n. *)
Definition spaces (s : text) : Prop := Forall (λ c, isspace c = true) s.
Definition fence_chars (s : text) : Prop := Forall (λ c, c ∈ lit "```json") s.

(** A character that no step of [clean] removes. *)
Definition kept_char (c : N) : Prop := isspace c = false ∧ c ∉ lit "```json".

(** A character that some step of [clean] removes. *)
Definition cleaned_char (c : N) : Prop := isspace c = true ∨ c ∈ lit "```json".

Fixpoint startswith (prefix s : text) : bool :=
  match prefix, s with
  | [], _ => true
  | a :: prefix', b :: s' => (a =? b)%N && startswith prefix' s'
  | _ :: _, [] => false
  end.

(** [needle in s]. *)
Fixpoint contains (needle s : text) : bool :=
  startswith needle s ||
  match s with
  | [] => false
  | _ :: s' => contains needle s'
  end.

(** What [json.loads] does with a text: a value, a [JSONDecodeError],
    or another exception [e], kept as [str(e)]. *)
Inductive Loaded : Type :=
  | Parsed (v : PyVal)
  | JSONDecodeError
  | OtherError (str_e : text).

(** What one attempt meets before the answer is cleaned: reading and
    encoding the file raises; configuring the client, the request or
    reading [response.text] raises [e], kept as [str(e)]; or the model
    answers with [response.text]. *)
Inductive Attempt : Type :=
  | ReadFails
  | CallFails (str_e : text)
  | Responds (response_text : text).

(** What a call did: the value it returned, the arguments of its
    [time.sleep] calls in order, and the number of attempts it began. *)
Record Run (float : Type) : Type :=
  { returned : PyVal; slept : list float; attempts : nat }.
Arguments returned {float} r.
Arguments slept {float} r.
Arguments attempts {float} r.

Section process_pdf.
(** The surroundings of a call: the parser, what each attempt meets,
    and for the waiting time Python's floats with the conversion of
    an [int], the sum, and the value of [random.random()] at each
    attempt. *)
Context {float : Type}.
Variable json_loads : text → Loaded.
Variable world : nat → Attempt.
Variable of_int : Z → float.
Variable fadd : float → float → float.
Variable random : nat → float.
Variables max_retries initial_delay : Z.

(** [return v]. *)
Definition stop (v : PyVal) : Run float :=
  {| returned := v; slept := []; attempts := 1 |}.

(** The rest of the loop after this attempt, which slept for [wait]
    if it slept. *)
Definition next (wait : option float) (rest : Run float) : Run float :=
  {| returned := returned rest;
     slept := option_list wait ++ slept rest;
     attempts := S (attempts rest) |}.

(** [initial_delay * (2 ** attempt) + random.random()]. *)
Definition wait_time (attempt : nat) : float :=
  fadd (of_int (initial_delay * 2 ^ Z.of_nat attempt)) (random attempt).

(** [if attempt < max_retries - 1: continue] and then [return None]. *)
Definition continue_or_none (attempt : nat) (rest : Run float) : Run float :=
  if Z.of_nat attempt <? max_retries - 1 then next None rest else stop PNone.

(** The handler [except Exception as e] of the attempt. *)
Definition on_exception (attempt : nat) (str_e : text) (rest : Run float) : Run float :=
  if contains (lit "429") str_e then next (Some (wait_time attempt)) rest
  else continue_or_none attempt rest.

(** The body of the loop; [rest] is what the later attempts do. *)
Definition attempt_body (attempt : nat) (rest : Run float) : Run float :=
  match world attempt with
  | ReadFails => stop PNone
  | CallFails str_e => on_exception attempt str_e rest
  | Responds response_text =>
      match json_loads (clean response_text) with
      | Parsed v => stop v
      | JSONDecodeError => continue_or_none attempt rest
      | OtherError str_e => on_exception attempt str_e rest
      end
  end.

(** [for attempt in range(...)], and [return None] after the loop. *)
Fixpoint attempts_over (l : list nat) : Run float :=
  match l with
  | [] => {| returned := PNone; slept := []; attempts := 0 |}
  | attempt :: l' => attempt_body attempt (attempts_over l')
  end.

Definition process_pdf : Run float :=
  attempts_over (seq 0 (Z.to_nat max_retries)).

(** The attempt raises an exception whose text contains "429". *)
Definition rate_limited (attempt : nat) : bool :=
  match world attempt with
  | ReadFails => false
  | CallFails str_e => contains (lit "429") str_e
  | Responds response_text =>
      match json_loads (clean response_text) with
      | OtherError str_e => contains (lit "429") str_e
      | _ => false
      end
  end.

(** What the attempt returns when it ends the call: [None] when the
    file cannot be read, the parsed value when the answer parses;
    every other attempt leaves the call going. *)
Definition settles (attempt : nat) : option PyVal :=
  match world attempt with
  | ReadFails => Some PNone
  | CallFails _ => None
  | Responds response_text =>
      match json_loads (clean response_text) with
      | Parsed v => Some v
      | _ => None
      end
  end.
End process_pdf.

End PdfProcessing.
Export PdfProcessing.

(** * The drivers: [process_excel_imputation] and [process_all_pdfs] *)

Module Driver.

Section process_all_pdfs.
(** The surroundings of a run: the assembler of the script, what
    [openpyxl.load_workbook(template_file)] gives (each call reads the
    file anew), what [wb.save(path)] does, what [process_pdf] returns
    for a file of the input folder, and the path of the Excel file for
    it, [os.path.join(output_folder, os.path.splitext(pdf_file)[0] +
    '_filled_order_note.xlsx')]. *)
Variable map_data_to_excel : PyVal → M unit.
Variable load_excel_template : Res Worksheet.
Variable save : string → Worksheet → Res unit.
Variable process_pdf : string → PyVal.
Variable output_excel : string → string.

(** [process_excel_imputation(data, template_file, output_file)]: the
    files it saved, with the sheet saved in each. *)
Definition process_excel_imputation (data : PyVal) (output_file : string)
  : list (string * Worksheet) :=
  match load_excel_template with
  | Raise _ => []
  | Ok wb =>
      match map_data_to_excel data wb with
      | (Raise _, _) => []
      | (Ok _, wb) =>
          match save output_file wb with
          | Ok _ => [(output_file, wb)]
          | Raise _ => []
          end
      end
  end.

(** The body of the loop of [process_all_pdfs]. *)
Definition process_one (pdf_file : string) : list (string * Worksheet) :=
  let extracted_data := process_pdf pdf_file in
  if negb (truthy extracted_data) then []
  else process_excel_imputation extracted_data (output_excel pdf_file).

(** [process_all_pdfs(...)] on the PDF files listed in the input
    folder: the files it saved, in order. *)
Definition process_all_pdfs (pdf_files : list string) : list (string * Worksheet) :=
  match pdf_files with
  | [] => []
  | _ => pdf_files ≫= process_one
  end.
End process_all_pdfs.

End Driver.
Export Driver.

(** * Reasoning about sheet computations *)

(** ** Totality: computations that never raise *)

Lemma total_try_except {A} (body : M A) (handler : Exn → M A) :
  (∀ e, total (handler e)) → total (try_except body Exception handler).
Proof.
  intros Hh ws. unfold result, try_except.
  destruct (body ws) as [[a|e] ws'] eqn:E; simpl; [eauto|].
  apply (Hh e ws').
Qed.

Lemma total_ret {A} (a : A) : total (mret a).
Proof. intros ws. by exists a. Qed.

Lemma total_bind {A B} (m : M A) (f : A → M B) :
  total m → (∀ a, total (f a)) → total (m ≫= f).
Proof.
  intros Hm Hf ws. destruct (Hm ws) as [a Ha].
  unfold result, mbind, M_bind in *. destruct (m ws) as [[a'|e] ws']; simplify_eq/=.
  apply (Hf a ws').
Qed.

Lemma total_for {A} (l : list A) (body : A → M unit) :
  (∀ x, total (body x)) → total (for_ l body).
Proof.
  intros Hb. induction l as [|x l IH]; simpl.
  - apply total_ret.
  - apply total_bind; auto.
Qed.

Lemma total_modify f : total (modify f).
Proof. intros ws. by exists tt. Qed.

Lemma total_get_ws : total get_ws.
Proof. intros ws. by exists ws. Qed.

(** A total computation of type [unit] returns [Ok tt]. *)
Lemma total_unit (m : M unit) ws : total m → result m ws = Ok tt.
Proof. intros H. destruct (H ws) as [[] ?]. done. Qed.

Lemma run_eta {A} (m : M A) ws : m ws = (result m ws, exec m ws).
Proof. unfold result, exec. by destruct (m ws). Qed.

(** ** The shape of a run *)

Lemma exec_bind {A B} (m : M A) (f : A → M B) ws a :
  result m ws = Ok a → exec (m ≫= f) ws = exec (f a) (exec m ws).
Proof.
  unfold result, exec, mbind, M_bind. destruct (m ws) as [[a'|e] ws']; simpl; congruence.
Qed.

Lemma result_bind {A B} (m : M A) (f : A → M B) ws a :
  result m ws = Ok a → result (m ≫= f) ws = result (f a) (exec m ws).
Proof.
  unfold result, exec, mbind, M_bind. destruct (m ws) as [[a'|e] ws']; simpl; congruence.
Qed.

Lemma exec_bind_raise {A B} (m : M A) (f : A → M B) ws e :
  result m ws = Raise e → exec (m ≫= f) ws = exec m ws ∧ result (m ≫= f) ws = Raise e.
Proof.
  unfold result, exec, mbind, M_bind. destruct (m ws) as [[a'|e'] ws']; simpl; intros; by simplify_eq.
Qed.

Lemma exec_try_ok {A} (body : M A) cls h ws a :
  result body ws = Ok a →
  exec (try_except body cls h) ws = exec body ws ∧ result (try_except body cls h) ws = Ok a.
Proof.
  unfold result, exec, try_except. destruct (body ws) as [[a'|e'] ws']; simpl; intros; by simplify_eq.
Qed.

Lemma exec_try_pass (body : M unit) ws :
  exec (try_except body Exception (λ _, mret tt)) ws = exec body ws.
Proof.
  unfold result, exec, try_except. by destruct (body ws) as [[a'|e'] ws'].
Qed.

Lemma result_try_pass (body : M unit) ws :
  result (try_except body Exception (λ _, mret tt)) ws = Ok tt.
Proof.
  unfold result, exec, try_except. by destruct (body ws) as [[[]|e'] ws'].
Qed.

(** ** What the library calls do *)

Section primitives.
Implicit Types (ws : Worksheet) (k : Z * Z) (r rg : CellRange).

Lemma delete_each_spec ks ws :
  merged (exec (delete_each ks) ws) = merged ws ∧
  heights (exec (delete_each ks) ws) = heights ws ∧
  (result (delete_each ks) ws = Ok tt ∨ result (delete_each ks) ws = Raise KeyError) ∧
  (∀ k, cells (exec (delete_each ks) ws) !! k = cells ws !! k ∨
        (cells (exec (delete_each ks) ws) !! k = None ∧ k ∈ ks)) ∧
  (result (delete_each ks) ws = Ok tt → ∀ k, k ∈ ks → cells (exec (delete_each ks) ws) !! k = None).
Proof.
  revert ws. induction ks as [|k0 ks IH]; intros ws; simpl.
  - unfold exec, result; simpl. split_and!; auto. intros _ k Hk. by apply elem_of_nil in Hk.
  - unfold exec, result, mbind, M_bind, get_ws; simpl.
    destruct (cells ws !! k0) as [c0|] eqn:E; simpl.
    + specialize (IH (set_cells (delete k0) ws)).
      unfold exec, result in IH. destruct IH as (Hm & Hh & Hr & Hc & Hok).
      split_and!; auto.
      * intros k. destruct (Hc k) as [Hk|[Hk Hin]].
        -- simpl in Hk. destruct (decide (k = k0)) as [->|Hne].
           ++ right. rewrite Hk, lookup_delete_eq. split; [done|left].
           ++ left. by rewrite Hk, lookup_delete_ne.
        -- right. split; [done|by right].
      * intros Hres k Hk. apply elem_of_cons in Hk as [->|Hk]; [|by apply Hok].
        destruct (Hc k0) as [Hk|[Hk _]]; [|done].
        simpl in Hk. by rewrite Hk, lookup_delete_eq.
    + split_and!; auto. intros; discriminate.
Qed.

Lemma issubset_refl r : issubset r r = true.
Proof. unfold issubset. rewrite !andb_true_iff, !Z.leb_le. lia. Qed.

Lemma list_remove_elem r l : r ∈ l → is_Some (list_remove r l).
Proof.
  induction l as [|y l IH]; intros Hin; [by apply elem_of_nil in Hin|]. simpl.
  destruct (decide (y = r)); [eauto|].
  apply elem_of_cons in Hin as [->|Hin]; [done|].
  destruct (IH Hin) as [l' ->]. simpl; eauto.
Qed.

Lemma list_remove_filter (P : CellRange → Prop) `{∀ x, Decision (P x)} r l L :
  filter P l = r :: L →
  ∃ l', list_remove r l = Some l' ∧ filter P l' = L ∧
        filter (λ x, ¬ P x) l' = filter (λ x, ¬ P x) l.
Proof.
  revert L. induction l as [|x l IH]; intros L; [done|].
  rewrite filter_cons. destruct (decide (P x)) as [HP|HP].
  - intros [= -> <-]. simpl. rewrite decide_True by done.
    eexists; split_and!; [done..|]. by rewrite filter_cons_False by tauto.
  - intros HL. destruct (IH _ HL) as (l' & Hr & Hf & Hn).
    assert (x ≠ r) as Hne.
    { intros ->. apply HP.
      assert (r ∈ filter P l) as Hin by (rewrite HL; left).
      by apply list_elem_of_filter in Hin as [? _]. }
    rename Hne into Hxr.
    simpl. rewrite decide_False by done. rewrite Hr. simpl.
    eexists; split_and!; [done|..].
    + by rewrite filter_cons_False.
    + rewrite !filter_cons_True by done. by rewrite Hn.
Qed.

Lemma filter_nil_neg (P : CellRange → Prop) `{∀ x, Decision (P x)} l :
  filter P l = [] → filter (λ x, ¬ P x) l = l.
Proof.
  induction l as [|x l IH]; [done|]. rewrite filter_cons.
  destruct (decide (P x)); [done|]. intros Hl.
  rewrite filter_cons_True by done. by rewrite IH.
Qed.

(** Unmerging a range that is on the list takes it off the list, whether
    or not a cell turns out to be missing afterwards. *)
Lemma unmerge_cells_present r ws l' :
  list_remove r (merged ws) = Some l' →
  merged (exec (unmerge_cells r) ws) = l' ∧
  heights (exec (unmerge_cells r) ws) = heights ws ∧
  (result (unmerge_cells r) ws = Ok tt ∨ result (unmerge_cells r) ws = Raise KeyError) ∧
  (∀ k, cells (exec (unmerge_cells r) ws) !! k = cells ws !! k ∨
        (cells (exec (unmerge_cells r) ws) !! k = None ∧ k ∈ tail (range_cells r))) ∧
  (result (unmerge_cells r) ws = Ok tt →
     ∀ k, k ∈ tail (range_cells r) → cells (exec (unmerge_cells r) ws) !! k = None).
Proof.
  intros Hrem.
  assert (existsb (issubset r) (merged ws) = true) as Hex.
  { apply existsb_exists. exists r. split; [|apply issubset_refl].
    revert l' Hrem. generalize (merged ws).
    intros l; induction l as [|x l IH]; intros l'; [done|].
    simpl. destruct (decide (x = r)) as [->|]; [intros; by left|].
    destruct (list_remove r l) eqn:E; [|done]. intros _. right. eauto. }
  unfold unmerge_cells, exec, result, mbind, M_bind, get_ws; simpl.
  rewrite Hex, Hrem. simpl.
  pose proof (delete_each_spec (tail (range_cells r)) (set_merged (λ _, l') ws)) as Hd.
  unfold exec, result in Hd. simpl in Hd. apply Hd.
Qed.

(** Unmerging a range that is not on the list changes nothing. *)
Lemma unmerge_cells_absent r ws :
  list_remove r (merged ws) = None →
  exec (unmerge_cells r) ws = ws ∧ result (unmerge_cells r) ws = Raise ValueError.
Proof.
  intros Hrem. unfold unmerge_cells, exec, result, mbind, M_bind, get_ws; simpl.
  rewrite Hrem. by destruct (existsb _ _).
Qed.

End primitives.

Lemma bind_ok {A B} (m : M A) (f : A → M B) ws a ws' :
  m ws = (Ok a, ws') → (m ≫= f) ws = f a ws'.
Proof. unfold mbind, M_bind. by intros ->. Qed.

Lemma bind_raise {A B} (m : M A) (f : A → M B) ws e ws' :
  m ws = (Raise e, ws') → (m ≫= f) ws = (Raise e, ws').
Proof. unfold mbind, M_bind. by intros ->. Qed.

Lemma try_pass_run (body : M unit) cls ws :
  (result body ws = Ok tt ∨ ∃ e, result body ws = Raise e ∧ cls e = true) →
  try_except body cls (λ _, mret tt) ws = (Ok tt, exec body ws).
Proof.
  unfold result, exec, try_except. destruct (body ws) as [[[]|e] ws']; simpl; [done|].
  intros [?|(e' & [= ->] & ->)]; done.
Qed.

Lemma try_pass_all (body : M unit) ws :
  try_except body Exception (λ _, mret tt) ws = (Ok tt, exec body ws).
Proof.
  apply try_pass_run. destruct (result body ws) as [[]|e] eqn:E; eauto.
Qed.

Section unmerge_row.
Implicit Types (ws : Worksheet) (k : Z * Z) (r rg : CellRange).

(** The loop of [safely_unmerge_row_cells], started with exactly the
    ranges of the sheet that touch the row still to be unmerged. *)
Lemma unmerge_loop row L ws :
  filter (λ r, touches_row row r) (merged ws) = L →
  let m := for_ L (λ r, try_except (unmerge_cells r) ValueError_KeyError (λ _, mret tt)) in
  result m ws = Ok tt ∧
  merged (exec m ws) = filter (λ r, ¬ touches_row row r) (merged ws) ∧
  heights (exec m ws) = heights ws ∧
  (∀ k, cells (exec m ws) !! k = cells ws !! k ∨
        (cells (exec m ws) !! k = None ∧ ∃ rg, rg ∈ L ∧ k ∈ tail (range_cells rg))).
Proof.
  revert ws. induction L as [|r L IH]; intros ws HL m; subst m.
  - unfold result, exec; simpl. split_and!; auto.
    symmetry. by apply filter_nil_neg.
  - destruct (list_remove_filter _ _ _ _ HL) as (l' & Hrem & Hf & Hn).
    destruct (unmerge_cells_present _ _ _ Hrem) as (Hm & Hh & Hr & Hc & _).
    set (ws1 := exec (unmerge_cells r) ws) in *.
    assert (try_except (unmerge_cells r) ValueError_KeyError (λ _, mret tt) ws = (Ok tt, ws1)) as Hstep.
    { apply try_pass_run. destruct Hr as [Hr|Hr]; [by left|right; eauto]. }
    destruct (IH ws1) as (IHr & IHm & IHh & IHc); [by rewrite Hm|].
    unfold result, exec in *. simpl for_. rewrite (bind_ok _ _ _ _ _ Hstep).
    split_and!; auto.
    + rewrite IHm, Hm. done.
    + congruence.
    + intros k. destruct (IHc k) as [Hk|[Hk (rg & Hrg & Hin)]].
      * destruct (Hc k) as [Hk'|[Hk' Hin]].
        -- left. congruence.
        -- right. split; [congruence|]. exists r. split; [left|done].
      * right. split; [done|]. exists rg. split; [by right|done].
Qed.

(** [safely_unmerge_row_cells] never raises, and afterwards the merged
    ranges are those that did not touch the row, in their old order. *)
Lemma safely_unmerge_spec row ws :
  let ws' := exec (safely_unmerge_row_cells row) ws in
  result (safely_unmerge_row_cells row) ws = Ok tt ∧
  merged ws' = filter (λ r, ¬ touches_row row r) (merged ws) ∧
  heights ws' = heights ws ∧
  (∀ k, cells ws' !! k = cells ws !! k ∨
        (cells ws' !! k = None ∧
         ∃ rg, rg ∈ merged ws ∧ touches_row row rg ∧ k ∈ tail (range_cells rg))).
Proof.
  intros ws'. subst ws'. unfold safely_unmerge_row_cells.
  unfold exec, result. rewrite try_pass_all. simpl.
  unfold exec, mbind, M_bind, get_ws. simpl.
  destruct (unmerge_loop row _ ws eq_refl) as (Hr & Hm & Hh & Hc).
  unfold result, exec in *.
  split_and!; auto.
  intros k. destruct (Hc k) as [?|[? (rg & Hin & ?)]]; [by left|right].
  split; [done|]. apply list_elem_of_filter in Hin as [? ?]. eauto.
Qed.

Lemma safely_unmerge_run row ws :
  safely_unmerge_row_cells row ws = (Ok tt, exec (safely_unmerge_row_cells row) ws).
Proof.
  rewrite (run_eta (safely_unmerge_row_cells row) ws).
  by destruct (safely_unmerge_spec row ws) as [-> _].
Qed.

(** Where no merged range touches the row the call does nothing. *)
Lemma safely_unmerge_noop row ws :
  filter (λ r, touches_row row r) (merged ws) = [] →
  safely_unmerge_row_cells row ws = (Ok tt, ws).
Proof.
  intros Hf. unfold safely_unmerge_row_cells. rewrite try_pass_all. f_equal.
  unfold exec, mbind, M_bind, get_ws. simpl. by rewrite Hf.
Qed.

End unmerge_row.

(** ** Lookups after the cell-level operations *)

Section lookups.
Implicit Types (ws : Worksheet) (k : Z * Z) (rg : CellRange) (m : gmap (Z * Z) Cell).
Implicit Types (r c idx d : Z).

Lemma ensure_cell_lookup k k' m :
  ensure_cell k m !! k' =
  if decide (k = k') then Some (default (Plain PNone default_style) (m !! k)) else m !! k'.
Proof.
  unfold ensure_cell. destruct (m !! k) eqn:E; case_decide; simplify_map_eq; done.
Qed.

Lemma ensure_cell_lookup_ne k k' m : k ≠ k' → ensure_cell k m !! k' = m !! k'.
Proof. intros. rewrite ensure_cell_lookup. by case_decide. Qed.

Lemma insert_all_lookup (ks : list (Z * Z)) (c : Cell) m k :
  insert_all ks c m !! k = if decide (k ∈ ks) then Some c else m !! k.
Proof.
  unfold insert_all. induction ks as [|k0 ks IH]; simpl.
  - done.
  - destruct (decide (k0 = k)) as [->|Hne].
    + rewrite lookup_insert_eq. rewrite decide_True by constructor. done.
    + rewrite lookup_insert_ne by done. rewrite IH.
      destruct (decide (k ∈ ks)) as [Hin|Hin].
      * rewrite decide_True by (by constructor). done.
      * rewrite decide_False; [done|]. intros [->|?]%elem_of_cons; done.
Qed.

Lemma elem_of_range_cells rg r c :
  (r, c) ∈ range_cells rg ↔
  min_row rg ≤ r ≤ max_row rg ∧ min_col rg ≤ c ≤ max_col rg.
Proof.
  unfold range_cells. rewrite list_elem_of_bind. split.
  - intros (row & Hc & Hr). apply list_elem_of_fmap in Hc as (col & [= -> ->] & Hc).
    apply elem_of_seqZ in Hr, Hc. lia.
  - intros [Hr Hc]. exists r. split.
    + apply list_elem_of_fmap. exists c. split; [done|]. apply elem_of_seqZ. lia.
    + apply elem_of_seqZ. lia.
Qed.

Lemma elem_of_tail {A} (x : A) l : x ∈ tail l → x ∈ l.
Proof. destruct l; simpl; [done|]. by right. Qed.

Lemma elem_of_tail_range_cells rg r c :
  (r, c) ∈ tail (range_cells rg) →
  min_row rg ≤ r ≤ max_row rg ∧ min_col rg ≤ c ≤ max_col rg.
Proof. intros H. by apply elem_of_range_cells, elem_of_tail. Qed.

Lemma range_cells_NoDup rg : NoDup (range_cells rg).
Proof.
  unfold range_cells. apply NoDup_bind.
  - intros r1 r2 [r c] _ _ (c1 & [= -> ->] & _)%list_elem_of_fmap
      (c2 & [= -> ->] & _)%list_elem_of_fmap. done.
  - intros r _. apply NoDup_fmap_2; [|apply NoDup_seqZ]. by intros c1 c2 [= ->].
  - apply NoDup_seqZ.
Qed.

(** A range starts with its anchor; the cells after it are the cells of
    the range other than the anchor. *)
Lemma range_cells_anchor rg :
  min_row rg ≤ max_row rg → min_col rg ≤ max_col rg →
  range_cells rg = (min_row rg, min_col rg) :: tail (range_cells rg).
Proof.
  intros Hr Hc. unfold range_cells.
  rewrite (seqZ_cons (min_row rg)) by lia. simpl.
  rewrite (seqZ_cons (min_col rg)) by lia. done.
Qed.

Lemma elem_of_tail_range_cells_iff rg r c :
  (r, c) ∈ tail (range_cells rg) ↔
  (min_row rg ≤ r ≤ max_row rg ∧ min_col rg ≤ c ≤ max_col rg) ∧
  (r, c) ≠ (min_row rg, min_col rg).
Proof.
  split.
  - intros Hin. split; [by apply elem_of_tail_range_cells|].
    apply elem_of_tail_range_cells in Hin as Hb.
    pose proof (range_cells_NoDup rg) as Hnd.
    rewrite range_cells_anchor in Hnd by lia.
    apply NoDup_cons in Hnd as [Hnot _]. intros E. apply Hnot. by rewrite <- E.
  - intros [Hb Hne]. apply elem_of_range_cells in Hb as Hin.
    rewrite range_cells_anchor in Hin by lia.
    apply elem_of_cons in Hin as [?|?]; done.
Qed.

#[global] Instance shift_rows_inj d : Inj (=) (=) (shift_rows d).
Proof. intros [r1 c1] [r2 c2]. unfold shift_rows. simpl. intros [= ? ?]. f_equal; lia. Qed.

Lemma shift_lookup d idx P `{∀ kv : (Z * Z) * Cell, Decision (P kv)} m r c :
  (∀ k x, P (k, x) ↔ idx ≤ k.1) →
  kmap (M2 := gmap (Z * Z)) (shift_rows d) (filter P m) !! (r, c) =
  if decide (idx ≤ r - d) then m !! (r - d, c) else None.
Proof.
  intros HP.
  replace (r, c) with (shift_rows d (r - d, c)) by (unfold shift_rows; simpl; f_equal; lia).
  rewrite lookup_kmap by apply _.
  destruct (m !! (r - d, c)) as [x|] eqn:E.
  - case_decide.
    + apply map_lookup_filter_Some. split; [done|]. by apply HP.
    + apply map_lookup_filter_None. right. intros x' _ HPx. apply HP in HPx. simpl in *. lia.
  - rewrite (proj2 (map_lookup_filter_None _ _ _)); [by case_decide|]. by left.
Qed.

Lemma stay_lookup idx P `{∀ kv : (Z * Z) * Cell, Decision (P kv)} m r c :
  (∀ k x, P (k, x) ↔ k.1 < idx) →
  filter P m !! (r, c) = if decide (r < idx) then m !! (r, c) else None.
Proof.
  intros HP. destruct (m !! (r, c)) as [x|] eqn:E.
  - case_decide.
    + apply map_lookup_filter_Some. split; [done|]. by apply HP.
    + apply map_lookup_filter_None. right. intros x' _ HPx. apply HP in HPx. simpl in *. lia.
  - rewrite (proj2 (map_lookup_filter_None _ _ _)); [by case_decide|]. by left.
Qed.

(** After [insert_rows idx]: the rows above are as they were, row [idx]
    is empty, and a lower row holds what the row above it held. *)
Lemma insert_rows_lookup idx ws r c :
  cells (exec (insert_rows idx) ws) !! (r, c) =
  if decide (r < idx) then cells ws !! (r, c)
  else if decide (r = idx) then None
  else cells ws !! (r - 1, c).
Proof.
  unfold insert_rows, exec, modify. simpl.
  rewrite lookup_union.
  rewrite (shift_lookup 1 idx) by done.
  rewrite (stay_lookup idx) by done.
  destruct (decide (r < idx)) as [Hlt|Hge].
  - rewrite decide_False by lia. simpl. by destruct (cells ws !! (r, c)).
  - destruct (decide (r = idx)) as [->|Hne].
    + rewrite decide_False by lia. done.
    + rewrite decide_True by lia. by destruct (cells ws !! (r - 1, c)).
Qed.

Lemma insert_rows_run idx ws :
  insert_rows idx ws = (Ok tt, exec (insert_rows idx) ws).
Proof. done. Qed.

Lemma insert_rows_merged idx ws : merged (exec (insert_rows idx) ws) = merged ws.
Proof. done. Qed.

End lookups.

(** ** The extent of a sheet and [delete_rows] *)

Section extent.
Implicit Types (ws : Worksheet) (k : Z * Z) (m : gmap (Z * Z) Cell).
Implicit Types (r c idx amount x : Z).

Lemma foldr_max_ge x r (rs : list Z) : x ∈ r :: rs → x ≤ foldr Z.max r rs.
Proof.
  induction rs as [|y rs IH]; simpl.
  - intros ->%list_elem_of_singleton. lia.
  - intros [->|[->|Hin]%elem_of_cons]%elem_of_cons.
    + assert (r ≤ foldr Z.max r rs) by (apply IH; left). lia.
    + lia.
    + assert (x ≤ foldr Z.max r rs) by (apply IH; by right). lia.
Qed.

Lemma foldr_min_le x r (rs : list Z) : x ∈ r :: rs → foldr Z.min r rs ≤ x.
Proof.
  induction rs as [|y rs IH]; simpl.
  - intros ->%list_elem_of_singleton. lia.
  - intros [->|[->|Hin]%elem_of_cons]%elem_of_cons.
    + assert (foldr Z.min r rs ≤ r) by (apply IH; left). lia.
    + lia.
    + assert (foldr Z.min r rs ≤ x) by (apply IH; by right). lia.
Qed.

Lemma foldr_max_elem r (rs : list Z) : foldr Z.max r rs ∈ r :: rs.
Proof.
  induction rs as [|y rs IH]; simpl; [left|].
  destruct (Z.max_spec y (foldr Z.max r rs)) as [[_ ->]|[_ ->]].
  - apply elem_of_cons in IH as [->|?]; [left|right; by right].
  - right; left.
Qed.

Lemma sheet_max_row_ge ws r c : is_Some (cells ws !! (r, c)) → r ≤ sheet_max_row ws.
Proof.
  intros [x Hx]. unfold sheet_max_row.
  assert (r ∈ rows_of ws) as Hin.
  { unfold rows_of. apply list_elem_of_fmap. exists ((r, c), x). split; [done|].
    by apply elem_of_map_to_list. }
  destruct (rows_of ws) as [|r0 rs]; [by apply elem_of_nil in Hin|].
  by apply foldr_max_ge.
Qed.

Lemma sheet_max_row_cases ws :
  sheet_max_row ws = 1 ∨ ∃ c, is_Some (cells ws !! (sheet_max_row ws, c)).
Proof.
  unfold sheet_max_row. destruct (rows_of ws) as [|r0 rs] eqn:E; [by left|right].
  pose proof (foldr_max_elem r0 rs) as Hin. rewrite <- E in Hin.
  unfold rows_of in Hin. apply list_elem_of_fmap in Hin as ([[r c] x] & Hr & Hin).
  simpl in Hr. apply elem_of_map_to_list in Hin. exists c. rewrite Hr. eauto.
Qed.

Lemma column_bounds ws r c :
  is_Some (cells ws !! (r, c)) → min_column ws ≤ c ≤ max_column ws.
Proof.
  intros [x Hx]. unfold min_column, max_column.
  assert (c ∈ cols_of ws) as Hin.
  { unfold cols_of. apply list_elem_of_fmap. exists ((r, c), x). split; [done|].
    by apply elem_of_map_to_list. }
  destruct (cols_of ws) as [|c0 cs]; [by apply elem_of_nil in Hin|].
  split; [by apply foldr_min_le|by apply foldr_max_ge].
Qed.

(** A sheet that lost cells does not reach lower than before. *)
Lemma sheet_max_row_sub ws ws' :
  (∀ k, is_Some (cells ws' !! k) → is_Some (cells ws !! k)) →
  sheet_max_row ws' ≤ Z.max 1 (sheet_max_row ws).
Proof.
  intros Hsub. destruct (sheet_max_row_cases ws') as [->|[c Hc]]; [lia|].
  apply Hsub, sheet_max_row_ge in Hc. lia.
Qed.

Lemma delete_rows_run idx amount ws :
  delete_rows idx amount ws = (Ok tt, exec (delete_rows idx amount) ws).
Proof. done. Qed.

Lemma delete_rows_merged idx amount ws :
  merged (exec (delete_rows idx amount) ws) = merged ws.
Proof. done. Qed.

(** The cells after the move of [delete_rows], before the gutter is
    emptied. *)
Lemma delete_rows_moved_lookup idx amount m r c :
  (kmap (M2 := gmap (Z * Z)) (shift_rows (- amount)) (filter (λ kv, idx + amount ≤ kv.1.1) m)
   ∪ filter (λ kv, kv.1.1 < idx + amount) m) !! (r, c) =
  match (if decide (idx ≤ r) then m !! (r + amount, c) else None) with
  | Some x => Some x
  | None => if decide (r < idx + amount) then m !! (r, c) else None
  end.
Proof.
  rewrite lookup_union.
  rewrite (shift_lookup (- amount) (idx + amount)) by done.
  rewrite (stay_lookup (idx + amount)) by done.
  replace (r - - amount) with (r + amount) by lia.
  destruct (decide (idx ≤ r)).
  - rewrite decide_True by lia. destruct (m !! (r + amount, c)); simpl.
    + by destruct (if decide (r < idx + amount) then _ else _).
    + by destruct (if decide (r < idx + amount) then _ else _).
  - rewrite decide_False by lia. simpl.
    by destruct (if decide (r < idx + amount) then _ else _).
Qed.

(** Rows above the deleted block are untouched. *)
Lemma delete_rows_lookup_above idx amount ws r c :
  0 ≤ amount → r < idx →
  cells (exec (delete_rows idx amount) ws) !! (r, c) = cells ws !! (r, c).
Proof.
  intros Ha Hr. unfold delete_rows, exec, mbind, M_bind, get_ws, modify. simpl.
  destruct (cells ws !! (r, c)) as [x|] eqn:E.
  - apply map_lookup_filter_Some. split.
    + rewrite delete_rows_moved_lookup. rewrite decide_False by lia.
      by rewrite decide_True by lia.
    + simpl. lia.
  - apply map_lookup_filter_None. left.
    rewrite delete_rows_moved_lookup. rewrite decide_False by lia.
    by rewrite decide_True by lia.
Qed.

(** Deleting a block that reaches the sheet's last row leaves nothing
    from its first row down. *)
Lemma delete_rows_to_end idx amount ws r c :
  0 < amount → sheet_max_row ws < idx + amount → idx ≤ r →
  cells (exec (delete_rows idx amount) ws) !! (r, c) = None.
Proof.
  intros Ha Hend Hr. unfold delete_rows, exec, mbind, M_bind, get_ws, modify. simpl.
  set (m1 := kmap _ _ ∪ _).
  set (ws1 := set_cells (λ _, m1) ws).
  assert (∀ r' c', m1 !! (r', c') = cells ws !! (r', c')) as Hm1.
  { intros r' c'. subst m1. rewrite delete_rows_moved_lookup.
    destruct (decide (idx ≤ r')); simpl.
    - assert (cells ws !! (r' + amount, c') = None) as ->.
      { destruct (cells ws !! (r' + amount, c')) eqn:E; [|done].
        assert (r' + amount ≤ sheet_max_row ws) by (eapply sheet_max_row_ge; eauto). lia. }
      case_decide; [done|].
      destruct (cells ws !! (r', c')) eqn:E; [|done].
      assert (r' ≤ sheet_max_row ws) by (eapply sheet_max_row_ge; eauto). lia.
    - case_decide; [done|]. lia. }
  apply map_lookup_filter_None.
  destruct (m1 !! (r, c)) as [x|] eqn:E; [right|by left].
  intros x' Hx'. simpl. intros Hneg. apply Hneg.
  assert (r ≤ sheet_max_row ws).
  { eapply sheet_max_row_ge. rewrite <- Hm1. eauto. }
  assert (min_column ws1 ≤ c ≤ max_column ws1).
  { eapply column_bounds. subst ws1. simpl. eauto. }
  split; [lia|done].
Qed.

End extent.

Lemma list_remove_Some (r : CellRange) l l' :
  list_remove r l = Some l' →
  r ∈ l ∧ ∀ x, (x ∈ l' → x ∈ l) ∧ (x ∈ l → x = r ∨ x ∈ l').
Proof.
  revert l'. induction l as [|y l IH]; intros l'; [done|]. simpl.
  destruct (decide (y = r)) as [->|Hne].
  - intros [= ->]. split; [left|]. intros x. split; [by right|].
    intros [->|?]%elem_of_cons; auto.
  - destruct (list_remove r l) as [l0|] eqn:E; [|done]. intros [= <-].
    destruct (IH _ eq_refl) as [Hin Hl0]. split; [by right|]. intros x. split.
    + intros [->|?]%elem_of_cons; [left|right; by apply Hl0].
    + intros [->|Hx]%elem_of_cons; [right; left|].
      destruct (proj2 (Hl0 x) Hx); [by left|right; by right].
Qed.

(** ** Changes confined to the lower rows *)

Section confined.
Implicit Types (ws : Worksheet) (k : Z * Z) (rg : CellRange) (R r c row col : Z).

Lemma cb_refl R ws : changes_below R ws ws.
Proof. split_and!; auto. Qed.

Lemma cb_trans R ws1 ws2 ws3 :
  changes_below R ws1 ws2 → changes_below R ws2 ws3 → changes_below R ws1 ws3.
Proof.
  intros (Hc1 & Hn1 & Hk1) (Hc2 & Hn2 & Hk2). split_and!.
  - intros r c Hr.
    destruct (Hc2 r c Hr) as [E2|[E2 (rg & Hin & Hmax & Hcov)]].
    + rewrite E2. apply Hc1, Hr.
    + right. split; [done|].
      destruct (Hn1 rg Hin) as [Hin1|Hmin]; [eauto|].
      apply elem_of_tail_range_cells in Hcov. lia.
  - intros rg Hin. destruct (Hn2 rg Hin) as [Hin2|?]; [|by right]. by apply Hn1.
  - intros rg Hin Hmax. apply Hk2, Hmax. by apply Hk1.
Qed.

Lemma cb_set_heights R f ws : changes_below R ws (set_heights f ws).
Proof. split_and!; auto. Qed.

Lemma cb_set_cells R f ws :
  (∀ r c, r < R → f (cells ws) !! (r, c) = cells ws !! (r, c)) →
  changes_below R ws (set_cells f ws).
Proof. intros H. split_and!; simpl; auto. Qed.

End confined.

#[global] Instance changes_below_preorder R : PreOrder (changes_below R).
Proof. split; [intros ws; apply cb_refl|intros ? ? ?; apply cb_trans]. Qed.

Section respects.
Context (Rel : relation Worksheet) `{!PreOrder Rel}.

Lemma respects_pure {A} (m : M A) : (∀ ws, exec m ws = ws) → respects Rel m.
Proof. intros H ws. by rewrite H. Qed.

Lemma respects_ret {A} (a : A) : respects Rel (mret a).
Proof. by apply respects_pure. Qed.

Lemma respects_raise {A} e : respects Rel (raise (A := A) e).
Proof. by apply respects_pure. Qed.

Lemma respects_lift {A} (x : Res A) : respects Rel (lift x).
Proof. by apply respects_pure. Qed.

Lemma respects_get_ws : respects Rel get_ws.
Proof. by apply respects_pure. Qed.

Lemma respects_bind_post {A B} (P : A → Prop) (m : M A) (f : A → M B) :
  (∀ ws a, result m ws = Ok a → P a) →
  respects Rel m → (∀ a, P a → respects Rel (f a)) → respects Rel (m ≫= f).
Proof.
  intros HP Hm Hf ws. specialize (Hm ws). specialize (HP ws).
  unfold exec, result, mbind, M_bind in *.
  destruct (m ws) as [[a|e] ws1]; simpl in *; [|done].
  etrans; [done|]. apply (Hf a); auto.
Qed.

Lemma respects_bind {A B} (m : M A) (f : A → M B) :
  respects Rel m → (∀ a, respects Rel (f a)) → respects Rel (m ≫= f).
Proof. intros Hm Hf. apply (respects_bind_post (λ _, True)); auto. Qed.

Lemma respects_try {A} (body : M A) cls h :
  respects Rel body → (∀ e, respects Rel (h e)) → respects Rel (try_except body cls h).
Proof.
  intros Hm Hh ws. specialize (Hm ws). unfold exec, try_except in *.
  destruct (body ws) as [[a|e] ws1]; simpl in *; [done|].
  destruct (cls e); [|done]. etrans; [done|]. apply (Hh e ws1).
Qed.

Lemma respects_for {A} (l : list A) body :
  (∀ x, x ∈ l → respects Rel (body x)) → respects Rel (for_ l body).
Proof.
  induction l as [|x l IH]; intros Hb; simpl.
  - apply respects_ret.
  - apply respects_bind; [apply Hb; left|]. intros _. apply IH. intros; apply Hb; by right.
Qed.

Lemma respects_for_break {A} (l : list A) body :
  (∀ x, x ∈ l → respects Rel (body x)) → respects Rel (for_break l body).
Proof.
  induction l as [|x l IH]; intros Hb; simpl.
  - apply respects_ret.
  - apply respects_bind; [apply Hb; left|]. intros [|]; [apply respects_ret|].
    apply IH. intros; apply Hb; by right.
Qed.

Lemma respects_reads :
  (∀ k, respects Rel (isinstance_MergedCell k)) ∧ (∀ k, respects Rel (has_style k)) ∧
  (∀ k, respects Rel (style_of k)) ∧ (∀ row, respects Rel (get_height row)) ∧
  respects Rel ws_max_row.
Proof. split_and!; intros; by apply respects_pure. Qed.

Lemma _get_cell_result row col ws a :
  result (_get_cell row col) ws = Ok a → a = (row, col).
Proof. unfold result, _get_cell, mbind, M_bind, modify; simpl. congruence. Qed.

Lemma cell_result row col v ws a :
  result (cell row col v) ws = Ok a → a = (row, col).
Proof.
  unfold result, cell. destruct (_ || _); [done|].
  unfold mbind, M_bind, _get_cell, modify; simpl.
  destruct v; simpl; try congruence;
    match goal with |- context [set_value ?k ?v ?w] =>
      destruct (set_value k v w) as [[[]|e] w']; simpl; congruence end.
Qed.

Lemma respects_bind__get_cell {B} row col (f : Z * Z → M B) :
  respects Rel (_get_cell row col) → respects Rel (f (row, col)) →
  respects Rel (_get_cell row col ≫= f).
Proof.
  intros Hc Hf. apply (respects_bind_post (λ a, a = (row, col))); [|done|by intros a ->].
  apply _get_cell_result.
Qed.

Lemma respects_bind_cell {B} row col v (f : Z * Z → M B) :
  respects Rel (cell row col v) → respects Rel (f (row, col)) →
  respects Rel (cell row col v ≫= f).
Proof.
  intros Hc Hf. apply (respects_bind_post (λ a, a = (row, col))); [|done|by intros a ->].
  apply cell_result.
Qed.

(** [ws.cell] and [ws[...] = v] respect whatever the creation of the
    cell and the writes to it respect. *)
Lemma respects_cell row col v :
  respects Rel (_get_cell row col) → (∀ v', respects Rel (set_value (row, col) v')) →
  respects Rel (cell row col v).
Proof.
  intros Hg Hs. unfold cell. destruct (_ || _); [apply respects_raise|].
  apply respects_bind__get_cell; [done|].
  apply respects_bind; [|intros; apply respects_ret].
  destruct v; try apply respects_ret; apply Hs.
Qed.

Lemma respects_setitem row col v :
  respects Rel (_get_cell row col) → (∀ v', respects Rel (set_value (row, col) v')) →
  respects Rel (setitem row col v).
Proof. intros Hg Hs. apply respects_bind__get_cell; [done|]. apply Hs. Qed.

End respects.

(** The rules above are applied with their preorder found by instance
    search. *)
Tactic Notation "rule" uconstr(l) := (apply l; [apply _|..]).

Section confined_calls.
Implicit Types (ws : Worksheet) (k : Z * Z) (rg : CellRange) (R r c row col : Z).


Lemma confined_set_height R row h : confined R (set_height row h).
Proof. intros ws. apply cb_set_heights. Qed.

Lemma confined__get_cell R row col : R ≤ row → confined R (_get_cell row col).
Proof.
  intros HR ws. apply cb_set_cells. intros r c Hr.
  apply ensure_cell_lookup_ne. intros [= ? ?]. lia.
Qed.

Lemma confined_set_value R k v : R ≤ k.1 → confined R (set_value k v).
Proof.
  intros HR ws. unfold exec, set_value.
  destruct (cells ws !! k) as [[v0 st|st]|]; simpl; try apply cb_refl.
  destruct (storable v); simpl; [|apply cb_refl].
  apply cb_set_cells. intros r c Hr. apply lookup_insert_ne. intros ->. simpl in *. lia.
Qed.

Lemma confined_set_style R k f : R ≤ k.1 → confined R (set_style k f).
Proof.
  intros HR ws. apply cb_set_cells. intros r c Hr.
  apply lookup_alter_ne. intros ->. simpl in *. lia.
Qed.

Lemma confined_cell R row col v : R ≤ row → confined R (cell row col v).
Proof.
  intros. rule respects_cell; [by apply confined__get_cell|].
  intros. by apply confined_set_value.
Qed.

Lemma confined_setitem R row col v : R ≤ row → confined R (setitem row col v).
Proof.
  intros. rule respects_setitem; [by apply confined__get_cell|].
  intros. by apply confined_set_value.
Qed.

Lemma confined_insert_rows R idx : R ≤ idx → confined R (insert_rows idx).
Proof.
  intros HR ws. split_and!; [|by rewrite insert_rows_merged; auto..].
  intros r c Hr. left. rewrite insert_rows_lookup. by rewrite decide_True by lia.
Qed.

Lemma confined_delete_rows R idx amount :
  R ≤ idx → 0 ≤ amount → confined R (delete_rows idx amount).
Proof.
  intros HR Ha ws. split_and!; [|by rewrite delete_rows_merged; auto..].
  intros r c Hr. left. apply delete_rows_lookup_above; lia.
Qed.

Lemma confined_merge_cells R rg : R ≤ min_row rg → confined R (merge_cells rg).
Proof.
  intros HR. unfold merge_cells. destruct (valid_range rg); [|rule respects_raise].
  rule respects_bind; [by apply confined__get_cell|]. intros _.
  rule respects_bind; intros; cycle 1.
  - intros ws. apply cb_set_cells. intros r c Hr. rewrite insert_all_lookup.
    rewrite decide_False; [done|]. intros Hin%elem_of_tail_range_cells. lia.
  - intros ws. unfold exec, modify; simpl. split_and!; simpl; auto.
    + intros rg'. case_decide; [by left|]. intros [?|Hs%list_elem_of_singleton]%elem_of_app; subst; auto.
    + intros rg' Hin _. case_decide; [done|]. apply elem_of_app; by left.
Qed.

Lemma confined_unmerge_cells R rg : R ≤ max_row rg → confined R (unmerge_cells rg).
Proof.
  intros HR ws. destruct (list_remove rg (merged ws)) as [l'|] eqn:Hrem.
  - destruct (unmerge_cells_present _ _ _ Hrem) as (Hm & _ & _ & Hc & _).
    destruct (list_remove_Some _ _ _ Hrem) as [Hin Hl'].
    split_and!.
    + intros r c Hr. destruct (Hc (r, c)) as [?|[? ?]]; [by left|right]. eauto.
    + rewrite Hm. intros x Hx. left. by apply Hl'.
    + rewrite Hm. intros x Hx Hmax. destruct (proj2 (Hl' x) Hx) as [->|?]; [lia|done].
  - destruct (unmerge_cells_absent _ _ Hrem) as [-> _]. apply cb_refl.
Qed.

Lemma touches_row_spec row rg :
  touches_row row rg ↔ min_row rg ≤ row ≤ max_row rg.
Proof.
  unfold touches_row. rewrite andb_True, !Is_true_true, !Z.leb_le. done.
Qed.

Lemma confined_safely_unmerge R row : R ≤ row → confined R (safely_unmerge_row_cells row).
Proof.
  intros HR. unfold safely_unmerge_row_cells.
  rule respects_try; [|intros; rule respects_ret].
  rule respects_bind; [rule respects_get_ws|]. intros ws0.
  rule respects_for. intros rg [Ht _]%list_elem_of_filter.
  apply touches_row_spec in Ht.
  rule respects_try; [|intros; rule respects_ret].
  apply confined_unmerge_cells. lia.
Qed.

End confined_calls.

(** One step of the routine proofs that a function respects a relation:
    the structure of the code is followed, and [respect_prim] settles
    the library calls and the functions already done. *)
Ltac respect_prim :=
  lazymatch goal with
  | |- confined _ (set_height _ _) => apply confined_set_height
  | |- confined _ (safely_unmerge_row_cells _) => apply confined_safely_unmerge; lia
  | |- confined _ (_get_cell _ _) => apply confined__get_cell; lia
  | |- confined _ (cell _ _ _) => apply confined_cell; lia
  | |- confined _ (setitem _ _ _) => apply confined_setitem; lia
  | |- confined _ (set_value _ _) => apply confined_set_value; simpl; lia
  | |- confined _ (set_style _ _) => apply confined_set_style; simpl; lia
  | |- confined _ (insert_rows _) => apply confined_insert_rows; lia
  | |- confined _ (merge_cells _) => apply confined_merge_cells; simpl; lia
  end.
Ltac respect_step :=
  lazymatch goal with
  | |- respects _ (mret _) => rule respects_ret
  | |- respects _ (raise _) => rule respects_raise
  | |- respects _ (lift _) => rule respects_lift
  | |- respects _ get_ws => rule respects_get_ws
  | |- respects _ (isinstance_MergedCell _) => rule respects_reads
  | |- respects _ (has_style _) => rule respects_reads
  | |- respects _ (style_of _) => rule respects_reads
  | |- respects _ (get_height _) => rule respects_reads
  | |- respects _ ws_max_row => rule respects_reads
  | |- respects _ (cell _ _ _ ≫= _) => rule respects_bind_cell; [respect_prim|]
  | |- respects _ (_get_cell _ _ ≫= _) => rule respects_bind__get_cell; [respect_prim|]
  | |- respects _ (try_except _ _ _) => rule respects_try; [|intros ?]
  | |- respects _ (for_ (seqZ _ _) _) => rule respects_for; intros ? ?%elem_of_seqZ
  | |- respects _ (_ ≫= _) => rule respects_bind; [|intros ?]
  | |- respects _ (if ?b then _ else _) => destruct b
  | |- respects _ (match ?v with PNone => _ | _ => _ end) => destruct v
  | |- _ => respect_prim
  end.
Ltac respect := repeat respect_step.

Section confined_functions.
Implicit Types (R row last : Z).

Lemma confined_copy_row_format R src tgt :
  R ≤ src → R ≤ tgt → confined R (copy_row_format src tgt).
Proof. intros. unfold copy_row_format. respect. Qed.


Lemma confined_prepare_product_rows R n : R ≤ 13 → confined R (prepare_product_rows n).
Proof.
  intros. unfold prepare_product_rows. respect.
  apply confined_copy_row_format; lia.
Qed.

Lemma confined_set_product_data R row product :
  R ≤ row → confined R (set_product_data row product).
Proof. intros. unfold set_product_data. respect. Qed.

Lemma enumerate_elem k (l : list PyVal) ip : ip ∈ enumerate k l → k ≤ ip.1.
Proof.
  revert k. induction l as [|x l IH]; intros k; simpl; [by intros ?%elem_of_nil|].
  intros [->|Hin]%elem_of_cons; [simpl; lia|]. apply IH in Hin. lia.
Qed.

Lemma confined_unmerge_if_present R rg : R ≤ max_row rg → confined R (Main.unmerge_if_present rg).
Proof.
  intros. unfold Main.unmerge_if_present.
  rule respects_bind; [rule respects_get_ws|]. intros ws0.
  rule respects_for_break. intros x _. case_decide; [|rule respects_ret].
  rule respects_bind; [|intros; rule respects_ret].
  rule respects_try; [|intros; rule respects_ret].
  by apply confined_unmerge_cells.
Qed.

Lemma confined_recreate R t : R ≤ t → confined R (Main._recreate_expedicia_section t).
Proof.
  intros. unfold Main._recreate_expedicia_section, Main.clear_cell.
  rule respects_bind; [apply confined_unmerge_if_present; simpl; lia|]. intros _.
  respect.
Qed.

Lemma confined_clean_extra_rows R last : R ≤ last + 1 → confined R (Processor.clean_extra_rows last).
Proof.
  intros. unfold Processor.clean_extra_rows.
  rule respects_bind; [rule respects_reads|]. intros mr.
  destruct (last <? mr) eqn:E; [|rule respects_ret]. apply Z.ltb_lt in E.
  rule respects_bind; [respect|]. intros _.
  destruct (0 <? mr - last); [|rule respects_ret].
  rule respects_try; [|intros; rule respects_ret].
  apply confined_delete_rows; lia.
Qed.

Lemma confined_add_additional_rows R last :
  R ≤ last + 1 → confined R (Processor.add_additional_rows last).
Proof.
  intros. unfold Processor.add_additional_rows, Processor.add_row, Processor.blank_row.
  respect.
Qed.

Lemma confined_format_expedition_row R last :
  R ≤ last + 2 → confined R (Processor.format_expedition_row last).
Proof. intros. unfold Processor.format_expedition_row. respect. Qed.

Lemma confined_format_palette_info_row R last :
  R ≤ last + 3 → confined R (Processor.format_palette_info_row last).
Proof. intros. unfold Processor.format_palette_info_row. respect. Qed.

Lemma confined_format_final_rows R last :
  R ≤ last + 4 → confined R (Processor.format_final_rows last).
Proof. intros. unfold Processor.format_final_rows. respect. Qed.

Lemma confined_format_footer_rows R last :
  R ≤ last + 8 → confined R (Processor.format_footer_rows last).
Proof. intros. unfold Processor.format_footer_rows. respect. Qed.

Lemma confined_render_trailing_block R last :
  R ≤ last + 1 → confined R (Processor.render_trailing_block last).
Proof.
  intros. unfold Processor.render_trailing_block.
  rule respects_bind; [apply confined_add_additional_rows; lia|]. intros _.
  rule respects_bind; [apply confined_format_expedition_row; lia|]. intros _.
  rule respects_bind; [apply confined_format_palette_info_row; lia|]. intros _.
  rule respects_bind; [apply confined_format_final_rows; lia|]. intros _.
  apply confined_format_footer_rows; lia.
Qed.

End confined_functions.

(** ** Functions that never raise *)

Lemma total_safely_unmerge row : total (safely_unmerge_row_cells row).
Proof. apply total_try_except. intros; apply total_ret. Qed.

Lemma total_copy_row_format src tgt : total (copy_row_format src tgt).
Proof. apply total_try_except. intros; apply total_ret. Qed.

Lemma total_prepare_product_rows n : total (prepare_product_rows n).
Proof.
  unfold prepare_product_rows. destruct (n <=? 2); [apply total_ret|].
  apply total_for. intros i. apply total_try_except. intros; apply total_ret.
Qed.

Lemma total_set_product_data row product : total (set_product_data row product).
Proof. apply total_try_except. intros; apply total_ret. Qed.

Lemma total_add_additional_rows last : total (Processor.add_additional_rows last).
Proof. apply total_try_except. intros; apply total_ret. Qed.

Lemma total_format_expedition_row last : total (Processor.format_expedition_row last).
Proof. apply total_try_except. intros; apply total_ret. Qed.

Lemma total_format_palette_info_row last : total (Processor.format_palette_info_row last).
Proof. apply total_try_except. intros; apply total_ret. Qed.

Lemma total_format_final_rows last : total (Processor.format_final_rows last).
Proof. apply total_try_except. intros; apply total_ret. Qed.

Lemma total_format_footer_rows last : total (Processor.format_footer_rows last).
Proof. apply total_try_except. intros; apply total_ret. Qed.

Lemma total_clean_extra_rows last : total (Processor.clean_extra_rows last).
Proof.
  unfold Processor.clean_extra_rows. apply total_bind.
  { intros ws. by eexists. }
  intros mr. destruct (last <? mr); [|apply total_ret].
  apply total_bind.
  - apply total_for. intros; apply total_safely_unmerge.
  - intros _. destruct (0 <? mr - last); [|apply total_ret].
    apply total_try_except. intros; apply total_ret.
Qed.

Lemma total_render_trailing_block last : total (Processor.render_trailing_block last).
Proof.
  unfold Processor.render_trailing_block.
  apply total_bind; [apply total_add_additional_rows|]. intros _.
  apply total_bind; [apply total_format_expedition_row|]. intros _.
  apply total_bind; [apply total_format_palette_info_row|]. intros _.
  apply total_bind; [apply total_format_final_rows|]. intros _.
  apply total_format_footer_rows.
Qed.

Lemma total_main_map_data_to_excel data : total (Main.map_data_to_excel data).
Proof. apply total_try_except. intros; apply total_ret. Qed.

Lemma total_processor_map_data_to_excel data : total (Processor.map_data_to_excel data).
Proof. apply total_try_except. intros; apply total_ret. Qed.

(** ** The frame of a write *)

#[global] Instance same_outside_preorder S : PreOrder (same_outside S).
Proof.
  split.
  - intros ws. by split_and!.
  - intros ws1 ws2 ws3 (Hc1 & Hm1 & Hh1) (Hc2 & Hm2 & Hh2). split_and!; [|congruence..].
    intros k Hk. rewrite Hc2, Hc1; auto.
Qed.

Section frame.
Context (S : Z * Z → Prop).

Lemma so__get_cell row col : S (row, col) → respects (same_outside S) (_get_cell row col).
Proof.
  intros HS ws. split_and!; [|done..]. intros k Hk. simpl.
  apply ensure_cell_lookup_ne. intros E. apply Hk. by rewrite <- E.
Qed.

Lemma so_set_value k v : S k → respects (same_outside S) (set_value k v).
Proof.
  intros HS ws. unfold exec, set_value.
  destruct (cells ws !! k) as [[v0 st|st]|]; simpl; try reflexivity.
  destruct (storable v); simpl; [|reflexivity].
  split_and!; [|done..]. intros k' Hk'. simpl. apply lookup_insert_ne.
  intros E. apply Hk'. by rewrite <- E.
Qed.

Lemma so_set_style k f : S k → respects (same_outside S) (set_style k f).
Proof.
  intros HS ws. split_and!; [|done..]. intros k' Hk'. simpl.
  apply lookup_alter_ne. intros E. apply Hk'. by rewrite <- E.
Qed.

Lemma so_cell row col v : S (row, col) → respects (same_outside S) (cell row col v).
Proof.
  intros. rule respects_cell; [by apply so__get_cell|]. intros. by apply so_set_value.
Qed.

End frame.

Ltac respect_prim ::=
  lazymatch goal with
  | |- confined _ (set_height _ _) => apply confined_set_height
  | |- confined _ (safely_unmerge_row_cells _) => apply confined_safely_unmerge; lia
  | |- confined _ (_get_cell _ _) => apply confined__get_cell; lia
  | |- confined _ (cell _ _ _) => apply confined_cell; lia
  | |- confined _ (setitem _ _ _) => apply confined_setitem; lia
  | |- confined _ (set_value _ _) => apply confined_set_value; simpl; lia
  | |- confined _ (set_style _ _) => apply confined_set_style; simpl; lia
  | |- confined _ (insert_rows _) => apply confined_insert_rows; lia
  | |- confined _ (merge_cells _) => apply confined_merge_cells; simpl; lia
  | |- respects (same_outside _) (cell _ _ _) =>
      apply so_cell; simpl; split; [done|repeat constructor]
  end.

(** After the merges are dissolved, [set_product_data] writes to columns
    1, 2, 3, 5, 6, 7, 8, 9 and 10 of its row and to nothing else. *)
Lemma set_product_data_frame row product ws :
  same_outside (λ k, k.1 = row ∧ k.2 ∈ item_columns)
    (exec (safely_unmerge_row_cells row) ws) (exec (set_product_data row product) ws).
Proof.
  unfold set_product_data. rewrite exec_try_pass.
  rewrite (exec_bind _ _ _ tt) by (by destruct (safely_unmerge_spec row ws) as [? _]).
  generalize (exec (safely_unmerge_row_cells row) ws).
  match goal with |- ∀ w, ?Rel w (exec ?m w) => change (respects Rel m) end.
  unfold item_columns. respect.
Qed.

(** ** Splitting and joining the requirements text *)

Lemma split_nonempty sep s : split sep s ≠ [].
Proof.
  destruct s as [|c s]; simpl; [done|].
  destruct (Ascii.eqb c sep); [done|]. by destruct (split sep s).
Qed.

Lemma join_cons_cons sep x y l :
  join sep (x :: y :: l) = x +:+ String sep (join sep (y :: l)).
Proof. done. Qed.

(** Rejoining what [split] produced gives the text back. *)
Lemma join_split sep s : join sep (split sep s) = s.
Proof.
  induction s as [|c s IH]; simpl; [done|].
  destruct (Ascii.eqb c sep) eqn:E.
  - apply Ascii.eqb_eq in E as ->.
    destruct (split sep s) as [|h t] eqn:Hs; [by apply split_nonempty in Hs|].
    rewrite join_cons_cons, IH. done.
  - destruct (split sep s) as [|h t] eqn:Hs; [by apply split_nonempty in Hs|].
    destruct t as [|y t]; simpl in *; [by rewrite IH|].
    by rewrite <- IH.
Qed.

(** ** Straight-line runs: the header fields and the requirements box *)

Section runs.
Implicit Types (ws : Worksheet) (k : Z * Z) (v : PyVal) (row col : Z).

Lemma setitem_run row col v ws :
  placeholder ws (row, col) = false → storable v = true →
  setitem row col v ws = (Ok tt, write_cell (row, col) v ws).
Proof.
  unfold write_cell, placeholder, style_at, setitem, _get_cell, set_value.
  unfold mbind, M_bind, modify, mret, M_ret.
  intros Hp Hv. simpl. rewrite ensure_cell_lookup, decide_True by done.
  unfold set_cells; simpl.
  destruct (cells ws !! (row, col)) as [[v0 st|st]|] eqn:E; simpl in *; try done.
  - rewrite Hv. simpl. do 2 f_equal. unfold ensure_cell. by rewrite E.
  - rewrite Hv. simpl. do 2 f_equal. unfold ensure_cell. rewrite E.
    by rewrite insert_insert_eq.
Qed.

Lemma placeholder_write_cell ws k k' v :
  placeholder (write_cell k v ws) k' =
  if decide (k = k') then false else placeholder ws k'.
Proof.
  unfold placeholder, write_cell. simpl. case_decide as E.
  - subst. by rewrite lookup_insert_eq.
  - by rewrite lookup_insert_ne.
Qed.

Lemma write_cell_lookup ws k k' v :
  cells (write_cell k v ws) !! k' =
  if decide (k = k') then Some (Plain v (style_at ws k)) else cells ws !! k'.
Proof.
  unfold write_cell. simpl. case_decide as E.
  - subst. by rewrite lookup_insert_eq.
  - by rewrite lookup_insert_ne.
Qed.

Lemma scalar_field_storable d key :
  scalar_field d key = true → storable (field d key) = true.
Proof. unfold scalar_field, field. by destruct (assoc key d). Qed.

(** The clauses of the requirements text of an order record. *)
Lemma requirements_clauses d reqs :
  requirements_of d = Some reqs →
  (let specific_reqs := field d "Specific order requirements" in
   if truthy specific_reqs then str_split specific_reqs else Ok [EmptyString])
  = Ok (split newline reqs).
Proof.
  unfold requirements_of, field. simpl.
  destruct (assoc _ d) as [[| s | | | |]|]; simpl; try done; intros [= <-]; try done.
  destruct s; done.
Qed.

Lemma get_field d key : get (PDict d) key (PStr "") = Ok (field d key).
Proof. done. Qed.

(** With the header cells ordinary and the header values scalars, the
    first part of the assembler runs through. *)
Lemma write_header_fields_run d reqs ws :
  scalar_field d "Client Name" = true →
  scalar_field d "Order Number" = true →
  scalar_field d "Foil" = true →
  scalar_field d "Return of Bulk Containers" = true →
  scalar_field d "Microbiological Analysis" = true →
  requirements_of d = Some reqs →
  (∀ r, 3 ≤ r ≤ 7 → placeholder ws (r, 3) = false) →
  write_header_fields (PDict d) ws = (Ok (split newline reqs), header_fields_written d ws).
Proof.
  intros H1 H2 H3 H4 H5 Hr Hp. unfold write_header_fields, header_fields_written.
  rewrite !get_field.
  repeat (erewrite (bind_ok (lift (Ok _))) by reflexivity;
          erewrite (bind_ok (setitem _ _ _));
          [|apply setitem_run;
            [rewrite ?placeholder_write_cell; repeat case_decide; try done; apply Hp; lia
            |by apply scalar_field_storable]]).
  erewrite (bind_ok (lift (Ok _))) by reflexivity.
  pose proof (requirements_clauses d reqs Hr) as Hc. simpl in Hc.
  destruct (truthy _); unfold lift, mret, M_ret; by rewrite ?Hc; simplify_eq.
Qed.

Lemma merge_cells_run rg ws :
  valid_range rg = true → merge_cells rg ws = (Ok tt, merge_done rg ws).
Proof. intros Hv. unfold merge_cells. rewrite Hv. reflexivity. Qed.

Lemma merge_done_lookup rg ws k :
  cells (merge_done rg ws) !! k =
  if decide (k ∈ tail (range_cells rg)) then Some (MergedCell default_style)
  else if decide (k = (min_row rg, min_col rg))
       then Some (default (Plain PNone default_style) (cells ws !! k))
       else cells ws !! k.
Proof.
  unfold merge_done. cbn [cells]. rewrite insert_all_lookup.
  case_decide; [done|]. rewrite ensure_cell_lookup.
  repeat case_decide; by simplify_eq.
Qed.

Lemma set_value_run k v v0 st ws :
  cells ws !! k = Some (Plain v0 st) → storable v = true →
  set_value k v ws = (Ok tt, set_cells <[k := Plain v st]> ws).
Proof. intros Hk Hv. unfold set_value. by rewrite Hk, Hv. Qed.

Lemma for_set_height_run (l : list Z) h ws :
  ∃ hs, for_ l (λ row, set_height row h) ws = (Ok tt, set_heights (λ _, hs) ws).
Proof.
  revert ws. induction l as [|x l IH]; intros ws.
  - exists (heights ws). by destruct ws.
  - destruct (IH (set_heights <[x := h]> ws)) as [hs Hhs]. exists hs.
    cbn [for_]. erewrite bind_ok by reflexivity. by rewrite Hhs.
Qed.

Lemma box_anchor_not_in_tail : (4, 9) ∉ tail (range_cells reqs_box).
Proof. intros [_ Hne]%elem_of_tail_range_cells_iff. by apply Hne. Qed.

(** With I4 an ordinary cell, the requirements box is merged and its
    anchor receives the joined clauses, with wrapping on. *)
Lemma fill_requirements_box_run cl ws :
  placeholder ws (4, 9) = false →
  ∃ ws', fill_requirements_box cl ws = (Ok tt, ws') ∧
    (∃ st, cells ws' !! (4, 9) = Some (Plain (PStr (join newline cl)) st) ∧
           wrapText (alignment st) = true) ∧
    merged ws' = (if decide (reqs_box ∈ merged ws) then merged ws
                  else merged ws ++ [reqs_box]) ∧
    (∀ k, k ∉ range_cells reqs_box → cells ws' !! k = cells ws !! k) ∧
    (∀ k, k ∈ tail (range_cells reqs_box) → cells ws' !! k = Some (MergedCell default_style)).
Proof.
  intros Hp. unfold fill_requirements_box.
  rewrite (bind_ok _ _ _ _ _ (merge_cells_run reqs_box ws eq_refl)).
  set (ws1 := merge_done reqs_box ws).
  assert (∃ v0 st0, cells ws1 !! (4, 9) = Some (Plain v0 st0)) as (v0 & st0 & H49).
  { subst ws1. rewrite merge_done_lookup.
    rewrite decide_False by apply box_anchor_not_in_tail.
    rewrite decide_True by done. unfold placeholder in Hp.
    destruct (cells ws !! (4, 9)) as [[v0 st0|?]|]; simpl in *; eauto; done. }
  erewrite (bind_ok (_get_cell 4 9)) by reflexivity.
  set (ws2 := set_cells (ensure_cell (4, 9)) ws1).
  assert (cells ws2 = cells ws1) as Hc2.
  { subst ws2. cbn [set_cells cells]. unfold ensure_cell. by rewrite H49. }
  erewrite (bind_ok (set_value _ _)); cycle 1.
  { eapply set_value_run; [by rewrite Hc2|done]. }
  erewrite (bind_ok (set_style _ _)) by reflexivity.
  match goal with |- context [for_ ?l _ ?w] =>
    destruct (for_set_height_run l (Some 20) w) as [hs ->] end.
  eexists. split; [done|].
  cbn [set_heights set_cells cells merged]. rewrite Hc2.
  split_and!.
  - rewrite lookup_alter_eq, lookup_insert_eq. simpl. eauto.
  - done.
  - intros [r c] Hk. rewrite lookup_alter_ne, lookup_insert_ne; cycle 1.
    { intros [= <- <-]. apply Hk, elem_of_range_cells. cbn. lia. }
    { intros [= <- <-]. apply Hk, elem_of_range_cells. cbn. lia. }
    subst ws1. rewrite merge_done_lookup.
    rewrite decide_False by (intros ?%elem_of_tail; done).
    rewrite decide_False; [done|]. intros [= -> ->]. apply Hk, elem_of_range_cells. cbn; lia.
  - intros k Hk. assert (k ≠ (4, 9)) by (intros ->; by apply box_anchor_not_in_tail).
    rewrite lookup_alter_ne, lookup_insert_ne by done.
    subst ws1. rewrite merge_done_lookup. by rewrite decide_True.
Qed.

End runs.

(** ** Dissolving only removes *)

#[global] Instance dissolves_preorder : PreOrder dissolves.
Proof.
  split.
  - intros ws. split; auto.
  - intros ws1 ws2 ws3 [Hc1 Hm1] [Hc2 Hm2]. split; [|auto].
    intros k. destruct (Hc2 k) as [-> | ->]; auto.
Qed.

Lemma dissolves_unmerge_cells rg : respects dissolves (unmerge_cells rg).
Proof.
  intros ws. destruct (list_remove rg (merged ws)) as [l'|] eqn:Hrem.
  - destruct (unmerge_cells_present _ _ _ Hrem) as (Hm & _ & _ & Hc & _).
    destruct (list_remove_Some _ _ _ Hrem) as [_ Hl']. split.
    + intros k. destruct (Hc k) as [?|[? _]]; auto.
    + rewrite Hm. intros x Hx. by apply Hl'.
  - destruct (unmerge_cells_absent _ _ Hrem) as [-> _]. reflexivity.
Qed.

Lemma dissolves_unmerge_if_present rg : respects dissolves (Main.unmerge_if_present rg).
Proof.
  unfold Main.unmerge_if_present.
  rule respects_bind; [rule respects_get_ws|]. intros ws0.
  rule respects_for_break. intros x _. case_decide; [|rule respects_ret].
  rule respects_bind; [|intros; rule respects_ret].
  rule respects_try; [|intros; rule respects_ret].
  apply dissolves_unmerge_cells.
Qed.

Lemma dissolves_placeholder ws ws' k :
  dissolves ws ws' → placeholder ws k = false → placeholder ws' k = false.
Proof. intros [Hc _] Hp. unfold placeholder in *. by destruct (Hc k) as [-> | ->]. Qed.

Lemma total_unmerge_if_present rg : total (Main.unmerge_if_present rg).
Proof.
  unfold Main.unmerge_if_present. apply total_bind; [apply total_get_ws|]. intros ws0.
  induction (merged ws0) as [|x l IH]; simpl; [apply total_ret|].
  apply total_bind.
  - case_decide; [|apply total_ret]. apply total_bind; [|intros; apply total_ret].
    intros ws. unfold result, try_except.
    destruct (unmerge_cells rg ws) as [[[]|e] ws'] eqn:E; simpl; [by eexists|].
    assert (e = ValueError ∨ e = KeyError) as [-> | ->]; [|by eexists..].
    destruct (list_remove rg (merged ws)) as [l'|] eqn:Hrem.
    + destruct (unmerge_cells_present _ _ _ Hrem) as (_ & _ & Hr & _).
      unfold result in Hr. rewrite E in Hr. simpl in Hr. destruct Hr as [?|?]; simplify_eq. by right.
    + destruct (unmerge_cells_absent _ _ Hrem) as [_ Hr].
      unfold result in Hr. rewrite E in Hr. simpl in Hr. simplify_eq. by left.
  - intros [|]; [apply total_ret|apply IH].
Qed.

(** ** What follows the requirements box works from row 12 down *)

Lemma confined_write_products R items : R ≤ 12 → confined R (write_products items).
Proof.
  intros. unfold write_products. rule respects_for. intros ip Hip%enumerate_elem.
  apply confined_set_product_data. lia.
Qed.

Lemma confined_map_products R data : R ≤ 12 → confined R (map_products data).
Proof.
  intros. unfold map_products. respect.
  - apply confined_prepare_product_rows. lia.
  - by apply confined_write_products.
Qed.

Lemma last_product_row_ge items last : Main.last_product_row items = Ok last → 11 ≤ last.
Proof.
  unfold Main.last_product_row. destruct (len items); intros [= <-]. lia.
Qed.

Lemma last_item_row_ge items last : Processor.last_item_row items = Ok last → 11 ≤ last.
Proof.
  unfold Processor.last_item_row. destruct (truthy items); [|intros [= <-]; lia].
  destruct (len items); intros [= <-]. lia.
Qed.

Lemma confined_main_tail R data : R ≤ 12 → confined R (main_tail data).
Proof.
  intros. unfold main_tail.
  rule respects_bind; [by apply confined_map_products|]. intros items.
  apply (respects_bind_post (changes_below R) (λ last : Z, 11 ≤ last)).
  - intros ws last. apply last_product_row_ge.
  - rule respects_lift.
  - intros last Hlast. apply confined_recreate. lia.
Qed.

Lemma confined_processor_tail R data : R ≤ 12 → confined R (processor_tail data).
Proof.
  intros. unfold processor_tail.
  rule respects_bind; [by apply confined_map_products|]. intros items.
  apply (respects_bind_post (changes_below R) (λ last : Z, 11 ≤ last)).
  - intros ws last. apply last_item_row_ge.
  - rule respects_lift.
  - intros last Hlast.
    rule respects_bind; [apply confined_clean_extra_rows; lia|]. intros _.
    apply confined_render_trailing_block. lia.
Qed.

(** The filled box survives whatever works from row 12 down. *)
Lemma box_filled_preserved text ws ws' :
  changes_below 12 ws ws' → box_anchor_free ws → box_filled text ws → box_filled text ws'.
Proof.
  intros (Hc & _ & Hk) Hfree [(st & H49 & Hw) Hbox]. split.
  - exists st. split; [|done].
    destruct (Hc 4 9) as [->|[_ (rg & Hrg & Hmax & Hin)]]; [lia|done|].
    exfalso. by apply (Hfree rg).
  - apply Hk; [done|]. cbn. lia.
Qed.

(** ** The assembler up to the requirements box *)

Lemma try_unmerge_run rg ws :
  try_except (unmerge_cells rg) ValueError_KeyError (λ _, mret tt) ws
  = (Ok tt, exec (unmerge_cells rg) ws).
Proof.
  apply try_pass_run. destruct (list_remove rg (merged ws)) as [l'|] eqn:Hrem.
  - destruct (unmerge_cells_present _ _ _ Hrem) as (_ & _ & [?|?] & _); [by left|right; eauto].
  - destruct (unmerge_cells_absent _ _ Hrem) as [_ ?]. right; eauto.
Qed.

Lemma unmerge_if_present_run rg ws :
  Main.unmerge_if_present rg ws =
  (Ok tt, if decide (rg ∈ merged ws) then exec (unmerge_cells rg) ws else ws).
Proof.
  unfold Main.unmerge_if_present. erewrite bind_ok by reflexivity.
  generalize (merged ws) as l. intros l. induction l as [|x l IH]; [done|].
  cbn [for_break]. destruct (decide (x = rg)) as [->|Hne].
  - erewrite bind_ok; cycle 1.
    { erewrite bind_ok by apply try_unmerge_run. reflexivity. }
    rewrite decide_True by left. done.
  - erewrite bind_ok by reflexivity. cbv beta iota. rewrite IH.
    destruct (decide (rg ∈ l)) as [Hin|Hin].
    + rewrite decide_True by (by right). done.
    + rewrite decide_False; [done|]. intros [?|?]%elem_of_cons; done.
Qed.

Lemma unmerge_if_present_spec rg ws :
  let ws' := exec (Main.unmerge_if_present rg) ws in
  (∀ x, x ∈ merged ws' → x ∈ merged ws) ∧
  (∀ x, x ∈ merged ws → x = rg ∨ x ∈ merged ws') ∧
  (∀ k, cells ws' !! k = cells ws !! k ∨
        (cells ws' !! k = None ∧ k ∈ tail (range_cells rg))).
Proof.
  intros ws'. subst ws'. unfold exec at 1 2 3. rewrite unmerge_if_present_run. cbn [snd].
  unfold exec at 4. rewrite unmerge_if_present_run. cbn [snd].
  destruct (decide (rg ∈ merged ws)) as [Hin|Hin]; [|split_and!; auto].
  destruct (list_remove_elem _ _ Hin) as [l' Hrem].
  destruct (unmerge_cells_present _ _ _ Hrem) as (Hm & _ & _ & Hc & _).
  destruct (list_remove_Some _ _ _ Hrem) as [_ Hl'].
  rewrite Hm. split_and!; [intros; by apply Hl'|intros; by apply Hl'|done].
Qed.

Section box.
Context (d : list (string * PyVal)) (reqs : string) (items : list PyVal) (ws : Worksheet).
Context (Hrec : order_record (PDict d) reqs items).
Context (Hplain : header_cells_plain ws).

Lemma header_fields_written_facts :
  merged (header_fields_written d ws) = merged ws ∧
  (∀ k, k.2 ≠ 3 → cells (header_fields_written d ws) !! k = cells ws !! k) ∧
  (∀ k, 10 ≤ k.1 → cells (header_fields_written d ws) !! k = cells ws !! k) ∧
  (∀ k, placeholder ws k = false → placeholder (header_fields_written d ws) k = false).
Proof.
  unfold header_fields_written. split_and!; [done|..].
  - intros [r c] Hk. simpl in Hk. rewrite !write_cell_lookup.
    repeat (case_decide; [by simplify_eq|]). done.
  - intros [r c] Hk. simpl in Hk. rewrite !write_cell_lookup.
    repeat (case_decide; [simplify_eq; lia|]). done.
  - intros k Hk. rewrite !placeholder_write_cell. by repeat case_decide.
Qed.

Lemma write_header_fields_ok :
  write_header_fields (PDict d) ws = (Ok (split newline reqs), header_fields_written d ws).
Proof.
  destruct Hrec as (d' & [= <-] & H1 & H2 & H3 & H4 & H5 & Hr & _).
  apply write_header_fields_run; try done. apply Hplain.
Qed.

Lemma unmerge_if_present_ok rg w :
  Main.unmerge_if_present rg w = (Ok tt, exec (Main.unmerge_if_present rg) w).
Proof. unfold exec. by rewrite unmerge_if_present_run. Qed.

(** The state from which the rest of the assembler starts, given the
    state [w] in which the box is filled: [w] is [ws] with the header
    fields written and, in [main.py], the old box merge dissolved. *)
Lemma box_done_from w :
  (∀ x, x ∈ merged w → x ∈ merged ws) →
  (∀ x, x ∈ merged ws → x = reqs_box ∨ x ∈ merged w) →
  (∀ k, cells w !! k = cells (header_fields_written d ws) !! k ∨
        (cells w !! k = None ∧ k ∈ tail (range_cells reqs_box))) →
  ∃ wsB, fill_requirements_box (split newline reqs) w = (Ok tt, wsB) ∧
         box_done reqs ws wsB.
Proof.
  intros Hsub Hsup Hc.
  destruct header_fields_written_facts as (Hm & Hcol & Hrow & Hph).
  assert (∀ k, placeholder ws k = false → placeholder w k = false) as Hpw.
  { intros k Hk. apply Hph in Hk. unfold placeholder in *.
    by destruct (Hc k) as [->|[-> _]]. }
  destruct (fill_requirements_box_run (split newline reqs) w) as (wsB & Hrun & Hst & HmB & HcB & _).
  { apply Hpw, Hplain. }
  exists wsB. split; [done|]. rewrite join_split in Hst.
  assert (∀ rg, rg ∈ merged wsB ↔ rg ∈ merged w ∨ rg = reqs_box) as HmB'.
  { intros rg. rewrite HmB. case_decide.
    - split; [by left|]. intros [?|E]; [done|by subst].
    - rewrite elem_of_app, list_elem_of_singleton. done. }
  split_and!.
  - split; [done|]. apply HmB'. by right.
  - intros rg. rewrite HmB'. split.
    + intros [?|?]; auto.
    + intros [Hin|?]; [|by right]. destruct (Hsup _ Hin); auto.
  - intros [r c] Hk. simpl in Hk. rewrite HcB; cycle 1.
    { intros Hin%elem_of_range_cells. cbn in Hin. lia. }
    destruct (Hc (r, c)) as [->|[_ Hin%elem_of_tail_range_cells]]; [by apply Hrow|].
    cbn in Hin. lia.
  - split.
    + intros r Hr. unfold placeholder. rewrite HcB; cycle 1.
      { intros Hin%elem_of_range_cells. cbn in Hin. lia. }
      apply Hpw. by apply Hplain.
    + unfold placeholder. by destruct Hst as (st & -> & _).
Qed.

Lemma main_box :
  ∃ wsB, box_done reqs ws wsB ∧
         exec (Main.map_data_to_excel (PDict d)) ws = exec (main_tail (PDict d)) wsB.
Proof.
  destruct header_fields_written_facts as (Hm & _).
  destruct (unmerge_if_present_spec reqs_box (header_fields_written d ws)) as (Hs1 & Hs2 & Hs3).
  destruct (box_done_from (exec (Main.unmerge_if_present reqs_box) (header_fields_written d ws)))
    as (wsB & Hrun & Hdone).
  { intros x Hx. rewrite <- Hm. by apply Hs1. }
  { intros x Hx. apply Hs2. by rewrite Hm. }
  { done. }
  exists wsB. split; [done|].
  unfold Main.map_data_to_excel. rewrite exec_try_pass. unfold exec at 1.
  rewrite (bind_ok _ _ _ _ _ write_header_fields_ok).
  rewrite (bind_ok _ _ _ _ _ (unmerge_if_present_ok _ _)).
  rewrite (bind_ok _ _ _ _ _ Hrun). reflexivity.
Qed.

Lemma processor_box :
  ∃ wsB, box_done reqs ws wsB ∧
         exec (Processor.map_data_to_excel (PDict d)) ws = exec (processor_tail (PDict d)) wsB.
Proof.
  destruct header_fields_written_facts as (Hm & _).
  destruct (box_done_from (header_fields_written d ws)) as (wsB & Hrun & Hdone).
  { intros x Hx. by rewrite <- Hm. }
  { intros x Hx. right. by rewrite Hm. }
  { auto. }
  exists wsB. split; [done|].
  unfold Processor.map_data_to_excel. rewrite exec_try_pass. unfold exec at 1.
  rewrite (bind_ok _ _ _ _ _ write_header_fields_ok).
  rewrite (bind_ok _ _ _ _ _ Hrun). reflexivity.
Qed.

End box.

(** ** The sample template and orders meet the contracts *)

Lemma sample_order_record items :
  order_record (sample_order items) (join newline ["A"; "B"; "C"]) items.
Proof. eexists. split; [reflexivity|]. split_and!; reflexivity. Qed.

Lemma blank_template_lookup r c :
  12 ≤ r → placeholder blank_template (r, c) = false.
Proof.
  intros Hr. unfold placeholder, blank_template. cbn [cells].
  rewrite insert_all_lookup. rewrite decide_False; cycle 1.
  { intros Hin%elem_of_tail_range_cells. cbn in Hin. lia. }
  destruct (list_to_map _ !! (r, c)) as [x|] eqn:E; [|done].
  apply elem_of_list_to_map_2 in E.
  repeat (apply elem_of_cons in E as [E|E]; [by simplify_eq|]).
  by apply elem_of_nil in E.
Qed.

Lemma blank_template_contract : template_contract blank_template.
Proof.
  split; split.
  - intros r Hr.
    assert (r = 3 ∨ r = 4 ∨ r = 5 ∨ r = 6 ∨ r = 7) as Hcases by lia.
    destruct Hcases as [->|[->|[->|[->| ->]]]]; vm_compute; reflexivity.
  - vm_compute; reflexivity.
  - intros r c Hr. by apply blank_template_lookup.
  - intros rg Hin. cbn in Hin. apply list_elem_of_singleton in Hin as ->. cbn. lia.
Qed.

Lemma nothing_merged_below_anchor_free ws : nothing_merged_below ws → box_anchor_free ws.
Proof. intros [_ Hm] rg Hin Hmax. apply Hm in Hin. lia. Qed.

(** ** Placeholders do not appear by themselves *)

#[global] Instance no_new_placeholder_preorder : PreOrder no_new_placeholder.
Proof.
  split; [intros ws k H; exact H|]. intros ws1 ws2 ws3 H1 H2 k Hk. by apply H2, H1.
Qed.

#[global] Instance keeps_preorder P : PreOrder (keeps P).
Proof.
  split; [intros ws H; exact H|]. intros ws1 ws2 ws3 H1 H2 H. by apply H2, H1.
Qed.

Section placeholders.
Implicit Types (ws : Worksheet) (k : Z * Z) (row col : Z).

Lemma npl_set_cells f ws :
  (∀ k, from_option is_MergedCell false (cells ws !! k) = false →
        from_option is_MergedCell false (f (cells ws) !! k) = false) →
  no_new_placeholder ws (set_cells f ws).
Proof. intros H k. apply H. Qed.

Lemma npl__get_cell row col : respects no_new_placeholder (_get_cell row col).
Proof.
  intros ws. apply npl_set_cells. intros k Hk. rewrite ensure_cell_lookup.
  case_decide; [|done]. subst. by destruct (cells ws !! (row, col)).
Qed.

Lemma npl_set_value k v : respects no_new_placeholder (set_value k v).
Proof.
  intros ws. unfold exec, set_value.
  destruct (cells ws !! k) as [[v0 st|st]|] eqn:E; simpl; try reflexivity.
  destruct (storable v); simpl; [|reflexivity].
  apply npl_set_cells. intros k' Hk'. destruct (decide (k = k')) as [->|].
  - by rewrite lookup_insert_eq.
  - by rewrite lookup_insert_ne.
Qed.

Lemma npl_set_style k f : respects no_new_placeholder (set_style k f).
Proof.
  intros ws. apply npl_set_cells. intros k' Hk'. destruct (decide (k = k')) as [->|].
  - rewrite lookup_alter_eq. by destruct (cells ws !! k') as [[]|].
  - by rewrite lookup_alter_ne.
Qed.

Lemma npl_set_height row h : respects no_new_placeholder (set_height row h).
Proof. by intros ws k. Qed.

Lemma npl_cell row col v : respects no_new_placeholder (cell row col v).
Proof. rule respects_cell; [apply npl__get_cell|]. intros. apply npl_set_value. Qed.

Lemma dissolves_npl ws ws' : dissolves ws ws' → no_new_placeholder ws ws'.
Proof. intros H k. by apply dissolves_placeholder. Qed.

Lemma dissolves_safely_unmerge row : respects dissolves (safely_unmerge_row_cells row).
Proof.
  unfold safely_unmerge_row_cells.
  rule respects_try; [|intros; rule respects_ret].
  rule respects_bind; [rule respects_get_ws|]. intros ws0.
  rule respects_for. intros rg _.
  rule respects_try; [|intros; rule respects_ret].
  apply dissolves_unmerge_cells.
Qed.

Lemma npl_safely_unmerge row : respects no_new_placeholder (safely_unmerge_row_cells row).
Proof. intros ws. apply dissolves_npl, dissolves_safely_unmerge. Qed.

End placeholders.

Ltac respect_prim ::=
  lazymatch goal with
  | |- confined _ (set_height _ _) => apply confined_set_height
  | |- confined _ (safely_unmerge_row_cells _) => apply confined_safely_unmerge; lia
  | |- confined _ (_get_cell _ _) => apply confined__get_cell; lia
  | |- confined _ (cell _ _ _) => apply confined_cell; lia
  | |- confined _ (setitem _ _ _) => apply confined_setitem; lia
  | |- confined _ (set_value _ _) => apply confined_set_value; simpl; lia
  | |- confined _ (set_style _ _) => apply confined_set_style; simpl; lia
  | |- confined _ (insert_rows _) => apply confined_insert_rows; lia
  | |- confined _ (merge_cells _) => apply confined_merge_cells; simpl; lia
  | |- respects (same_outside _) (cell _ _ _) =>
      apply so_cell; simpl; split; [done|repeat constructor]
  | |- respects no_new_placeholder (set_height _ _) => apply npl_set_height
  | |- respects no_new_placeholder (safely_unmerge_row_cells _) => apply npl_safely_unmerge
  | |- respects no_new_placeholder (_get_cell _ _) => apply npl__get_cell
  | |- respects no_new_placeholder (cell _ _ _) => apply npl_cell
  | |- respects no_new_placeholder (set_value _ _) => apply npl_set_value
  | |- respects no_new_placeholder (set_style _ _) => apply npl_set_style
  end.

Lemma npl_copy_row_format src tgt : respects no_new_placeholder (copy_row_format src tgt).
Proof. unfold copy_row_format. respect. Qed.

Lemma npl_set_product_data row product : respects no_new_placeholder (set_product_data row product).
Proof. unfold set_product_data. respect. Qed.

Lemma npl_write_products items : respects no_new_placeholder (write_products items).
Proof. unfold write_products. rule respects_for. intros. apply npl_set_product_data. Qed.

Lemma placeholder_free_npl cols r0 ws ws' :
  no_new_placeholder ws ws' → placeholder_free cols r0 ws → placeholder_free cols r0 ws'.
Proof. intros Hn HP r c Hr Hc. by apply Hn, HP. Qed.

(** Inserting a row at or below [r0] keeps the region free. *)
Lemma placeholder_free_insert_rows cols r0 idx ws :
  r0 ≤ idx → placeholder_free cols r0 ws →
  placeholder_free cols r0 (exec (insert_rows idx) ws).
Proof.
  intros Hidx HP r c Hr Hc. unfold placeholder. rewrite insert_rows_lookup.
  repeat case_decide; try done; apply HP; try done; lia.
Qed.

Lemma placeholder_free_prepare cols r0 n ws :
  r0 ≤ 14 → placeholder_free cols r0 ws →
  placeholder_free cols r0 (exec (prepare_product_rows n) ws).
Proof.
  intros Hr0. revert ws.
  change (respects (keeps (placeholder_free cols r0)) (prepare_product_rows n)).
  unfold prepare_product_rows. destruct (n <=? 2); [rule respects_ret|].
  rule respects_for. intros i Hi%elem_of_seqZ.
  rule respects_try; [|intros; rule respects_ret].
  rule respects_bind.
  { intros ws HP. apply placeholder_free_insert_rows; [lia|done]. }
  intros _. rule respects_bind.
  { intros ws HP. eapply placeholder_free_npl; [apply npl_copy_row_format|done]. }
  intros _. rule respects_bind; [|intros; rule respects_ret].
  intros ws HP. eapply placeholder_free_npl; [apply npl_cell|done].
Qed.

(** ** The item row writer *)

Section item_row.
Implicit Types (ws : Worksheet) (k : Z * Z) (row col : Z).

Lemma cell_str_run row col s ws :
  1 ≤ row → 1 ≤ col → placeholder ws (row, col) = false →
  cell row col (PStr s) ws = (Ok (row, col), write_cell (row, col) (PStr s) ws).
Proof.
  intros Hr Hc Hp. unfold cell.
  replace ((row <? 1) || (col <? 1)) with false by (symmetry; apply orb_false_iff; lia).
  pose proof (setitem_run row col (PStr s) ws Hp eq_refl) as Hs.
  unfold setitem, mbind, M_bind in *.
  destruct (_get_cell row col ws) as [[a|e] ws1] eqn:E; [|done].
  assert (a = (row, col)) as ->.
  { eapply (_get_cell_result row col ws). unfold result. by rewrite E. }
  by rewrite Hs.
Qed.

(** The frame of [set_product_data], with the dissolved merges spelled out. *)
Lemma set_product_data_effect row product ws k :
  ¬ (k.1 = row ∧ k.2 ∈ item_columns) →
  let ws' := exec (set_product_data row product) ws in
  (cells ws' !! k = cells ws !! k ∨
   (cells ws' !! k = None ∧
    ∃ rg, rg ∈ merged ws ∧ touches_row row rg ∧ k ∈ tail (range_cells rg))) ∧
  merged ws' = filter (λ rg, ¬ touches_row row rg) (merged ws) ∧
  heights ws' = heights ws.
Proof.
  intros Hk ws'. subst ws'.
  destruct (set_product_data_frame row product ws) as (Hc & Hm & Hh).
  destruct (safely_unmerge_spec row ws) as (_ & Hm' & Hh' & Hc').
  rewrite Hm, Hh, (Hc k Hk). split_and!; [apply Hc'|done..].
Qed.

(** The label is written first, and nothing after it touches column A. *)
Lemma set_product_data_label row product ws :
  1 ≤ row → placeholder ws (row, 1) = false →
  ∃ st, cells (exec (set_product_data row product) ws) !! (row, 1)
        = Some (Plain (row_label (row - 11)) st).
Proof.
  intros Hrow Hp. unfold set_product_data. rewrite exec_try_pass. unfold exec.
  rewrite (bind_ok _ _ _ _ _ (safely_unmerge_run row ws)).
  set (w1 := exec (safely_unmerge_row_cells row) ws).
  assert (placeholder w1 (row, 1) = false) as Hp1.
  { by apply (npl_safely_unmerge row ws). }
  unfold row_label at 1.
  rewrite (bind_ok _ _ _ _ _ (cell_str_run row 1 _ w1 Hrow ltac:(lia) Hp1)).
  set (w2 := write_cell _ _ w1).
  match goal with |- context [snd (?m w2)] =>
    assert (respects (same_outside (λ k, k.1 = row ∧ k.2 ∈ [2; 3; 5; 6; 7; 8; 9; 10])) m)
      as Hfr by respect;
    destruct (Hfr w2) as (Hc & _)
  end.
  unfold exec in Hc. rewrite Hc; cycle 1.
  { simpl. intros [_ Hin].
    repeat (apply elem_of_cons in Hin as [Hin|Hin]; [discriminate|]).
    by apply elem_of_nil in Hin. }
  subst w2. rewrite write_cell_lookup, decide_True by done. eauto.
Qed.

End item_row.

(** ** Labels of the item rows *)

Lemma exec_for_cons {A} (x : A) l (body : A → M unit) ws :
  total (body x) →
  exec (for_ (x :: l) body) ws = exec (for_ l body) (exec (body x) ws).
Proof. intros Ht. cbn [for_]. by rewrite (exec_bind _ _ _ tt) by (by apply total_unit). Qed.

Lemma range_covers_touches rg r c : (r, c) ∈ tail (range_cells rg) → touches_row r rg.
Proof. intros Hin%elem_of_tail_range_cells. apply touches_row_spec. lia. Qed.

Lemma write_products_from items : ∀ k ws,
  1 ≤ k →
  placeholder_free (λ c, c = 1) 12 ws →
  (∀ j, 1 ≤ j < k → labelled ws j) →
  item_rows_unmerged (k - 1) ws →
  let ws' := exec (for_ (enumerate k items) (λ ip, set_product_data (11 + ip.1) ip.2)) ws in
  (∀ j, 1 ≤ j < k + Z.of_nat (length items) → labelled ws' j) ∧
  item_rows_unmerged (k - 1 + Z.of_nat (length items)) ws'.
Proof.
  induction items as [|x items IH]; intros k ws Hk Hfree Hlab Hun ws'; subst ws'.
  - cbn [enumerate for_ length]. unfold exec; simpl. split.
    + intros j Hj. apply Hlab. lia.
    + by replace (k - 1 + Z.of_nat 0) with (k - 1) by lia.
  - cbn [enumerate]. rewrite exec_for_cons by apply total_set_product_data.
    cbn [fst snd].
    set (w1 := exec (set_product_data (11 + k) x) ws).
    assert (merged w1 = filter (λ rg, ¬ touches_row (11 + k) rg) (merged ws)) as Hm1.
    { apply (set_product_data_effect (11 + k) x ws (0, 0)). simpl. lia. }
    destruct (IH (k + 1) w1) as [IHl IHu]; [lia|..].
    + eapply placeholder_free_npl; [apply npl_set_product_data|done].
    + intros j Hj. destruct (decide (j = k)) as [->|Hne].
      * destruct (set_product_data_label (11 + k) x ws) as [st Hst]; [lia|..].
        { apply Hfree; [lia|done]. }
        exists st. subst w1. rewrite Hst. by replace (11 + k - 11) with k by lia.
      * destruct (Hlab j) as [st Hst]; [lia|]. exists st. subst w1.
        destruct (set_product_data_effect (11 + k) x ws (11 + j, 1)) as [[->|[_ Hdel]] _].
        { simpl. lia. }
        { done. }
        destruct Hdel as (rg & Hin & _ & Hcov). exfalso.
        apply (Hun rg j); [done|lia|]. by eapply range_covers_touches.
    + intros rg j. rewrite Hm1. intros [Hnt Hin]%list_elem_of_filter Hj.
      destruct (decide (j = k)) as [->|Hne]; [done|].
      apply (Hun rg j); [done|lia].
    + split.
      * intros j Hj. apply IHl. rewrite length_cons in Hj. lia.
      * intros rg j Hin Hj. apply (IHu rg j); [done|]. rewrite length_cons in Hj. lia.
Qed.

(** After the item writes every item row carries its label and no
    merged range touches an item row. *)
Lemma write_products_labels items ws :
  placeholder_free (λ c, c = 1) 12 ws →
  let ws' := exec (write_products items) ws in
  (∀ j, 1 ≤ j ≤ Z.of_nat (length items) → labelled ws' j) ∧
  item_rows_unmerged (Z.of_nat (length items)) ws'.
Proof.
  intros Hfree ws'. subst ws'. unfold write_products.
  destruct (write_products_from items 1 ws) as [Hl Hu]; [lia|done|intros; lia|..].
  - intros rg j _ Hj. lia.
  - split; [intros; apply Hl; lia|]. intros rg j Hin Hj. apply (Hu rg j); [done|lia].
Qed.

(** Work below the item rows leaves the labels alone. *)
Lemma labelled_preserved n ws ws' j :
  changes_below (12 + n) ws ws' → item_rows_unmerged n ws →
  1 ≤ j ≤ n → labelled ws j → labelled ws' j.
Proof.
  intros (Hc & _) Hun Hj [st Hst]. exists st.
  destruct (Hc (11 + j) 1) as [->|[_ (rg & Hin & _ & Hcov)]]; [lia|done|].
  exfalso. apply (Hun rg j); [done..|]. by eapply range_covers_touches.
Qed.

(** ** The assembler after the requirements box *)

Lemma total_run (m : M unit) ws : total m → m ws = (Ok tt, exec m ws).
Proof. intros Ht. rewrite (run_eta m ws). by rewrite total_unit. Qed.

Lemma total_write_products items : total (write_products items).
Proof. apply total_for. intros; apply total_set_product_data. Qed.

Lemma get_items d items :
  items_of d = Some items → get (PDict d) "Items" (PList []) = Ok (PList items).
Proof.
  unfold items_of, get. destruct (assoc "Items" d) as [[]|]; intros; by simplify_eq.
Qed.

Lemma map_products_run d items ws :
  items_of d = Some items →
  map_products (PDict d) ws = (Ok (PList items), items_written items ws).
Proof.
  intros Hi. unfold map_products, items_written. rewrite (get_items _ _ Hi).
  erewrite (bind_ok (lift _)) by reflexivity.
  erewrite (bind_ok (lift _)) by reflexivity.
  erewrite (bind_ok (prepare_product_rows _))
    by apply total_run, total_prepare_product_rows.
  erewrite (bind_ok (lift _)) by reflexivity.
  erewrite (bind_ok (write_products _)) by apply total_run, total_write_products.
  reflexivity.
Qed.

Lemma main_tail_run d items ws :
  items_of d = Some items →
  exec (main_tail (PDict d)) ws =
  exec (Main._recreate_expedicia_section (11 + Z.of_nat (length items) + 2))
    (items_written items ws).
Proof.
  intros Hi. unfold main_tail. unfold exec at 1.
  rewrite (bind_ok _ _ _ _ _ (map_products_run d items ws Hi)).
  erewrite (bind_ok (lift _)) by reflexivity. reflexivity.
Qed.

Lemma processor_tail_run d items ws :
  items_of d = Some items →
  let last := match items with [] => 12 | _ => 11 + Z.of_nat (length items) end in
  exec (processor_tail (PDict d)) ws =
  exec (Processor.render_trailing_block last)
    (exec (Processor.clean_extra_rows last) (items_written items ws)).
Proof.
  intros Hi last. unfold processor_tail. unfold exec at 1.
  rewrite (bind_ok _ _ _ _ _ (map_products_run d items ws Hi)).
  assert (Processor.last_item_row (PList items) = Ok last) as Hlast.
  { subst last. by destruct items. }
  rewrite Hlast. erewrite (bind_ok (lift _)) by reflexivity.
  erewrite (bind_ok (Processor.clean_extra_rows _))
    by apply total_run, total_clean_extra_rows.
  reflexivity.
Qed.

(** The labels after the item writes, from a sheet whose column A is
    free of placeholders from row 12 down. *)
Lemma items_written_labels items ws :
  placeholder_free (λ c, c = 1) 12 ws →
  (∀ j, 1 ≤ j ≤ Z.of_nat (length items) → labelled (items_written items ws) j) ∧
  item_rows_unmerged (Z.of_nat (length items)) (items_written items ws).
Proof.
  intros Hfree. unfold items_written. apply write_products_labels.
  by apply placeholder_free_prepare.
Qed.

(** ** Tracking the merged ranges and the rows worked on *)

#[global] Instance merged_same_preorder : PreOrder merged_same.
Proof.
  split; [by intros ws|]. intros ws1 ws2 ws3 H1 H2. unfold merged_same in *. congruence.
Qed.

#[global] Instance rows_only_preorder S : PreOrder (rows_only S).
Proof.
  split; [by intros ws r c|]. intros ws1 ws2 ws3 H1 H2 r c Hr.
  unfold rows_only in *. by rewrite H2, H1.
Qed.

Section tracking.
Implicit Types (ws : Worksheet) (k : Z * Z) (row col : Z) (S : Z → Prop).

Lemma ms__get_cell row col : respects merged_same (_get_cell row col).
Proof. done. Qed.
Lemma ms_set_value k v : respects merged_same (set_value k v).
Proof.
  intros ws. unfold exec, set_value, merged_same.
  destruct (cells ws !! k) as [[]|]; simpl; try done. by destruct (storable v).
Qed.
Lemma ms_set_style k f : respects merged_same (set_style k f).
Proof. done. Qed.
Lemma ms_set_height row h : respects merged_same (set_height row h).
Proof. done. Qed.
Lemma ms_insert_rows idx : respects merged_same (insert_rows idx).
Proof. done. Qed.
Lemma ms_delete_rows idx amount : respects merged_same (delete_rows idx amount).
Proof. done. Qed.
Lemma ms_cell row col v : respects merged_same (cell row col v).
Proof. rule respects_cell; [apply ms__get_cell|]. intros. apply ms_set_value. Qed.

Lemma ro__get_cell S row col : S row → respects (rows_only S) (_get_cell row col).
Proof.
  intros HS ws r c Hr. simpl. apply ensure_cell_lookup_ne. intros [= -> ->]. done.
Qed.
Lemma ro_set_value S k v : S k.1 → respects (rows_only S) (set_value k v).
Proof.
  intros HS ws. unfold exec, set_value.
  destruct (cells ws !! k) as [[v0 st|st]|]; simpl; try reflexivity.
  destruct (storable v); simpl; [|reflexivity].
  intros r c Hr. simpl. apply lookup_insert_ne. intros ->. done.
Qed.
Lemma ro_set_style S k f : S k.1 → respects (rows_only S) (set_style k f).
Proof. intros HS ws r c Hr. simpl. apply lookup_alter_ne. intros ->. done. Qed.
Lemma ro_set_height S row h : respects (rows_only S) (set_height row h).
Proof. done. Qed.
Lemma ro_cell S row col v : S row → respects (rows_only S) (cell row col v).
Proof.
  intros. rule respects_cell; [by apply ro__get_cell|]. intros. by apply ro_set_value.
Qed.
Lemma ro_merge_cells S rg :
  (∀ r, min_row rg ≤ r ≤ max_row rg → S r) → respects (rows_only S) (merge_cells rg).
Proof.
  intros HS ws. destruct (valid_range rg) eqn:Hv.
  - unfold exec. rewrite merge_cells_run by done. cbn [snd].
    intros r c Hr. rewrite merge_done_lookup.
    rewrite decide_False; cycle 1.
    { intros Hin%elem_of_tail_range_cells. apply Hr, HS. lia. }
    rewrite decide_False; [done|]. intros [= -> ->]. apply Hr, HS.
    unfold valid_range in Hv. rewrite !andb_true_iff, !Z.leb_le in Hv. lia.
  - unfold exec, merge_cells. rewrite Hv. reflexivity.
Qed.

Lemma merged_same_dissolved ws ws' :
  merged_same ws ws' → merged_dissolved (λ _, False) ws ws'.
Proof.
  unfold merged_same, merged_dissolved. intros H rg. rewrite H.
  split; [intros; split; [done|tauto]|tauto].
Qed.

Lemma merged_dissolved_trans R1 R2 ws1 ws2 ws3 :
  merged_dissolved R1 ws1 ws2 → merged_dissolved R2 ws2 ws3 →
  merged_dissolved (λ r, R1 r ∨ R2 r) ws1 ws3.
Proof.
  unfold merged_dissolved. intros H1 H2 rg. rewrite H2, H1. split.
  - intros [[? ?] ?]. split; [done|]. intros r [?|?]; auto.
  - intros [? Hn]. split_and!; [done|..]; intros r ?; apply Hn; auto.
Qed.

Lemma merged_dissolved_ext R1 R2 ws ws' :
  (∀ r, R1 r ↔ R2 r) → merged_dissolved R1 ws ws' → merged_dissolved R2 ws ws'.
Proof.
  unfold merged_dissolved. intros HR H rg. rewrite H.
  split; intros [? Hn]; (split; [done|]); intros r ?; apply Hn, HR; done.
Qed.

Lemma safely_unmerge_dissolved row ws :
  merged_dissolved (λ r, r = row) ws (exec (safely_unmerge_row_cells row) ws).
Proof.
  intros rg. destruct (safely_unmerge_spec row ws) as (_ & -> & _).
  rewrite list_elem_of_filter. split.
  - intros [? ?]. split; [done|]. by intros r ->.
  - intros [? Hn]. split; [|done]. by apply Hn.
Qed.

Lemma for_result_ok {A} (P : Worksheet → Prop) (l : list A) body ws :
  (∀ x, x ∈ l → ∀ w, P w → result (body x) w = Ok tt ∧ P (exec (body x) w)) →
  P ws → result (for_ l body) ws = Ok tt ∧ P (exec (for_ l body) ws).
Proof.
  revert ws. induction l as [|x l IH]; intros ws Hb HP; [done|].
  destruct (Hb x ltac:(left) ws HP) as [Hr HP'].
  cbn [for_]. rewrite (result_bind _ _ _ tt), (exec_bind _ _ _ tt) by done.
  apply IH; [|done]. intros; apply Hb; [by right|done].
Qed.

Lemma cell_none_run row col ws :
  1 ≤ row → 1 ≤ col →
  cell row col PNone ws = (Ok (row, col), set_cells (ensure_cell (row, col)) ws).
Proof.
  intros Hr Hc. unfold cell.
  replace ((row <? 1) || (col <? 1)) with false by (symmetry; apply orb_false_iff; lia).
  reflexivity.
Qed.

Lemma ensure_cell_plain ws k :
  placeholder ws k = false →
  ∃ v st, ensure_cell k (cells ws) !! k = Some (Plain v st).
Proof.
  intros Hp. rewrite ensure_cell_lookup, decide_True by done. unfold placeholder in Hp.
  destruct (cells ws !! k) as [[v st|?]|]; simpl in *; eauto; done.
Qed.

End tracking.

Ltac respect_prim ::=
  lazymatch goal with
  | |- confined _ (set_height _ _) => apply confined_set_height
  | |- confined _ (safely_unmerge_row_cells _) => apply confined_safely_unmerge; lia
  | |- confined _ (_get_cell _ _) => apply confined__get_cell; lia
  | |- confined _ (cell _ _ _) => apply confined_cell; lia
  | |- confined _ (setitem _ _ _) => apply confined_setitem; lia
  | |- confined _ (set_value _ _) => apply confined_set_value; simpl; lia
  | |- confined _ (set_style _ _) => apply confined_set_style; simpl; lia
  | |- confined _ (insert_rows _) => apply confined_insert_rows; lia
  | |- confined _ (merge_cells _) => apply confined_merge_cells; simpl; lia
  | |- respects (same_outside _) (cell _ _ _) =>
      apply so_cell; simpl; split; [done|repeat constructor]
  | |- respects no_new_placeholder (set_height _ _) => apply npl_set_height
  | |- respects no_new_placeholder (safely_unmerge_row_cells _) => apply npl_safely_unmerge
  | |- respects no_new_placeholder (_get_cell _ _) => apply npl__get_cell
  | |- respects no_new_placeholder (cell _ _ _) => apply npl_cell
  | |- respects no_new_placeholder (set_value _ _) => apply npl_set_value
  | |- respects no_new_placeholder (set_style _ _) => apply npl_set_style
  | |- respects merged_same (set_height _ _) => apply ms_set_height
  | |- respects merged_same (_get_cell _ _) => apply ms__get_cell
  | |- respects merged_same (cell _ _ _) => apply ms_cell
  | |- respects merged_same (set_value _ _) => apply ms_set_value
  | |- respects merged_same (set_style _ _) => apply ms_set_style
  | |- respects merged_same (insert_rows _) => apply ms_insert_rows
  | |- respects (rows_only _) (set_height _ _) => apply ro_set_height
  | |- respects (rows_only _) (_get_cell _ _) => apply ro__get_cell; simpl; lia
  | |- respects (rows_only _) (cell _ _ _) => apply ro_cell; simpl; lia
  | |- respects (rows_only _) (set_value _ _) => apply ro_set_value; simpl; lia
  | |- respects (rows_only _) (set_style _ _) => apply ro_set_style; simpl; lia
  | |- respects (rows_only _) (merge_cells _) => apply ro_merge_cells; simpl; intros; lia
  end.

(** ** The header of [main.py] *)

Section main_header.
Implicit Types (ws w : Worksheet) (t col : Z).

Lemma clear_cell_ok t col w :
  1 ≤ t → 1 ≤ col → placeholder w (t, col) = false →
  result (Main.clear_cell t col) w = Ok tt.
Proof.
  intros Ht Hc Hp. unfold Main.clear_cell, result.
  rewrite (bind_ok _ _ _ _ _ (cell_none_run t col w Ht Hc)).
  destruct (ensure_cell_plain w (t, col) Hp) as (v & st & Hk).
  erewrite (bind_ok (set_value _ _)); [reflexivity|].
  eapply set_value_run; [exact Hk|done].
Qed.

Lemma npl_clear_cell t col : respects no_new_placeholder (Main.clear_cell t col).
Proof. unfold Main.clear_cell. respect. Qed.

Lemma ms_clear_cell t col : respects merged_same (Main.clear_cell t col).
Proof. unfold Main.clear_cell. respect. Qed.

Lemma valid_header_range t : 1 ≤ t → valid_range (Main.header_range t) = true.
Proof.
  intros. unfold valid_range. cbn. rewrite !andb_true_iff, !Z.leb_le. lia.
Qed.

(** When the columns I–L of the row hold no placeholder once the old
    header range is unmerged, [main.py] renders the header; the header
    range is the only change to the merges, and J–L of the row are its
    placeholders. *)
Lemma recreate_header_after t w :
  1 ≤ t →
  (∀ c, 9 ≤ c ≤ 12 →
     placeholder (exec (Main.unmerge_if_present (Main.header_range t)) w) (t, c) = false) →
  let w' := exec (Main._recreate_expedicia_section t) w in
  header_at w' t ∧ merged_added [Main.header_range t] w w' ∧
  ∀ c, 10 ≤ c ≤ 12 → cells w' !! (t, c) = Some (MergedCell default_style).
Proof.
  intros Ht Hp1 w'. subst w'. unfold Main._recreate_expedicia_section, exec.
  rewrite (bind_ok _ _ _ _ _ (unmerge_if_present_ok _ w)).
  set (w1 := exec (Main.unmerge_if_present (Main.header_range t)) w) in *.
  destruct (unmerge_if_present_spec (Main.header_range t) w) as (Hs1 & Hs2 & _).
  fold w1 in Hs1, Hs2.
  set (P := λ x : Worksheet,
         (∀ c, 9 ≤ c ≤ 12 → placeholder x (t, c) = false) ∧ merged x = merged w1).
  destruct (for_result_ok P (seqZ 9 4) (λ col_idx, Main.clear_cell t col_idx) w1)
    as [Hres [Hp2 Hm2]]; [|by split|].
  { intros col Hcol%elem_of_seqZ x [Hpx Hmx]. split.
    - apply clear_cell_ok; [lia..|]. apply Hpx. lia.
    - split.
      + intros c Hc. by apply (npl_clear_cell t col x), Hpx.
      + rewrite <- Hmx. apply (ms_clear_cell t col x). }
  set (w2 := exec (for_ (seqZ 9 4) (λ col_idx, Main.clear_cell t col_idx)) w1) in *.
  erewrite (bind_ok (for_ _ _)); cycle 1.
  { rewrite (run_eta _ w1), Hres. reflexivity. }
  fold w2.
  rewrite (bind_ok _ _ _ _ _ (merge_cells_run _ w2 (valid_header_range t Ht))).
  set (w3 := merge_done (Main.header_range t) w2).
  rewrite (bind_ok _ _ _ _ _ (cell_none_run t 9 w3 Ht ltac:(lia))).
  assert (placeholder w3 (t, 9) = false) as Hp3.
  { unfold placeholder. subst w3. rewrite merge_done_lookup.
    rewrite decide_False; cycle 1.
    { intros [_ Hne]%elem_of_tail_range_cells_iff. by apply Hne. }
    rewrite decide_True by done.
    specialize (Hp2 9 ltac:(lia)). unfold placeholder in Hp2.
    by destruct (cells w2 !! (t, 9)). }
  destruct (ensure_cell_plain w3 (t, 9) Hp3) as (v & st & Hk).
  erewrite (bind_ok (set_value _ _)); cycle 1.
  { eapply set_value_run; [exact Hk|done]. }
  repeat (erewrite (bind_ok (set_style _ _)) by reflexivity).
  unfold set_height, modify. cbn [snd].
  assert (∀ f x, merged (set_cells f x) = merged x) as Hmc by done.
  assert (∀ f x, merged (set_heights f x) = merged x) as Hmh by done.
  assert (∀ f x, cells (set_cells f x) = f (cells x)) as Hcc by done.
  assert (∀ f x, cells (set_heights f x) = cells x) as Hch by done.
  assert (merged w3 = if decide (Main.header_range t ∈ merged w2) then merged w2
                      else merged w2 ++ [Main.header_range t]) as Hm3 by done.
  split; [|split].
  - split.
    + rewrite Hmh, !Hmc, Hm3.
      case_decide; [done|]. apply elem_of_app. right. left.
    + eexists. rewrite Hch, !Hcc. rewrite !lookup_alter_eq, lookup_insert_eq. cbn.
      split; [reflexivity|]. unfold bordered. cbn. split_and!; eauto.
  - intros rg. rewrite Hmh, !Hmc, Hm3, Hm2. clear Hm3.
    rewrite list_elem_of_singleton.
    destruct (decide (Main.header_range t ∈ merged w1)) as [Hin|Hin].
    + split; [intros Hx; left; by apply Hs1|].
      intros [Hx|E]; [|by subst]. destruct (Hs2 _ Hx) as [E|?]; [by subst|done].
    + rewrite elem_of_app, list_elem_of_singleton. split.
      * intros [?|?]; [left; by apply Hs1|by right].
      * intros [Hx|?]; [|by right]. destruct (Hs2 _ Hx) as [E|?]; [by right|by left].
  - intros c Hc. rewrite Hch, !Hcc.
    rewrite !lookup_alter_ne by (intros [= ?]; lia).
    rewrite lookup_insert_ne by (intros [= ?]; lia).
    rewrite ensure_cell_lookup_ne by (intros [= ?]; lia).
    subst w3. rewrite merge_done_lookup. rewrite decide_True; [done|].
    apply elem_of_tail_range_cells_iff. cbn. split; [lia|]. intros [= ?]. lia.
Qed.

(** On a row whose columns I–L hold no placeholder, [main.py] renders
    the header, and the header range is the only change to the merges. *)
Lemma recreate_header t w :
  1 ≤ t → (∀ c, 9 ≤ c ≤ 12 → placeholder w (t, c) = false) →
  let w' := exec (Main._recreate_expedicia_section t) w in
  header_at w' t ∧ merged_added [Main.header_range t] w w'.
Proof.
  intros Ht Hp. destruct (recreate_header_after t w Ht) as (? & ? & _); [|done].
  intros c Hc. eapply dissolves_placeholder; [apply dissolves_unmerge_if_present|by apply Hp].
Qed.

End main_header.

(** ** The stale-row cleanup of the processor script *)

Section cleanup.
Implicit Types (ws w : Worksheet) (last row : Z).

Lemma safely_unmerge_ok row w :
  safely_unmerge_row_cells row w = (Ok tt, exec (safely_unmerge_row_cells row) w).
Proof. apply safely_unmerge_run. Qed.

(** Dissolving the merges of a list of rows, one row after the other. *)
Lemma unmerge_rows_spec (l : list Z) w :
  let w' := exec (for_ l (λ row_to_clean, safely_unmerge_row_cells row_to_clean)) w in
  result (for_ l (λ row_to_clean, safely_unmerge_row_cells row_to_clean)) w = Ok tt ∧
  merged_dissolved (λ r, r ∈ l) w w' ∧ dissolves w w'.
Proof.
  revert w. induction l as [|x l IH]; intros w w'; subst w'.
  - split_and!; [done| |reflexivity].
    intros rg. unfold exec; simpl. split; [intros; split; [done|]|tauto].
    intros r Hr. by apply elem_of_nil in Hr.
  - rewrite exec_for_cons by apply total_safely_unmerge.
    cbn [for_]. rewrite (result_bind _ _ _ tt) by apply total_unit, total_safely_unmerge.
    destruct (IH (exec (safely_unmerge_row_cells x) w)) as (Hr & Hm & Hd).
    split_and!; [done| |].
    + eapply merged_dissolved_ext; [|eapply merged_dissolved_trans;
         [apply safely_unmerge_dissolved|apply Hm]].
      intros r. simpl. rewrite elem_of_cons. done.
    + etrans; [apply dissolves_safely_unmerge|done].
Qed.

Lemma dissolves_max_row w w' :
  dissolves w w' → sheet_max_row w' ≤ Z.max 1 (sheet_max_row w).
Proof.
  intros [Hc _]. apply sheet_max_row_sub. intros k [x Hx].
  destruct (Hc k) as [E|E]; rewrite E in Hx; [eauto|done].
Qed.

(** After the cleanup no cell lies below [last], and the merged ranges
    left are those that touch no row between [last] and the old extent. *)
Lemma clean_extra_rows_spec last w :
  0 ≤ last →
  let w1 := exec (Processor.clean_extra_rows last) w in
  empty_below last w1 ∧
  merged_dissolved (λ r, last < r ≤ sheet_max_row w) w w1.
Proof.
  intros Hlast w1. subst w1. unfold Processor.clean_extra_rows, exec.
  erewrite (bind_ok ws_max_row) by reflexivity.
  destruct (last <? sheet_max_row w) eqn:E.
  - apply Z.ltb_lt in E.
    set (l := seqZ (last + 1) (sheet_max_row w + 1 - (last + 1))).
    destruct (unmerge_rows_spec l w) as (Hr & Hm & Hd).
    set (w' := exec (for_ l (λ row_to_clean, safely_unmerge_row_cells row_to_clean)) w) in *.
    erewrite (bind_ok (for_ _ _)); cycle 1.
    { rewrite (run_eta _ w), Hr. reflexivity. }
    fold w'. replace (0 <? sheet_max_row w - last) with true by (symmetry; apply Z.ltb_lt; lia).
    rewrite try_pass_all. cbn [snd]. split.
    + intros r c Hrc. apply delete_rows_to_end; [lia| |lia].
      pose proof (dissolves_max_row _ _ Hd). lia.
    + intros rg. rewrite delete_rows_merged.
      eapply merged_dissolved_ext; [|exact Hm]. intros r. simpl.
      subst l. rewrite elem_of_seqZ. lia.
  - apply Z.ltb_ge in E. cbn [snd mret M_ret]. split.
    + intros r c Hrc. destruct (cells w !! (r, c)) eqn:Hk; [|done].
      assert (r ≤ sheet_max_row w) by (eapply sheet_max_row_ge; eauto). lia.
    + intros rg. split; [intros; split; [done|]|tauto]. intros r Hr. lia.
Qed.

Lemma empty_below_placeholder_free last w :
  empty_below last w → placeholder_free (λ _, True) (last + 1) w.
Proof. intros He r c Hr _. unfold placeholder. rewrite He by lia. done. Qed.

End cleanup.

(** ** The trailing block of the processor script *)

Lemma kpf_npl {A} cols r0 (m : M A) :
  respects no_new_placeholder m → respects (keeps (placeholder_free cols r0)) m.
Proof. intros H ws HP. eapply placeholder_free_npl; [apply H|done]. Qed.

Lemma kpf_insert_rows cols r0 idx :
  r0 ≤ idx → respects (keeps (placeholder_free cols r0)) (insert_rows idx).
Proof. intros H ws HP. by apply placeholder_free_insert_rows. Qed.

Ltac respect_prim ::=
  lazymatch goal with
  | |- confined _ (set_height _ _) => apply confined_set_height
  | |- confined _ (safely_unmerge_row_cells _) => apply confined_safely_unmerge; lia
  | |- confined _ (_get_cell _ _) => apply confined__get_cell; lia
  | |- confined _ (cell _ _ _) => apply confined_cell; lia
  | |- confined _ (setitem _ _ _) => apply confined_setitem; lia
  | |- confined _ (set_value _ _) => apply confined_set_value; simpl; lia
  | |- confined _ (set_style _ _) => apply confined_set_style; simpl; lia
  | |- confined _ (insert_rows _) => apply confined_insert_rows; lia
  | |- confined _ (merge_cells _) => apply confined_merge_cells; simpl; lia
  | |- respects (same_outside _) (cell _ _ _) =>
      apply so_cell; simpl; split; [done|repeat constructor]
  | |- respects no_new_placeholder (set_height _ _) => apply npl_set_height
  | |- respects no_new_placeholder (safely_unmerge_row_cells _) => apply npl_safely_unmerge
  | |- respects no_new_placeholder (_get_cell _ _) => apply npl__get_cell
  | |- respects no_new_placeholder (cell _ _ _) => apply npl_cell
  | |- respects no_new_placeholder (set_value _ _) => apply npl_set_value
  | |- respects no_new_placeholder (set_style _ _) => apply npl_set_style
  | |- respects merged_same (set_height _ _) => apply ms_set_height
  | |- respects merged_same (_get_cell _ _) => apply ms__get_cell
  | |- respects merged_same (cell _ _ _) => apply ms_cell
  | |- respects merged_same (set_value _ _) => apply ms_set_value
  | |- respects merged_same (set_style _ _) => apply ms_set_style
  | |- respects merged_same (insert_rows _) => apply ms_insert_rows
  | |- respects (rows_only _) (set_height _ _) => apply ro_set_height
  | |- respects (rows_only _) (_get_cell _ _) => apply ro__get_cell; simpl; lia
  | |- respects (rows_only _) (cell _ _ _) => apply ro_cell; simpl; lia
  | |- respects (rows_only _) (set_value _ _) => apply ro_set_value; simpl; lia
  | |- respects (rows_only _) (set_style _ _) => apply ro_set_style; simpl; lia
  | |- respects (rows_only _) (merge_cells _) => apply ro_merge_cells; simpl; intros; lia
  | |- respects (keeps (placeholder_free _ _)) (insert_rows _) => apply kpf_insert_rows; lia
  | |- respects (keeps (placeholder_free _ _)) (set_height _ _) =>
      apply kpf_npl, npl_set_height
  | |- respects (keeps (placeholder_free _ _)) (safely_unmerge_row_cells _) =>
      apply kpf_npl, npl_safely_unmerge
  | |- respects (keeps (placeholder_free _ _)) (_get_cell _ _) => apply kpf_npl, npl__get_cell
  | |- respects (keeps (placeholder_free _ _)) (cell _ _ _) => apply kpf_npl, npl_cell
  | |- respects (keeps (placeholder_free _ _)) (set_value _ _) => apply kpf_npl, npl_set_value
  | |- respects (keeps (placeholder_free _ _)) (set_style _ _) => apply kpf_npl, npl_set_style
  end.

Section trailing.
Implicit Types (ws w : Worksheet) (last row cur : Z).

Lemma total_add_row cur : total (Processor.add_row cur).
Proof.
  unfold Processor.add_row.
  apply total_bind; [apply total_safely_unmerge|]. intros _.
  apply total_bind; [intros ws; by eexists|]. intros mr.
  apply total_bind; [destruct (mr <? cur); [apply total_modify|apply total_ret]|]. intros _.
  apply total_bind; [apply total_modify|]. intros _.
  apply total_try_except. intros; apply total_ret.
Qed.

Lemma add_row_dissolved cur w :
  merged_dissolved (λ r, r = cur) w (exec (Processor.add_row cur) w).
Proof.
  unfold Processor.add_row, exec.
  rewrite (bind_ok _ _ _ _ _ (safely_unmerge_ok cur w)).
  set (w1 := exec (safely_unmerge_row_cells cur) w).
  pose proof (safely_unmerge_dissolved cur w) as Hd. fold w1 in Hd.
  match goal with |- context [snd (?m w1)] =>
    assert (respects merged_same m) as Hms
      by (unfold Processor.blank_row; respect);
    pose proof (Hms w1) as Hm
  end.
  unfold exec, merged_same in Hm. intros rg. rewrite Hm. apply Hd.
Qed.

Lemma kpf_add_row cols r0 cur :
  r0 ≤ cur → respects (keeps (placeholder_free cols r0)) (Processor.add_row cur).
Proof. intros. unfold Processor.add_row, Processor.blank_row. respect. Qed.

Lemma add_rows_loop (l : list Z) last w :
  let m := for_ l (λ i, Processor.add_row (last + 1 + i)) in
  result m w = Ok tt ∧
  merged_dissolved (λ r, ∃ i, i ∈ l ∧ r = last + 1 + i) w (exec m w).
Proof.
  revert w. induction l as [|x l IH]; intros w m; subst m.
  - split; [done|]. intros rg. unfold exec; simpl. split; [intros; split; [done|]|tauto].
    intros r (i & Hi & _). by apply elem_of_nil in Hi.
  - rewrite exec_for_cons by apply total_add_row.
    cbn [for_]. rewrite (result_bind _ _ _ tt) by apply total_unit, total_add_row.
    destruct (IH (exec (Processor.add_row (last + 1 + x)) w)) as (Hr & Hm).
    split; [done|].
    eapply merged_dissolved_ext; [|eapply merged_dissolved_trans;
       [apply add_row_dissolved|apply Hm]].
    intros r. simpl. split.
    + intros [->|(i & Hi & ->)]; [exists x; split; [left|done]|exists i; split; [by right|done]].
    + intros (i & [->|Hi]%elem_of_cons & ->); [by left|right; eauto].
Qed.

(** [add_additional_rows] dissolves the merges of its nine rows and
    creates no placeholder. *)
Lemma add_additional_rows_spec last w :
  let w' := exec (Processor.add_additional_rows last) w in
  merged_dissolved (λ r, last + 1 ≤ r ≤ last + 9) w w' ∧
  (placeholder_free (λ _, True) (last + 1) w → placeholder_free (λ _, True) (last + 1) w').
Proof.
  intros w'. subst w'. split.
  - unfold Processor.add_additional_rows.
    destruct (add_rows_loop (seqZ 0 9) last w) as [Hr Hm].
    set (loop := for_ (seqZ 0 9) (λ i, Processor.add_row (last + 1 + i))) in *.
    assert (result (loop ;; mret (last + 1 + 8)) w = Ok (last + 1 + 8)) as Hbody.
    { by rewrite (result_bind _ _ _ tt) by done. }
    rewrite (proj1 (exec_try_ok _ _ _ _ _ Hbody)).
    rewrite (exec_bind _ _ _ tt) by done.
    eapply merged_dissolved_ext; [|exact Hm]. intros r. simpl. split.
    + intros (i & Hi%elem_of_seqZ & ->). lia.
    + intros Hr'. exists (r - last - 1). split; [apply elem_of_seqZ|]; lia.
  - revert w.
    change (respects (keeps (placeholder_free (λ _, True) (last + 1)))
              (Processor.add_additional_rows last)).
    unfold Processor.add_additional_rows.
    rule respects_try; [|intros; rule respects_ret].
    rule respects_bind; [|intros; rule respects_ret].
    rule respects_for. intros i Hi%elem_of_seqZ. apply kpf_add_row. lia.
Qed.

Lemma style_cell_run row col f w :
  1 ≤ row → 1 ≤ col →
  (c ← cell row col PNone; set_style c f) w =
  (Ok tt, set_cells (alter (map_style f) (row, col)) (set_cells (ensure_cell (row, col)) w)).
Proof. intros Hr Hc. by rewrite (bind_ok _ _ _ _ _ (cell_none_run row col w Hr Hc)). Qed.

Lemma ro_format_expedition_row last :
  respects (rows_only (λ r, r = last + 2)) (Processor.format_expedition_row last).
Proof. unfold Processor.format_expedition_row. respect. Qed.

(** With an ordinary cell (or none) at its anchor, the header of the
    trailing block is rendered. *)
Lemma format_expedition_row_spec last w :
  1 ≤ last + 2 → placeholder w (last + 2, 9) = false →
  let w' := exec (Processor.format_expedition_row last) w in
  header_at w' (last + 2) ∧ merged_added [Main.header_range (last + 2)] w w'.
Proof.
  intros Ht Hp w'. subst w'. unfold Processor.format_expedition_row.
  rewrite exec_try_pass. unfold exec. set (t := last + 2) in *.
  change {| min_row := t; min_col := 9; max_row := t; max_col := 12 |}
    with (Main.header_range t).
  rewrite (bind_ok _ _ _ _ _ (merge_cells_run _ w (valid_header_range t Ht))).
  set (w3 := merge_done (Main.header_range t) w).
  rewrite (bind_ok _ _ _ _ _ (cell_none_run t 9 w3 Ht ltac:(lia))).
  assert (placeholder w3 (t, 9) = false) as Hp3.
  { unfold placeholder. subst w3. rewrite merge_done_lookup.
    rewrite decide_False; cycle 1.
    { intros [_ Hne]%elem_of_tail_range_cells_iff. by apply Hne. }
    rewrite decide_True by done. unfold placeholder in Hp.
    by destruct (cells w !! (t, 9)). }
  destruct (ensure_cell_plain w3 (t, 9) Hp3) as (v & st & Hk).
  erewrite (bind_ok (set_value _ _)); cycle 1.
  { eapply set_value_run; [exact Hk|done]. }
  repeat (erewrite (bind_ok (set_style _ _)) by reflexivity).
  change (seqZ 9 (12 + 1 - 9)) with [9; 10; 11; 12]. cbn [for_].
  repeat (erewrite (bind_ok (_ ≫= _)) by (apply style_cell_run; lia)).
  cbn [mret M_ret snd].
  assert (∀ f x, merged (set_cells f x) = merged x) as Hmc by done.
  assert (∀ f x, cells (set_cells f x) = f (cells x)) as Hcc by done.
  assert (merged w3 = if decide (Main.header_range t ∈ merged w) then merged w
                      else merged w ++ [Main.header_range t]) as Hm3 by done.
  split.
  - split.
    + rewrite !Hmc, Hm3. case_decide; [done|]. apply elem_of_app. right. left.
    + eexists. rewrite !Hcc.
      repeat first [rewrite lookup_alter_ne by (intros ?; simplify_eq)
                   |rewrite ensure_cell_lookup_ne by (intros ?; simplify_eq)].
      rewrite lookup_alter_eq, ensure_cell_lookup, decide_True by done.
      rewrite !lookup_alter_eq, lookup_insert_eq. cbn.
      split; [reflexivity|]. unfold bordered. cbn. split_and!; eauto.
  - intros rg. rewrite !Hmc, Hm3. rewrite list_elem_of_singleton.
    destruct (decide (Main.header_range t ∈ merged w)) as [Hin|Hin].
    + split; [by left|]. intros [?|E]; [done|by subst].
    + rewrite elem_of_app, list_elem_of_singleton. done.
Qed.

Lemma ro_format_palette_info_row last :
  respects (rows_only (λ r, r = last + 3)) (Processor.format_palette_info_row last).
Proof. unfold Processor.format_palette_info_row. respect. Qed.

Lemma ro_format_final_rows last :
  respects (rows_only (λ r, last + 4 ≤ r ≤ last + 7)) (Processor.format_final_rows last).
Proof. unfold Processor.format_final_rows. respect. Qed.

Lemma ro_format_footer_rows last :
  respects (rows_only (λ r, r = last + 8 ∨ r = last + 9)) (Processor.format_footer_rows last).
Proof. unfold Processor.format_footer_rows. respect. Qed.

Lemma ms_format_footer_rows last : respects merged_same (Processor.format_footer_rows last).
Proof. unfold Processor.format_footer_rows. respect. Qed.

Lemma merge_done_added rg w : merged_added [rg] w (merge_done rg w).
Proof.
  intros x. cbn [merged merge_done]. rewrite list_elem_of_singleton. case_decide.
  - split; [by left|]. intros [?|E]; [done|by subst].
  - rewrite elem_of_app, list_elem_of_singleton. done.
Qed.

(** With an ordinary cell (or none) in column I of its row, the label
    row reaches its merge of J:K. *)
Lemma format_palette_info_row_spec last w :
  1 ≤ last + 3 → placeholder w (last + 3, 9) = false →
  merged_added [{| min_row := last + 3; min_col := 10; max_row := last + 3; max_col := 11 |}]
    w (exec (Processor.format_palette_info_row last) w).
Proof.
  intros Ht Hp. unfold Processor.format_palette_info_row.
  rewrite exec_try_pass. unfold exec. set (t := last + 3) in *.
  rewrite (bind_ok _ _ _ _ _ (cell_none_run t 9 w Ht ltac:(lia))).
  destruct (ensure_cell_plain w (t, 9) Hp) as (v & st & Hk).
  erewrite (bind_ok (set_value _ _)); cycle 1.
  { eapply set_value_run; [exact Hk|done]. }
  repeat (erewrite (bind_ok (set_style _ _)) by reflexivity).
  erewrite (bind_ok (merge_cells _)); cycle 1.
  { apply merge_cells_run. unfold valid_range. cbn. rewrite !andb_true_iff, !Z.leb_le. lia. }
  match goal with |- context [snd (?m (merge_done ?rg ?x))] =>
    assert (respects merged_same m) as Hms by respect;
    pose proof (Hms (merge_done rg x)) as Hm;
    pose proof (merge_done_added rg x) as Ha
  end.
  unfold exec, merged_same in Hm. intros x. rewrite Hm. apply Ha.
Qed.

(** The notes box is always merged. *)
Lemma format_final_rows_spec last w :
  1 ≤ last + 4 →
  merged_added [{| min_row := last + 4; min_col := 10; max_row := last + 7; max_col := 11 |}]
    w (exec (Processor.format_final_rows last) w).
Proof.
  intros Ht. unfold Processor.format_final_rows.
  rewrite exec_try_pass. unfold exec.
  match goal with |- context [for_ ?l ?b ≫= _] =>
    destruct (for_result_ok (λ x, merged x = merged w) l b w) as [Hres Hm1];
      [|done|set (w1 := exec (for_ l b) w) in *]
  end.
  { intros row Hrow%elem_of_seqZ x Hx. split.
    - unfold result. rewrite style_cell_run by lia. done.
    - unfold exec. rewrite style_cell_run by lia. done. }
  erewrite (bind_ok (for_ _ _)); cycle 1.
  { rewrite (run_eta _ w), Hres. reflexivity. }
  fold w1.
  erewrite (bind_ok (merge_cells _)); cycle 1.
  { apply merge_cells_run. unfold valid_range. cbn. rewrite !andb_true_iff, !Z.leb_le. lia. }
  match goal with |- context [snd (?m (merge_done ?rg ?x))] =>
    assert (respects merged_same m) as Hms by respect;
    pose proof (Hms (merge_done rg x)) as Hm;
    pose proof (merge_done_added rg x) as Ha
  end.
  unfold exec, merged_same in Hm. intros x. rewrite Hm.
  unfold merged_added in Ha. rewrite Ha, Hm1. done.
Qed.

Lemma render_trailing_block_steps last w :
  exec (Processor.render_trailing_block last) w =
  exec (Processor.format_footer_rows last)
    (exec (Processor.format_final_rows last)
       (exec (Processor.format_palette_info_row last)
          (exec (Processor.format_expedition_row last)
             (exec (Processor.add_additional_rows last) w)))).
Proof.
  unfold Processor.render_trailing_block.
  destruct (total_add_additional_rows last w) as [a Ha].
  rewrite (exec_bind _ _ _ a) by done.
  rewrite (exec_bind _ _ _ tt) by apply total_unit, total_format_expedition_row.
  rewrite (exec_bind _ _ _ tt) by apply total_unit, total_format_palette_info_row.
  rewrite (exec_bind _ _ _ tt) by apply total_unit, total_format_final_rows.
  done.
Qed.

(** On a sheet without placeholders below [last], the trailing block is
    rendered: the header stands at row [last + 2], and the merged
    ranges are the three of the block and the old ones that touch none
    of the nine rows of the block. *)
Lemma render_trailing_block_spec last w :
  0 ≤ last → placeholder_free (λ _, True) (last + 1) w →
  let w' := exec (Processor.render_trailing_block last) w in
  header_at w' (last + 2) ∧
  ∀ rg, rg ∈ merged w' ↔
        (rg ∈ merged w ∧ ∀ r, last + 1 ≤ r ≤ last + 9 → ¬ touches_row r rg) ∨
        rg ∈ trailing_ranges last.
Proof.
  intros Hlast Hfree w'. subst w'. rewrite render_trailing_block_steps.
  destruct (add_additional_rows_spec last w) as [Hd2 Hf2].
  set (w2 := exec (Processor.add_additional_rows last) w) in *.
  specialize (Hf2 Hfree).
  destruct (format_expedition_row_spec last w2) as [Hh3 Ha3]; [lia|apply Hf2; [lia|done]|].
  pose proof (ro_format_expedition_row last w2) as Hr3.
  set (w3 := exec (Processor.format_expedition_row last) w2) in *.
  assert (placeholder w3 (last + 3, 9) = false) as Hp3.
  { unfold placeholder. rewrite Hr3 by lia. apply Hf2; [lia|done]. }
  pose proof (format_palette_info_row_spec last w3 ltac:(lia) Hp3) as Ha4.
  pose proof (ro_format_palette_info_row last w3) as Hr4.
  set (w4 := exec (Processor.format_palette_info_row last) w3) in *.
  pose proof (format_final_rows_spec last w4 ltac:(lia)) as Ha5.
  pose proof (ro_format_final_rows last w4) as Hr5.
  set (w5 := exec (Processor.format_final_rows last) w4) in *.
  pose proof (ms_format_footer_rows last w5) as Hm6.
  pose proof (ro_format_footer_rows last w5) as Hr6.
  set (w6 := exec (Processor.format_footer_rows last) w5) in *.
  unfold merged_same, merged_added, merged_dissolved, rows_only in *.
  split.
  - destruct Hh3 as [Hin (st & Hst & Hfmt)]. split.
    + rewrite Hm6. apply Ha5. left. apply Ha4. by left.
    + exists st. split; [|done].
      rewrite Hr6, Hr5, Hr4 by lia. done.
  - intros rg. rewrite Hm6, Ha5, Ha4, Ha3, Hd2.
    rewrite !list_elem_of_singleton. unfold trailing_ranges.
    rewrite !elem_of_cons, elem_of_nil. unfold Main.header_range. tauto.
Qed.

End trailing.

(** ** Cleanup followed by the trailing block *)

Lemma clean_render_spec last w :
  0 ≤ last →
  let w1 := exec (Processor.clean_extra_rows last) w in
  let w2 := exec (Processor.render_trailing_block last) w1 in
  empty_below last w1 ∧
  merged_dissolved (λ r, last < r ≤ sheet_max_row w) w w1 ∧
  header_at w2 (last + 2) ∧
  ∀ rg, rg ∈ merged w2 ↔
        (rg ∈ merged w ∧
         ∀ r, last < r ≤ Z.max (sheet_max_row w) (last + 9) → ¬ touches_row r rg) ∨
        rg ∈ trailing_ranges last.
Proof.
  intros Hlast w1 w2. subst w1 w2.
  destruct (clean_extra_rows_spec last w Hlast) as [He Hd].
  set (w1 := exec (Processor.clean_extra_rows last) w) in *.
  destruct (render_trailing_block_spec last w1 Hlast) as [Hh Hm].
  { by apply empty_below_placeholder_free. }
  split_and!; [done..|].
  intros rg. rewrite Hm. unfold merged_dissolved in Hd. rewrite Hd. split.
  - intros [[[Hin Hn1] Hn2]|?]; [left|by right]. split; [done|].
    intros r Hr. destruct (decide (r ≤ sheet_max_row w)); [apply Hn1|apply Hn2]; lia.
  - intros [[Hin Hn]|?]; [left|by right]. split_and!; [done|..]; intros r Hr; apply Hn; lia.
Qed.

Lemma items_written_placeholder_free cols r0 items ws :
  r0 ≤ 14 → placeholder_free cols r0 ws → placeholder_free cols r0 (items_written items ws).
Proof.
  intros Hr0 HP. unfold items_written.
  eapply placeholder_free_npl; [apply npl_write_products|].
  by apply placeholder_free_prepare.
Qed.

Lemma box_done_placeholder_free cols r0 reqs ws wsB :
  10 ≤ r0 → box_done reqs ws wsB → placeholder_free cols r0 ws → placeholder_free cols r0 wsB.
Proof.
  intros Hr0 (_ & _ & Hc & _) HP r c Hr Hcol. unfold placeholder.
  rewrite Hc by (simpl; lia). by apply HP.
Qed.

(** ** Which merged ranges the item rows cost *)

#[global] Instance merged_kept_preorder rows : PreOrder (merged_kept rows).
Proof.
  split.
  - intros ws. split; auto.
  - intros a b c [H1 H2] [H3 H4]. split; [auto|]. intros rg Hin Hr. apply H4; auto.
Qed.

Lemma mk_ms {A} rows (m : M A) : respects merged_same m → respects (merged_kept rows) m.
Proof. intros H ws. specialize (H ws). unfold merged_same in H. split; rewrite H; auto. Qed.

Lemma mk_safely_unmerge (rows : Z → Prop) row :
  rows row → respects (merged_kept rows) (safely_unmerge_row_cells row).
Proof.
  intros Hrow ws. pose proof (safely_unmerge_dissolved row ws) as Hd.
  unfold merged_dissolved in Hd. split; intros rg Hin.
  - by apply Hd in Hin as [? _].
  - intros Hr. apply Hd. split; [done|]. intros r ->. by apply Hr.
Qed.

Lemma mk_copy_row_format (rows : Z → Prop) src tgt :
  rows tgt → respects (merged_kept rows) (copy_row_format src tgt).
Proof.
  intros Hr. unfold copy_row_format.
  rule respects_try; [|intros; rule respects_ret].
  rule respects_bind; [rule respects_reads|intros h].
  rule respects_bind; [apply mk_ms, ms_set_height|intros _].
  rule respects_bind; [by apply mk_safely_unmerge|intros _].
  apply mk_ms. respect.
Qed.

Lemma mk_prepare_product_rows n :
  respects (merged_kept (λ r, 14 ≤ r ≤ 11 + n)) (prepare_product_rows n).
Proof.
  unfold prepare_product_rows. destruct (n <=? 2) eqn:Hn; [rule respects_ret|].
  apply Z.leb_gt in Hn.
  rule respects_for. intros i Hi%elem_of_seqZ.
  rule respects_try; [|intros; rule respects_ret].
  rule respects_bind; [apply mk_ms, ms_insert_rows|intros _].
  rule respects_bind; [apply mk_copy_row_format; lia|intros _].
  apply mk_ms. respect.
Qed.

Lemma write_products_merged items : ∀ k ws,
  merged_dissolved (λ r, 11 + k ≤ r < 11 + k + Z.of_nat (length items)) ws
    (exec (for_ (enumerate k items) (λ ip, set_product_data (11 + ip.1) ip.2)) ws).
Proof.
  unfold merged_dissolved.
  induction items as [|x items IH]; intros k ws rg.
  - cbn. split; [intros ?; split; [done|intros; lia]|by intros [? _]].
  - cbn [enumerate]. rewrite exec_for_cons by apply total_set_product_data.
    cbn [fst snd]. rewrite (IH (k + 1)).
    destruct (set_product_data_effect (11 + k) x ws (11 + k + 1, 0)) as (_ & -> & _).
    { cbn. lia. }
    rewrite list_elem_of_filter. cbn [length]. split.
    + intros [[Hnt Hin] Hr]. split; [done|]. intros r Hrange.
      destruct (decide (r = 11 + k)) as [->|]; [done|]. apply Hr. lia.
    + intros [Hin Hr]. split; [split; [apply Hr; lia|done]|]. intros r Hrange. apply Hr. lia.
Qed.

Lemma items_written_merged items ws :
  merged_dissolved (λ r, 12 ≤ r ≤ 11 + Z.of_nat (length items)) ws (items_written items ws).
Proof.
  unfold items_written.
  destruct (mk_prepare_product_rows (Z.of_nat (length items)) ws) as [Hk1 Hk2].
  set (wP := exec (prepare_product_rows (Z.of_nat (length items))) ws) in *.
  pose proof (write_products_merged items 1 wP) as Hw. fold (write_products items) in Hw.
  intros rg. unfold merged_dissolved in Hw. rewrite Hw. split.
  - intros [Hin Hr]. split; [by apply Hk1|]. intros r Hrange. apply Hr. lia.
  - intros [Hin Hr]. split; [|intros r ?; apply Hr; lia].
    apply Hk2; [done|]. intros r ?. apply Hr. lia.
Qed.

Lemma header_cells_plain_preserved ws ws' :
  changes_below 12 ws ws' → header_cells_plain ws → header_cells_plain ws'.
Proof.
  intros (Hc & _) [H1 H2].
  assert (∀ r c, r < 12 → placeholder ws (r, c) = false → placeholder ws' (r, c) = false) as Hp.
  { intros r c Hr Hpl. unfold placeholder in *. by destruct (Hc r c Hr) as [->|[-> _]]. }
  split; [intros r Hr; apply Hp; [lia|by apply H1]|apply Hp; [lia|done]].
Qed.

(** ** The layout the processor script leaves *)

Lemma processor_layout d reqs items ws :
  order_record (PDict d) reqs items → header_cells_plain ws →
  let last := match items with [] => 12 | _ => 11 + Z.of_nat (length items) end in
  merged_above_or (trailing_ranges last) ws →
  let w' := exec (Processor.map_data_to_excel (PDict d)) ws in
  header_cells_plain w' ∧ header_at w' (last + 2) ∧
  ∀ rg, rg ∈ merged w' ↔
        (rg ∈ merged ws ∧ max_row rg < 12) ∨ rg = reqs_box ∨ rg ∈ trailing_ranges last.
Proof.
  intros Hrec Hplain last Hinv w'. subst w'.
  assert (12 ≤ last ∧ 11 + Z.of_nat (length items) ≤ last) as [Hlast Hn].
  { subst last. destruct items; cbn [length]; lia. }
  destruct (processor_box d reqs items ws Hrec Hplain) as (wsB & Hdone & ->).
  destruct Hdone as (_ & HmB & _ & HplB).
  destruct Hrec as (d' & [= <-] & _ & _ & _ & _ & _ & _ & Hitems).
  split.
  { apply (header_cells_plain_preserved wsB); [|done].
    apply confined_processor_tail. lia. }
  rewrite (processor_tail_run d items wsB Hitems). fold last.
  destruct (clean_render_spec last (items_written items wsB)) as (_ & _ & Hh & Hm); [lia|].
  split; [exact Hh|]. intros rg. rewrite Hm.
  pose proof (items_written_merged items wsB rg) as ->. rewrite HmB. split.
  - intros [[[[Hin| ->] _] _]|?]; [|by right; left|by right; right].
    destruct (Hinv _ Hin) as [?|?]; [left; split; [done|unfold first_item_row in *; lia]|].
    by right; right.
  - intros [[Hin Hmax]|[->|?]]; [left|left|by right].
    + split_and!; [by left|..]; intros r Hr Ht%touches_row_spec; lia.
    + split_and!; [by right|..]; intros r Hr Ht%touches_row_spec; cbn in Ht; lia.
Qed.

(** ** Placeholders on the way to the header of [main.py] *)

Lemma delete_each_present (ks : list (Z * Z)) : ∀ ws,
  NoDup ks → (∀ k, k ∈ ks → is_Some (cells ws !! k)) →
  result (delete_each ks) ws = Ok tt.
Proof.
  induction ks as [|k ks IH]; intros ws Hnd Hall; [done|].
  apply NoDup_cons in Hnd as [Hk Hnd].
  destruct (Hall k ltac:(left)) as [x Hx].
  unfold result. cbn [delete_each]. erewrite bind_ok by reflexivity.
  rewrite Hx. erewrite bind_ok by reflexivity.
  apply (IH (set_cells (delete k) ws)); [done|].
  intros k' Hk'. cbn. rewrite lookup_delete_ne by (by intros ->). apply Hall. by right.
Qed.

Lemma unmerge_cells_run r ws l' :
  list_remove r (merged ws) = Some l' →
  unmerge_cells r ws = delete_each (tail (range_cells r)) (set_merged (λ _, l') ws).
Proof.
  intros Hrem.
  assert (existsb (issubset r) (merged ws) = true) as Hex.
  { apply existsb_exists. exists r. split; [|apply issubset_refl].
    apply list_elem_of_In. by apply list_remove_Some in Hrem as [? _]. }
  unfold unmerge_cells. erewrite bind_ok by reflexivity. rewrite Hex, Hrem.
  by erewrite bind_ok by reflexivity.
Qed.

(** Unmerging a header range whose placeholders are all there leaves
    none of them. *)
Lemma unmerge_header_clears t w :
  Main.header_range t ∈ merged w →
  (∀ c, 10 ≤ c ≤ 12 → is_Some (cells w !! (t, c))) →
  ∀ c, 10 ≤ c ≤ 12 →
    cells (exec (Main.unmerge_if_present (Main.header_range t)) w) !! (t, c) = None.
Proof.
  intros Hin Hall c Hc. unfold exec. rewrite unmerge_if_present_run. cbn [snd].
  rewrite decide_True by done.
  destruct (list_remove_elem _ _ Hin) as [l' Hrem].
  destruct (unmerge_cells_present _ _ _ Hrem) as (_ & _ & _ & _ & Hnone).
  apply Hnone.
  - unfold result. rewrite (unmerge_cells_run _ _ _ Hrem).
    apply delete_each_present.
    + pose proof (range_cells_NoDup (Main.header_range t)) as Hnd.
      destruct (range_cells (Main.header_range t)); [done|].
      by apply NoDup_cons in Hnd as [_ ?].
    + intros [r' c'] [[Hr' Hc'] Hne]%elem_of_tail_range_cells_iff. cbn in *.
      assert (r' = t) as -> by lia. apply Hall.
      destruct (decide (c' = 9)) as [->|]; [done|lia].
  - apply elem_of_tail_range_cells_iff. cbn. split; [lia|]. intros [= ?]. lia.
Qed.

Lemma free_rows_npl lo hi ws ws' :
  no_new_placeholder ws ws' → free_rows lo hi ws → free_rows lo hi ws'.
Proof. intros H HF r c Hr. apply H. by apply HF. Qed.

Lemma kfr_npl {A} lo hi (m : M A) :
  respects no_new_placeholder m → respects (keeps (free_rows lo hi)) m.
Proof. intros H ws HF. eapply free_rows_npl; [apply H|done]. Qed.

Lemma free_rows_mono lo hi hi' ws : hi' ≤ hi → free_rows lo hi ws → free_rows lo hi' ws.
Proof. intros H HF r c Hr. apply HF. lia. Qed.

(** A row inserted inside or right below a stretch of rows without
    placeholders makes the stretch one row longer. *)
Lemma free_rows_insert_rows lo hi idx ws :
  lo ≤ idx → free_rows lo hi ws →
  free_rows lo (if decide (idx ≤ hi) then hi + 1 else hi) (exec (insert_rows idx) ws).
Proof.
  intros Hlo HF r c. unfold placeholder. rewrite insert_rows_lookup.
  destruct (decide (idx ≤ hi)); intros Hr.
  - destruct (decide (r < idx)); [apply HF; lia|].
    destruct (decide (r = idx)); [done|]. apply HF. lia.
  - destruct (decide (r < idx)); [apply HF; lia|].
    destruct (decide (r = idx)); [done|]. apply HF. lia.
Qed.

Lemma kfr_insert_rows lo hi idx :
  lo ≤ idx → respects (keeps (free_rows lo hi)) (insert_rows idx).
Proof.
  intros Hlo ws HF. eapply free_rows_mono; [|by apply free_rows_insert_rows].
  case_decide; lia.
Qed.

Lemma free_rows_prepare hi n ws :
  (2 < n → 14 ≤ hi) → free_rows 12 hi ws →
  free_rows 12 (if decide (n ≤ 2) then hi else hi + 1) (exec (prepare_product_rows n) ws).
Proof.
  intros Hhi HF. unfold prepare_product_rows.
  destruct (n <=? 2) eqn:Hn.
  { apply Z.leb_le in Hn. by rewrite decide_True by done. }
  apply Z.leb_gt in Hn. rewrite decide_False by lia. specialize (Hhi Hn).
  match goal with |- context [for_ _ ?b] => set (body := b) end.
  assert (∀ i h, 0 ≤ i → respects (keeps (free_rows 12 h)) (body i)) as Hkeep.
  { intros i h Hi. subst body. cbv beta.
    rule respects_try; [|intros; rule respects_ret].
    rule respects_bind; [apply kfr_insert_rows; lia|intros _].
    rule respects_bind; [apply kfr_npl, npl_copy_row_format|intros _].
    rule respects_bind; [apply kfr_npl, npl_cell|intros; rule respects_ret]. }
  rewrite seqZ_cons by lia.
  rewrite exec_for_cons by (subst body; apply total_try_except; intros; apply total_ret).
  assert (free_rows 12 (hi + 1) (exec (body 0) ws)) as HF1.
  { subst body. cbv beta. rewrite exec_try_pass.
    rewrite (exec_bind _ _ _ tt) by (unfold result; by rewrite insert_rows_run).
    assert (free_rows 12 (hi + 1) (exec (insert_rows (14 + 0)) ws)) as HF0.
    { pose proof (free_rows_insert_rows 12 hi (14 + 0) ws ltac:(lia) HF) as H.
      by rewrite decide_True in H by lia. }
    revert HF0. generalize (exec (insert_rows (14 + 0)) ws).
    change (respects (keeps (free_rows 12 (hi + 1)))
              (copy_row_format 13 (14 + 0) ;; cell (14 + 0) 1 (row_label (3 + 0)) ;; mret tt)).
    rule respects_bind; [apply kfr_npl, npl_copy_row_format|intros _].
    rule respects_bind; [apply kfr_npl, npl_cell|intros; rule respects_ret]. }
  revert HF1. generalize (exec (body 0) ws).
  change (respects (keeps (free_rows 12 (hi + 1))) (for_ (seqZ (Z.succ 0) (Z.pred (n - 2))) body)).
  rule respects_for. intros i Hi%elem_of_seqZ. apply Hkeep. lia.
Qed.

(** Outside the item rows the item writes leave every cell alone when
    no merged range touches an item row. *)
Lemma write_products_cells items : ∀ k ws r c,
  (∀ rg j, rg ∈ merged ws → 11 + k ≤ j < 11 + k + Z.of_nat (length items) →
           ¬ touches_row j rg) →
  ¬ (11 + k ≤ r < 11 + k + Z.of_nat (length items)) →
  cells (exec (for_ (enumerate k items) (λ ip, set_product_data (11 + ip.1) ip.2)) ws)
    !! (r, c) = cells ws !! (r, c).
Proof.
  induction items as [|x items IH]; intros k ws r c Hfree Hr; [done|].
  cbn [enumerate]. rewrite exec_for_cons by apply total_set_product_data.
  cbn [fst snd]. cbn [length] in *.
  destruct (set_product_data_effect (11 + k) x ws (r, c)) as (Hc & Hm & _).
  { cbn. lia. }
  rewrite (IH (k + 1)).
  - destruct Hc as [->|[_ (rg & Hin & Ht & _)]]; [done|].
    exfalso. apply (Hfree rg (11 + k)); [done|lia|done].
  - intros rg j Hin Hj. rewrite Hm in Hin. apply list_elem_of_filter in Hin as [_ Hin].
    apply Hfree; [done|lia].
  - lia.
Qed.

Lemma ro_unmerge_if_present t :
  respects (rows_only (λ r, r = t)) (Main.unmerge_if_present (Main.header_range t)).
Proof.
  intros ws r c Hr.
  destruct (unmerge_if_present_spec (Main.header_range t) ws) as (_ & _ & Hc).
  destruct (Hc (r, c)) as [->|[_ Hin]]; [done|].
  apply elem_of_tail_range_cells_iff in Hin as [[Hrow _] _]. cbn in Hrow. lia.
Qed.

Lemma ro_clear_cell t col :
  respects (rows_only (λ r, r = t)) (Main.clear_cell t col).
Proof. unfold Main.clear_cell. respect. Qed.

Lemma ro_recreate t :
  respects (rows_only (λ r, r = t)) (Main._recreate_expedicia_section t).
Proof.
  unfold Main._recreate_expedicia_section.
  rule respects_bind; [apply ro_unmerge_if_present|intros _].
  rule respects_bind; [rule respects_for; intros; apply ro_clear_cell|intros _].
  respect.
Qed.

(** ** The layout [main.py] leaves *)

Lemma main_layout d reqs items ws :
  order_record (PDict d) reqs items → header_cells_plain ws →
  let t := 11 + Z.of_nat (length items) + 2 in
  merged_above_or [Main.header_range t] ws → header_row_ready t ws →
  let w' := exec (Main.map_data_to_excel (PDict d)) ws in
  header_cells_plain w' ∧ header_at w' t ∧
  (∀ rg, rg ∈ merged w' ↔ rg ∈ merged ws ∨ rg = reqs_box ∨ rg = Main.header_range t) ∧
  header_row_ready t w'.
Proof.
  intros Hrec Hplain t Hinv (Hfree & H9 & HJL) w'. subst w'.
  destruct (main_box d reqs items ws Hrec Hplain) as (wsB & Hdone & ->).
  destruct Hdone as (_ & HmB & HcB & HplB).
  destruct Hrec as (d' & [= <-] & _ & _ & _ & _ & _ & _ & Hitems).
  split.
  { apply (header_cells_plain_preserved wsB); [|done]. apply confined_main_tail. lia. }
  rewrite (main_tail_run d items wsB Hitems). fold t.
  set (n := Z.of_nat (length items)) in *.
  assert (0 ≤ n) as Hn0 by (subst n; lia).
  assert (t = 11 + n + 2) as Et by reflexivity. clearbody t.
  set (wC := items_written items wsB).
  assert (∀ rg, rg ∈ merged wsB → ∀ r, 12 ≤ r ≤ 11 + n → ¬ touches_row r rg) as Huntouched.
  { intros rg Hin r Hr Ht%touches_row_spec. apply HmB in Hin as [Hin| ->]; [|cbn in Ht; lia].
    destruct (Hinv _ Hin) as [?|E%list_elem_of_singleton]; [unfold first_item_row in *; lia|].
    subst rg. cbn in Ht. lia. }
  assert (∀ rg, rg ∈ merged wC ↔ rg ∈ merged ws ∨ rg = reqs_box) as HmC.
  { intros rg. unfold wC. pose proof (items_written_merged items wsB rg) as ->. fold n.
    rewrite <- HmB. split; [tauto|]. intros Hin. split; [done|]. by apply Huntouched. }
  assert (∀ r c, 10 ≤ r → cells wsB !! (r, c) = cells ws !! (r, c)) as HpB.
  { intros r c Hr. apply HcB. simpl. lia. }
  assert (free_rows 12 t wsB) as HfB.
  { intros r c Hr. unfold placeholder. rewrite HpB by lia. by apply Hfree. }
  assert (free_rows 12 (if decide (n ≤ 2) then t else t + 1) wC) as HfC'.
  { apply (free_rows_npl _ _ (exec (prepare_product_rows n) wsB)).
    - apply npl_write_products.
    - apply (free_rows_prepare t n wsB); [lia|done]. }
  assert (free_rows 12 t wC) as HfC.
  { eapply free_rows_mono; [|exact HfC']. case_decide; lia. }
  assert (∀ c, 9 ≤ c ≤ 12 →
            placeholder (exec (Main.unmerge_if_present (Main.header_range t)) wC) (t, c)
            = false) as Hrow.
  { destruct (decide (n ≤ 2)) as [Hn|Hn].
    - assert (∀ c, cells wC !! (t, c) = cells ws !! (t, c)) as Ht.
      { intros c. subst wC. unfold items_written. fold n.
        assert (exec (prepare_product_rows n) wsB = wsB) as ->.
        { unfold prepare_product_rows. by rewrite (proj2 (Z.leb_le _ _) Hn). }
        unfold write_products. rewrite write_products_cells; [apply HpB; lia| |lia].
        intros rg j Hin Hj. apply Huntouched; [done|lia]. }
      intros c Hc. destruct (decide (c = 9)) as [->|Hc9].
      + eapply dissolves_placeholder; [apply dissolves_unmerge_if_present|].
        unfold placeholder. rewrite Ht. exact H9.
      + destruct HJL as [HJL|[Hin Hall]].
        * eapply dissolves_placeholder; [apply dissolves_unmerge_if_present|].
          unfold placeholder. rewrite Ht. apply HJL. lia.
        * unfold placeholder. rewrite unmerge_header_clears; [done| | |lia].
          -- apply HmC. by left.
          -- intros c' Hc'. rewrite Ht. by apply Hall.
    - intros c Hc. eapply dissolves_placeholder; [apply dissolves_unmerge_if_present|].
      apply HfC'. lia. }
  destruct (recreate_header_after t wC ltac:(lia) Hrow) as (Hh & Hadd & Hph).
  pose proof (ro_recreate t wC) as Hro. unfold rows_only in Hro.
  split; [exact Hh|]. split.
  { intros rg. unfold merged_added in Hadd. rewrite Hadd, HmC, list_elem_of_singleton. tauto. }
  split_and!.
  - intros r c Hr. unfold placeholder. rewrite Hro by lia. by apply HfC.
  - destruct Hh as [_ (st & Hc & _)]. unfold placeholder. by rewrite Hc.
  - right. split.
    + apply Hadd. right. left.
    + intros c Hc. by rewrite Hph.
Qed.

(** * The claims *)

(** ** The merge-dissolve utility (C6) *)

(** C6.  On every sheet and for every row index the merge-dissolve
    utility returns without raising; afterwards no merged range touches
    the row, and an immediately repeated call returns without raising
    and leaves the sheet exactly as the first call left it.  (A row that
    touches no merged range is the case where already the first call
    changes nothing, [safely_unmerge_noop].) *)
Theorem C6_dissolve_never_raises_and_is_idempotent (ws : Worksheet) (row : Z) :
  let ws' := exec (safely_unmerge_row_cells row) ws in
  safely_unmerge_row_cells row ws = (Ok tt, ws') ∧
  filter (λ rg, touches_row row rg) (merged ws') = [] ∧
  safely_unmerge_row_cells row ws' = (Ok tt, ws').
Proof.
  intros ws'. assert (filter (λ rg, touches_row row rg) (merged ws') = []) as Hnone.
  { subst ws'. destruct (safely_unmerge_spec row ws) as (_ & -> & _).
    induction (merged ws) as [|x l IH]; [done|].
    destruct (decide (touches_row row x)) as [Hx|Hx].
    - by rewrite (filter_cons_False (λ rg, ¬ touches_row row rg)) by tauto.
    - rewrite (filter_cons_True (λ rg, ¬ touches_row row rg)) by done.
      by rewrite filter_cons_False. }
  split_and!; [apply safely_unmerge_run|done|by apply safely_unmerge_noop].
Qed.

(** ** The last item row (C4) *)

(** C4, as stated, fails on an empty order: [main.py] has no floor at
    all (it computes row 11), and the processor script floors at row 12,
    the first item row, not at the template's second item row. *)
Lemma C4_counterexample :
  Main.last_product_row (PList []) ≠ Ok (spec_last_item_row 0) ∧
  Processor.last_item_row (PList []) ≠ Ok (spec_last_item_row 0).
Proof. split; vm_compute; discriminate. Qed.

(** C4, amended.  For a list of [item_count] items [main.py] computes
    [first_item_row + item_count - 1] whatever the count (row 11 for an
    empty order), and the processor script computes the same row for a
    non-empty order and the first item row, 12, for an empty one. *)
Theorem C4_last_item_row (items : list PyVal) :
  Main.last_product_row (PList items)
    = Ok (first_item_row + Z.of_nat (length items) - 1) ∧
  Processor.last_item_row (PList items)
    = Ok (match items with
          | [] => first_item_row
          | _ => first_item_row + Z.of_nat (length items) - 1
          end).
Proof.
  unfold Main.last_product_row, Processor.last_item_row, first_item_row.
  destruct items as [|x items]; simpl; split; f_equal; lia.
Qed.

(** ** Null fields of an item (C5) *)

(** C5 on the failing input: an item whose "Item Name" is JSON [null],
    written to row 12.  On a sheet whose B12 holds "old" the cell keeps
    "old"; on the blank template B12 stays without a value; only a
    field that is absent altogether ("Embossing Data" here, column C)
    is stored as the empty string. *)
Theorem C5_null_field_is_not_blanked :
  value_at (exec (set_product_data 12 null_name_item) used_row_sheet) (12, 2) = PStr "old" ∧
  value_at (exec (set_product_data 12 null_name_item) blank_template) (12, 2) = PNone ∧
  value_at (exec (set_product_data 12 null_name_item) blank_template) (12, 3) = PStr "".
Proof. split_and!; vm_compute; reflexivity. Qed.

(** ** The failure policy of the assembler (C9) *)

(** C9, as stated, fails: with ["Items": null] the call [len(items)]
    raises inside the assembler's own [try]; the handler returns the
    workbook at once, and the remaining steps are not run: no trailing
    block header is rendered at any row. *)
Lemma C9_counterexample :
  result (Processor.map_data_to_excel null_items_order) blank_template = Ok tt ∧
  merged (exec (Processor.map_data_to_excel null_items_order) blank_template) = [reqs_box] ∧
  merged (exec (Main.map_data_to_excel null_items_order) blank_template) = [reqs_box] ∧
  ∀ t, ¬ header_at (exec (Processor.map_data_to_excel null_items_order) blank_template) t.
Proof.
  assert (merged (exec (Processor.map_data_to_excel null_items_order) blank_template)
          = [reqs_box]) as Hm by (vm_compute; reflexivity).
  split_and!; [vm_compute; reflexivity|done|vm_compute; reflexivity|].
  intros t [Hin _]. rewrite Hm in Hin.
  apply list_elem_of_singleton in Hin. unfold Main.header_range, reqs_box in Hin.
  injection Hin; lia.
Qed.

(** C9, amended.  Neither assembler ever propagates an exception, and
    each returns (the workbook is the final state).  The sub-operations
    that carry a handler of their own (row provisioning, the item row
    writer, the stale-row cleanup, the trailing-block rendering and the
    helpers below them) never raise either, so an error inside one of
    them cannot abort the steps that follow it. *)
Theorem C9_assembler_never_raises :
  (∀ data, total (Main.map_data_to_excel data)) ∧
  (∀ data, total (Processor.map_data_to_excel data)) ∧
  (∀ n, total (prepare_product_rows n)) ∧
  (∀ row product, total (set_product_data row product)) ∧
  (∀ row, total (safely_unmerge_row_cells row)) ∧
  (∀ src tgt, total (copy_row_format src tgt)) ∧
  (∀ last, total (Processor.clean_extra_rows last)) ∧
  (∀ last, total (Processor.render_trailing_block last)).
Proof.
  split_and!; intros.
  - apply total_main_map_data_to_excel.
  - apply total_processor_map_data_to_excel.
  - apply total_prepare_product_rows.
  - apply total_set_product_data.
  - apply total_safely_unmerge.
  - apply total_copy_row_format.
  - apply total_clean_extra_rows.
  - apply total_render_trailing_block.
Qed.

(** ** The frame of the item row writer (C10) *)

(** C10.  Writing an item to [row] assigns only to columns 1, 2, 3, 5,
    6, 7, 8, 9 and 10 of that row.  Every other coordinate (column 4,
    11 or 12 of the row, any cell of another row) holds the cell it held
    before, except that a cell may be gone because it was a non-anchor
    cell of a merged range touching the row, which the writer dissolves
    first; the merged ranges left are those that did not touch the row
    and the row heights are unchanged. *)
Theorem C10_item_row_writer_frame (ws : Worksheet) (row : Z) (product : PyVal) (k : Z * Z) :
  ¬ (k.1 = row ∧ k.2 ∈ item_columns) →
  let ws' := exec (set_product_data row product) ws in
  (cells ws' !! k = cells ws !! k ∨
   (cells ws' !! k = None ∧
    ∃ rg, rg ∈ merged ws ∧ touches_row row rg ∧ k ∈ tail (range_cells rg))) ∧
  merged ws' = filter (λ rg, ¬ touches_row row rg) (merged ws) ∧
  heights ws' = heights ws.
Proof.
  intros Hk. by apply set_product_data_effect.
Qed.

(** A witness for C10: column D of the row written on the blank template. *)
Lemma C10_witness :
  let ws' := exec (set_product_data 12 (sample_item "krém")) blank_template in
  (cells ws' !! (12, 4) = cells blank_template !! (12, 4) ∨
   (cells ws' !! (12, 4) = None ∧
    ∃ rg, rg ∈ merged blank_template ∧ touches_row 12 rg ∧ (12, 4) ∈ tail (range_cells rg))) ∧
  merged ws' = filter (λ rg, ¬ touches_row 12 rg) (merged blank_template) ∧
  heights ws' = heights blank_template.
Proof.
  apply (C10_item_row_writer_frame blank_template 12 (sample_item "krém") (12, 4)).
  simpl. intros [_ Hin]. unfold item_columns in Hin.
  repeat (apply elem_of_cons in Hin as [Hin|Hin]; [discriminate|]).
  by apply elem_of_nil in Hin.
Defined.

(** ** The requirements text (C7) *)

(** C7.  Let the data be an order record whose requirements text is
    [reqs] (the empty string when the field is empty, null or absent),
    and let the template have ordinary cells for the five header fields
    and for I4, I4 lying inside no other merged range that reaches the
    item rows.  Then after either assembler the anchor I4 of the
    requirements box holds exactly [reqs], with text wrapping on, and
    I4:L9 is merged; splitting on line breaks and rejoining with line
    breaks gives the text back. *)
Theorem C7_requirements_text_round_trip
    (ws : Worksheet) (data : PyVal) (reqs : string) (items : list PyVal) :
  order_record data reqs items →
  header_cells_plain ws →
  box_anchor_free ws →
  join newline (split newline reqs) = reqs ∧
  box_filled reqs (exec (Main.map_data_to_excel data) ws) ∧
  box_filled reqs (exec (Processor.map_data_to_excel data) ws).
Proof.
  intros Hrec Hplain Hfree. split; [apply join_split|].
  destruct Hrec as (d & -> & Hrec).
  assert (order_record (PDict d) reqs items) as Hrec' by (by exists d).
  assert (∀ wsB, box_done reqs ws wsB → box_anchor_free wsB) as HfreeB.
  { intros wsB (_ & Hm & _) rg Hin Hmax. apply Hm in Hin as [Hin| ->]; [by apply Hfree|].
    cbn in Hmax. lia. }
  split.
  - destruct (main_box d reqs items ws Hrec' Hplain) as (wsB & Hdone & ->).
    eapply box_filled_preserved; [by apply confined_main_tail|by apply HfreeB|apply Hdone].
  - destruct (processor_box d reqs items ws Hrec' Hplain) as (wsB & Hdone & ->).
    eapply box_filled_preserved; [by apply confined_processor_tail|by apply HfreeB|apply Hdone].
Qed.

(** A witness for C7: the three-clause text on the blank template. *)
Lemma C7_witness :
  let data := sample_order [sample_item "krém"] in
  let text := join newline ["A"; "B"; "C"] in
  join newline (split newline text) = text ∧
  box_filled text (exec (Main.map_data_to_excel data) blank_template) ∧
  box_filled text (exec (Processor.map_data_to_excel data) blank_template).
Proof.
  apply (C7_requirements_text_round_trip blank_template _ _ [sample_item "krém"]).
  - apply sample_order_record.
  - apply blank_template_contract.
  - apply nothing_merged_below_anchor_free, blank_template_contract.
Defined.

(** ** The row labels (C8) *)

(** C8.  Let the data be an order record with the list [items], and let
    the template have ordinary header cells and no placeholder in
    column A from row 12 down.  The [j]-th item (1-based, in input
    order) is written to row [11 + j], and after either assembler that
    row carries the label "j." in column A ([row - first_item_row + 1]
    with the dot); this holds for the two template rows and for the
    rows the provisioner inserted alike. *)
Theorem C8_item_rows_are_numbered
    (ws : Worksheet) (data : PyVal) (reqs : string) (items : list PyVal) (j : Z) :
  order_record data reqs items →
  header_cells_plain ws →
  placeholder_free (λ c, c = 1) 12 ws →
  1 ≤ j ≤ Z.of_nat (length items) →
  row_label j = PStr (pretty ((11 + j) - first_item_row + 1) +:+ ".") ∧
  labelled (exec (Main.map_data_to_excel data) ws) j ∧
  labelled (exec (Processor.map_data_to_excel data) ws) j.
Proof.
  intros Hrec Hplain Hfree Hj. split.
  { unfold row_label, first_item_row. do 3 f_equal. lia. }
  destruct Hrec as (d & -> & Hrec).
  assert (order_record (PDict d) reqs items) as Hrec' by (by exists d).
  destruct Hrec as (_ & _ & _ & _ & _ & _ & Hitems).
  assert (∀ wsB, box_done reqs ws wsB → placeholder_free (λ c, c = 1) 12 wsB) as HfreeB.
  { intros wsB (_ & _ & Hc & _) r c Hr ->. unfold placeholder. rewrite Hc by (simpl; lia).
    by apply Hfree. }
  set (n := Z.of_nat (length items)) in *.
  split.
  - destruct (main_box d reqs items ws Hrec' Hplain) as (wsB & Hdone & ->).
    rewrite (main_tail_run d items wsB Hitems).
    destruct (items_written_labels items wsB (HfreeB _ Hdone)) as [Hl Hu].
    eapply (labelled_preserved n); [|done..|by apply Hl].
    apply confined_recreate. lia.
  - destruct (processor_box d reqs items ws Hrec' Hplain) as (wsB & Hdone & ->).
    rewrite (processor_tail_run d items wsB Hitems).
    destruct (items_written_labels items wsB (HfreeB _ Hdone)) as [Hl Hu].
    assert (match items with [] => 12 | _ => 11 + Z.of_nat (length items) end = 11 + n) as ->.
    { destruct items; [simpl in *; lia|done]. }
    eapply (labelled_preserved n); [|done..|by apply Hl].
    etrans.
    + apply (confined_clean_extra_rows (12 + n) (11 + n)). lia.
    + apply (confined_render_trailing_block (12 + n) (11 + n)). lia.
Qed.

(** A witness for C8: four items on the blank template, the fourth row. *)
Lemma C8_witness :
  let items := [sample_item "a"; sample_item "b"; sample_item "c"; sample_item "d"] in
  row_label 4 = PStr (pretty ((11 + 4) - first_item_row + 1) +:+ ".") ∧
  labelled (exec (Main.map_data_to_excel (sample_order items)) blank_template) 4 ∧
  labelled (exec (Processor.map_data_to_excel (sample_order items)) blank_template) 4.
Proof.
  intros items.
  apply (C8_item_rows_are_numbered blank_template (sample_order items)
           (join newline ["A"; "B"; "C"]) items 4).
  - apply sample_order_record.
  - apply blank_template_contract.
  - intros r c Hr _. by apply blank_template_lookup.
  - simpl. lia.
Defined.

(** ** The dispatch header (C1) *)

(** C1, as stated, fails in its instance: from the blank template an
    order of one item gets its header at row 14, not at row
    [first_item_row + 1 + 2] = 15, and an order of five items at row 18,
    not at row [first_item_row + 5 + 2] = 19, in both scripts. *)
Lemma C1_counterexample :
  let one := sample_order [sample_item "a"] in
  let five := sample_order [sample_item "a"; sample_item "b"; sample_item "c";
                            sample_item "d"; sample_item "e"] in
  ¬ header_at (exec (Main.map_data_to_excel one) blank_template) (first_item_row + 1 + 2) ∧
  ¬ header_at (exec (Processor.map_data_to_excel one) blank_template) (first_item_row + 1 + 2) ∧
  ¬ header_at (exec (Main.map_data_to_excel five) blank_template) (first_item_row + 5 + 2) ∧
  ¬ header_at (exec (Processor.map_data_to_excel five) blank_template) (first_item_row + 5 + 2).
Proof.
  intros one five. split_and!; intros [Hin _]; vm_compute in Hin;
    repeat (apply elem_of_cons in Hin as [Hin|Hin]; [discriminate|]);
    by apply elem_of_nil in Hin.
Qed.

(** C1, amended.  For an order record with [n >= 1] items and a template
    with ordinary header cells, the processor script renders the merged
    header (the caption in I, I–L merged, centered, bold, bordered) at
    row [last_item_row + 2] with [last_item_row = first_item_row + n - 1],
    that is at row [first_item_row + n + 1] (14 for one item, 18 for
    five); [main.py] does the same on a template that has no
    placeholder in columns I–L from row 14 down. *)
Theorem C1_header_two_rows_below_last_item
    (ws : Worksheet) (data : PyVal) (reqs : string) (items : list PyVal) :
  order_record data reqs items →
  header_cells_plain ws →
  (1 ≤ length items)%nat →
  let last_item_row := first_item_row + Z.of_nat (length items) - 1 in
  header_at (exec (Processor.map_data_to_excel data) ws) (last_item_row + 2) ∧
  (placeholder_free (λ c, 9 ≤ c ≤ 12) 14 ws →
   header_at (exec (Main.map_data_to_excel data) ws) (last_item_row + 2)).
Proof.
  intros Hrec Hplain Hn last. subst last. unfold first_item_row.
  destruct Hrec as (d & -> & Hrec).
  assert (order_record (PDict d) reqs items) as Hrec' by (by exists d).
  destruct Hrec as (_ & _ & _ & _ & _ & _ & Hitems).
  replace (12 + Z.of_nat (length items) - 1 + 2) with (11 + Z.of_nat (length items) + 2) by lia.
  split.
  - destruct (processor_box d reqs items ws Hrec' Hplain) as (wsB & Hdone & ->).
    rewrite (processor_tail_run d items wsB Hitems).
    assert (match items with [] => 12 | _ => 11 + Z.of_nat (length items) end
            = 11 + Z.of_nat (length items)) as ->.
    { destruct items; [simpl in *; lia|done]. }
    apply clean_render_spec. lia.
  - intros Hfree.
    destruct (main_box d reqs items ws Hrec' Hplain) as (wsB & Hdone & ->).
    rewrite (main_tail_run d items wsB Hitems).
    apply recreate_header; [lia|]. intros c Hc.
    apply (items_written_placeholder_free (λ c, 9 ≤ c ≤ 12) 14); [lia| |lia|done].
    eapply box_done_placeholder_free; [|done..]. lia.
Qed.

(** A witness for C1: one item on the blank template, header at row 14. *)
Lemma C1_witness :
  let data := sample_order [sample_item "a"] in
  header_at (exec (Processor.map_data_to_excel data) blank_template) 14 ∧
  header_at (exec (Main.map_data_to_excel data) blank_template) 14.
Proof.
  intros data.
  destruct (C1_header_two_rows_below_last_item blank_template data
              (join newline ["A"; "B"; "C"]) [sample_item "a"]) as [Hp Hm].
  - apply sample_order_record.
  - apply blank_template_contract.
  - simpl. lia.
  - split; [exact Hp|]. apply Hm. intros r c Hr _. apply blank_template_lookup. lia.
Defined.

(** ** A second run over the result of the first (C3) *)

(** C3.  On a template that meets the template contract (ordinary
    header cells, nothing merged and no placeholder from the first item
    row down), running either script a second time with the same order
    record on the sheet the first run produced leaves the same set of
    merged ranges and renders the header of the trailing block at the
    same row as the first run did.  (In [main.py] the second run inserts
    the extra item rows again, so cell contents below the header differ
    between the runs; the merged ranges and the header row do not.) *)
Theorem C3_second_run_same_layout
    (ws : Worksheet) (data : PyVal) (reqs : string) (items : list PyVal) :
  order_record data reqs items →
  template_contract ws →
  let n := Z.of_nat (length items) in
  let p1 := exec (Processor.map_data_to_excel data) ws in
  let p2 := exec (Processor.map_data_to_excel data) p1 in
  let m1 := exec (Main.map_data_to_excel data) ws in
  let m2 := exec (Main.map_data_to_excel data) m1 in
  let tp := match items with [] => 12 | _ => 11 + n end + 2 in
  let tm := 11 + n + 2 in
  ((∀ rg, rg ∈ merged p2 ↔ rg ∈ merged p1) ∧ header_at p1 tp ∧ header_at p2 tp) ∧
  ((∀ rg, rg ∈ merged m2 ↔ rg ∈ merged m1) ∧ header_at m1 tm ∧ header_at m2 tm).
Proof.
  intros Hrec [Hplain [Hfree Hmerged]] n p1 p2 m1 m2 tp tm.
  destruct Hrec as (d & -> & Hrec).
  assert (order_record (PDict d) reqs items) as Hrec' by (by exists d). clear Hrec.
  split.
  - set (last := match items with [] => 12 | _ => 11 + n end) in *.
    destruct (processor_layout d reqs items ws Hrec' Hplain) as (Hpl1 & Hh1 & Hm1).
    { intros rg Hin. left. unfold first_item_row. by apply Hmerged. }
    fold n last p1 in Hpl1, Hh1, Hm1.
    destruct (processor_layout d reqs items p1 Hrec' Hpl1) as (_ & Hh2 & Hm2).
    { fold n last. unfold merged_above_or, first_item_row.
      intros rg [[_ ?]|[->|?]]%Hm1; [by left|left; cbn; lia|by right]. }
    fold n last p2 in Hh2, Hm2.
    split_and!; [|done..]. intros rg. rewrite Hm2. split.
    + intros [[? _]|?]; [done|by apply Hm1; right].
    + intros Hin. pose proof Hin as [[_ ?]|?]%Hm1; [left|by right]. done.
  - destruct (main_layout d reqs items ws Hrec' Hplain) as (Hpl1 & Hh1 & Hm1 & Hready1).
    { intros rg Hin. left. unfold first_item_row. by apply Hmerged. }
    { subst n. split_and!; [intros r c Hr; apply Hfree; lia|apply Hfree; lia|].
      left. intros c _. apply Hfree. lia. }
    fold n tm m1 in Hpl1, Hh1, Hm1, Hready1.
    destruct (main_layout d reqs items m1 Hrec' Hpl1) as (_ & Hh2 & Hm2 & _).
    { fold n tm. intros rg [Hin|[->| ->]]%Hm1.
      - left. unfold first_item_row. by apply Hmerged.
      - left. unfold first_item_row. cbn. lia.
      - right. left. }
    { exact Hready1. }
    fold n tm m2 in Hh2, Hm2.
    split_and!; [|done..]. intros rg. rewrite Hm2. split.
    + intros [?|?]; [done|by apply Hm1; right].
    + by left.
Qed.

(** A witness for C3: three items, so that one row is inserted in each
    run, on the blank template. *)
Lemma C3_witness :
  let data := sample_order [sample_item "a"; sample_item "b"; sample_item "c"] in
  let p1 := exec (Processor.map_data_to_excel data) blank_template in
  let p2 := exec (Processor.map_data_to_excel data) p1 in
  let m1 := exec (Main.map_data_to_excel data) blank_template in
  let m2 := exec (Main.map_data_to_excel data) m1 in
  ((∀ rg, rg ∈ merged p2 ↔ rg ∈ merged p1) ∧ header_at p1 16 ∧ header_at p2 16) ∧
  ((∀ rg, rg ∈ merged m2 ↔ rg ∈ merged m1) ∧ header_at m1 16 ∧ header_at m2 16).
Proof.
  intros data.
  apply (C3_second_run_same_layout blank_template data (join newline ["A"; "B"; "C"])
           [sample_item "a"; sample_item "b"; sample_item "c"]).
  - apply sample_order_record.
  - apply blank_template_contract.
Defined.

(** ** Stale rows past the last item row (C2) *)

(** C2, as stated, fails on its own instance: an order of two items
    assembled over the sheet that a run with six items produced.  With
    the processor script the header range I15:L15 of the new trailing
    block is merged across row 15, the row that held item 4.  [main.py]
    has no cleanup step: rows 14–17 still carry items 3–6, and the
    header range of the earlier run, I19:L19, is still merged. *)
Lemma C2_counterexample :
  let six := sample_order (sample_item <$> ["a"; "b"; "c"; "d"; "e"; "f"]) in
  let two := sample_order (sample_item <$> ["a"; "b"]) in
  let p := exec (Processor.map_data_to_excel two)
             (exec (Processor.map_data_to_excel six) blank_template) in
  let m := exec (Main.map_data_to_excel two)
             (exec (Main.map_data_to_excel six) blank_template) in
  (Main.header_range 15 ∈ merged p ∧ touches_row 15 (Main.header_range 15) = true) ∧
  ((λ r, value_at m (r, 1)) <$> [14; 15; 16; 17]
     = [PStr "3."; PStr "4."; PStr "5."; PStr "6."] ∧
   Main.header_range 19 ∈ merged m).
Proof.
  intros six two p m. split_and!.
  - vm_compute. repeat constructor.
  - reflexivity.
  - vm_compute. reflexivity.
  - vm_compute. repeat constructor.
Qed.

(** C2, amended.  The processor script, on an order record and a sheet
    with ordinary header cells: once the header fields, the
    requirements box and the item rows are written (the sheet [w0]),
    the cleanup leaves no cell below the last item row and dissolves
    exactly the merged ranges that touch a row between the last item
    row and the extent of [w0]; the trailing block is rendered on that
    sheet, and afterwards a merged range that touches a row past the
    last item row, down to the former extent and the nine rows of the
    block, is one of the three ranges of the new block. *)
Theorem C2_processor_cleans_stale_rows
    (ws : Worksheet) (data : PyVal) (reqs : string) (items : list PyVal) :
  order_record data reqs items →
  header_cells_plain ws →
  let last := match items with [] => 12 | _ => 11 + Z.of_nat (length items) end in
  let final := exec (Processor.map_data_to_excel data) ws in
  ∃ wB, box_done reqs ws wB ∧
    let w0 := items_written items wB in
    let w1 := exec (Processor.clean_extra_rows last) w0 in
    final = exec (Processor.render_trailing_block last) w1 ∧
    empty_below last w1 ∧
    merged_dissolved (λ r, last < r ≤ sheet_max_row w0) w0 w1 ∧
    ∀ rg r, rg ∈ merged final →
            last < r ≤ Z.max (sheet_max_row w0) (last + 9) →
            touches_row r rg → rg ∈ trailing_ranges last.
Proof.
  intros Hrec Hplain last final. subst final.
  destruct Hrec as (d & -> & Hrec).
  assert (order_record (PDict d) reqs items) as Hrec' by (by exists d).
  destruct Hrec as (_ & _ & _ & _ & _ & _ & Hitems).
  destruct (processor_box d reqs items ws Hrec' Hplain) as (wB & Hdone & ->).
  exists wB. split; [done|]. intros w0 w1.
  rewrite (processor_tail_run d items wB Hitems). fold last w0 w1.
  assert (0 ≤ last) as Hlast by (subst last; destruct items; lia).
  destruct (clean_render_spec last w0 Hlast) as (He & Hd & _ & Hm).
  fold w1 in He, Hd, Hm.
  split_and!; [done..|].
  intros rg r [[_ Hnt]|Hin]%Hm Hr Ht; [|done]. by destruct (Hnt r Hr).
Qed.

(** A witness for C2: two items assembled over the sheet that a run
    with six items produced. *)
Lemma C2_witness :
  let six := sample_order (sample_item <$> ["a"; "b"; "c"; "d"; "e"; "f"]) in
  let items := sample_item <$> ["a"; "b"] in
  let ws := exec (Processor.map_data_to_excel six) blank_template in
  let final := exec (Processor.map_data_to_excel (sample_order items)) ws in
  ∃ wB, box_done (join newline ["A"; "B"; "C"]) ws wB ∧
    let w0 := items_written items wB in
    let w1 := exec (Processor.clean_extra_rows 13) w0 in
    final = exec (Processor.render_trailing_block 13) w1 ∧
    empty_below 13 w1 ∧
    merged_dissolved (λ r, 13 < r ≤ sheet_max_row w0) w0 w1 ∧
    ∀ rg r, rg ∈ merged final →
            13 < r ≤ Z.max (sheet_max_row w0) (13 + 9) →
            touches_row r rg → rg ∈ trailing_ranges 13.
Proof.
  intros six items ws final.
  apply (C2_processor_cleans_stale_rows ws (sample_order items)
           (join newline ["A"; "B"; "C"]) items).
  - apply sample_order_record.
  - apply (processor_layout _ _ _ blank_template (sample_order_record _)).
    + apply blank_template_contract.
    + intros rg Hin. left. unfold first_item_row.
      by apply blank_template_contract.
Defined.

(** * Further properties of the code *)

(** ** The item row writer: where the fields go *)

Lemma set_product_data_text_run row p ws :
  1 ≤ row →
  (∀ c, c ∈ item_columns → placeholder ws (row, c) = false) →
  text_item p →
  exec (set_product_data row (PDict p)) ws
  = item_written row p (exec (safely_unmerge_row_cells row) ws).
Proof.
  intros Hrow Hp Htext.
  unfold set_product_data. rewrite exec_try_pass. unfold exec at 1.
  rewrite (bind_ok _ _ _ _ _ (safely_unmerge_run row ws)).
  set (w1 := exec (safely_unmerge_row_cells row) ws).
  assert (∀ c, c ∈ item_columns → placeholder w1 (row, c) = false) as Hp1.
  { intros c Hc. by apply (npl_safely_unmerge row ws), Hp. }
  unfold item_written.
  destruct (Htext 2 "Item Name") as [s2 E2]; [repeat constructor|].
  destruct (Htext 3 "Embossing Data") as [s3 E3]; [repeat constructor|].
  destruct (Htext 5 "Products Heating") as [s5 E5]; [repeat constructor|].
  destruct (Htext 6 "Sachet Size") as [s6 E6]; [repeat constructor|].
  destruct (Htext 7 "Filling Volume") as [s7 E7]; [repeat constructor|].
  destruct (Htext 8 "Qty") as [s8 E8]; [repeat constructor|].
  destruct (Htext 9 "Required Bulk Quantity") as [s9 E9]; [repeat constructor|].
  rewrite E2, E3, E5, E6, E7, E8, E9.
  assert (∀ key, lift (get (PDict p) key (PStr "")) = lift (Ok (field p key))) as Hget.
  { intros key. by rewrite get_field. }
  rewrite !Hget, E2, E3, E5, E6, E7, E8, E9.
  unfold row_label at 1.
  repeat first
    [ erewrite (bind_ok (lift _)) by reflexivity
    | erewrite (bind_ok (cell _ _ (PStr _)));
      [|apply cell_str_run;
        [lia|lia|rewrite ?placeholder_write_cell; repeat case_decide; try done;
                 apply Hp1; unfold item_columns; repeat constructor]] ].
  reflexivity.
Qed.

Lemma item_written_values row p w :
  (∀ col key, (col, key) ∈ item_layout → value_at (item_written row p w) (row, col) = field p key) ∧
  value_at (item_written row p w) (row, 10) = PStr "/" ∧
  value_at (item_written row p w) (row, 1) = row_label (row - 11).
Proof.
  unfold item_written, value_at. split_and!.
  - intros col key Hin. unfold item_layout in Hin.
    repeat (apply elem_of_cons in Hin as [[= -> ->]|Hin];
            [rewrite !write_cell_lookup;
             repeat (rewrite decide_False by (intros [= ?]; lia));
             by rewrite decide_True by done|]).
    by apply elem_of_nil in Hin.
  - rewrite !write_cell_lookup. by rewrite decide_True by done.
  - rewrite !write_cell_lookup.
    repeat (rewrite decide_False by (intros [= ?]; lia)).
    by rewrite decide_True by done.
Qed.

(** Later item writes leave alone a row that no merged range touches. *)
Lemma write_products_keeps_row items : ∀ k ws r c,
  r < 11 + k → (∀ rg, rg ∈ merged ws → ¬ touches_row r rg) →
  cells (exec (for_ (enumerate k items) (λ ip, set_product_data (11 + ip.1) ip.2)) ws)
    !! (r, c) = cells ws !! (r, c).
Proof.
  induction items as [|x items IH]; intros k ws r c Hr Hfree; [done|].
  cbn [enumerate]. rewrite exec_for_cons by apply total_set_product_data.
  cbn [fst snd].
  destruct (set_product_data_effect (11 + k) x ws (r, c)) as (Hc & Hm & _).
  { cbn. lia. }
  rewrite (IH (k + 1)).
  - destruct Hc as [->|[_ (rg & Hin & _ & Hcov)]]; [done|].
    exfalso. apply (Hfree rg Hin). by eapply range_covers_touches.
  - lia.
  - intros rg Hin. rewrite Hm in Hin. apply list_elem_of_filter in Hin as [_ Hin]. by apply Hfree.
Qed.

Lemma write_products_item items : ∀ k ws (j : nat) p,
  1 ≤ k → placeholder_free (λ c, c ∈ item_columns) (11 + k) ws →
  items !! j = Some (PDict p) → text_item p →
  let row := 11 + k + Z.of_nat j in
  let ws' := exec (for_ (enumerate k items) (λ ip, set_product_data (11 + ip.1) ip.2)) ws in
  (∀ col key, (col, key) ∈ item_layout → value_at ws' (row, col) = field p key) ∧
  value_at ws' (row, 10) = PStr "/".
Proof.
  induction items as [|x items IH]; intros k ws j p Hk Hfree Hj Htext row ws'; [done|].
  subst ws'. cbn [enumerate]. rewrite exec_for_cons by apply total_set_product_data.
  cbn [fst snd]. destruct j as [|j].
  - injection Hj as ->. subst row. replace (11 + k + Z.of_nat 0) with (11 + k) by lia.
    assert (∀ c, value_at (exec (for_ (enumerate (k + 1) items)
                                   (λ ip, set_product_data (11 + ip.1) ip.2))
                              (exec (set_product_data (11 + k) (PDict p)) ws)) (11 + k, c)
                 = value_at (exec (set_product_data (11 + k) (PDict p)) ws) (11 + k, c)) as Hkeep.
    { intros c. unfold value_at. rewrite write_products_keeps_row; [done|lia|].
      intros rg Hin.
      destruct (set_product_data_effect (11 + k) (PDict p) ws (0, 0)) as (_ & Hm & _).
      { cbn. lia. }
      rewrite Hm in Hin. by apply list_elem_of_filter in Hin as [? _]. }
    assert (exec (set_product_data (11 + k) (PDict p)) ws
            = item_written (11 + k) p (exec (safely_unmerge_row_cells (11 + k)) ws)) as Erun.
    { apply set_product_data_text_run; [lia| |done].
      intros c Hc. apply Hfree; [lia|done]. }
    rewrite Erun in Hkeep |- *.
    destruct (item_written_values (11 + k) p
                (exec (safely_unmerge_row_cells (11 + k)) ws)) as (Hv & Hs & _).
    split; [intros col key Hin; rewrite Hkeep; by apply Hv|by rewrite Hkeep].
  - cbn in Hj. subst row.
    replace (11 + k + Z.of_nat (S j)) with (11 + (k + 1) + Z.of_nat j) by lia.
    apply IH; [lia| |done..].
    eapply placeholder_free_npl; [apply npl_set_product_data|].
    intros r c Hr Hc. apply Hfree; [lia|done].
Qed.

(** Work confined below the item rows leaves the item rows alone. *)
Lemma item_rows_kept n ws ws' r c :
  changes_below (12 + n) ws ws' → item_rows_unmerged n ws →
  12 ≤ r ≤ 11 + n → cells ws' !! (r, c) = cells ws !! (r, c).
Proof.
  intros (Hc & _) Hun Hr.
  destruct (Hc r c) as [->|[_ (rg & Hin & _ & Hcov)]]; [lia|done|].
  exfalso. apply (Hun rg (r - 11)); [done|lia|].
  replace (11 + (r - 11)) with r by lia. by eapply range_covers_touches.
Qed.

Lemma items_written_unmerged items ws :
  item_rows_unmerged (Z.of_nat (length items)) (items_written items ws).
Proof.
  intros rg j Hin Hj. apply (items_written_merged items ws rg) in Hin as [_ Hnt].
  apply Hnt. lia.
Qed.

(** X2.  Let the data be an order record, on a template with ordinary
    header cells and no placeholder in the item columns from row 12
    down.  If the item at (0-based) position [j] is a JSON object whose
    seven fields are strings or absent, then after either script row
    [12 + j] holds the item name in B, the embossing data in C, the
    heating in E, the sachet size in F, the filling volume in G, the
    quantity in H, the required bulk quantity in I (the empty string for
    an absent field), and the literal "/" in J. *)
Theorem X2_item_fields_reach_their_columns
    (ws : Worksheet) (data : PyVal) (reqs : string) (items : list PyVal)
    (j : nat) (p : list (string * PyVal)) :
  order_record data reqs items →
  header_cells_plain ws →
  placeholder_free (λ c, c ∈ item_columns) 12 ws →
  items !! j = Some (PDict p) →
  text_item p →
  let row := 12 + Z.of_nat j in
  ∀ final,
    final = exec (Main.map_data_to_excel data) ws ∨
    final = exec (Processor.map_data_to_excel data) ws →
    (∀ col key, (col, key) ∈ item_layout → value_at final (row, col) = field p key) ∧
    value_at final (row, 10) = PStr "/".
Proof.
  intros Hrec Hplain Hfree Hj Htext row final Hfinal.
  destruct Hrec as (d & -> & Hrec).
  assert (order_record (PDict d) reqs items) as Hrec' by (by exists d).
  destruct Hrec as (_ & _ & _ & _ & _ & _ & Hitems).
  set (n := Z.of_nat (length items)).
  assert (12 ≤ row ≤ 11 + n) as Hrow.
  { apply lookup_lt_Some in Hj. subst row n. lia. }
  assert (∀ wsB, box_done reqs ws wsB →
            (∀ col key, (col, key) ∈ item_layout →
               value_at (items_written items wsB) (row, col) = field p key) ∧
            value_at (items_written items wsB) (row, 10) = PStr "/") as Hwritten.
  { intros wsB Hdone. unfold items_written, write_products.
    replace row with (11 + 1 + Z.of_nat j) by (subst row; lia).
    apply write_products_item; [lia| |done..].
    apply placeholder_free_prepare; [lia|].
    eapply box_done_placeholder_free; [|done..]. lia. }
  assert (∀ wsB w', box_done reqs ws wsB →
            changes_below (12 + n) (items_written items wsB) w' →
            (∀ col key, (col, key) ∈ item_layout → value_at w' (row, col) = field p key) ∧
            value_at w' (row, 10) = PStr "/") as Hkept.
  { intros wsB w' Hdone Hcb. destruct (Hwritten wsB Hdone) as [Hv Hs].
    assert (∀ c, value_at w' (row, c) = value_at (items_written items wsB) (row, c)) as E.
    { intros c. unfold value_at.
      by rewrite (item_rows_kept n _ _ row c Hcb (items_written_unmerged items wsB) Hrow). }
    split; [intros col key Hin; rewrite E; by apply Hv|by rewrite E]. }
  destruct Hfinal as [-> | ->].
  - destruct (main_box d reqs items ws Hrec' Hplain) as (wsB & Hdone & ->).
    rewrite (main_tail_run d items wsB Hitems).
    apply (Hkept wsB); [done|]. apply confined_recreate. subst n. lia.
  - destruct (processor_box d reqs items ws Hrec' Hplain) as (wsB & Hdone & ->).
    rewrite (processor_tail_run d items wsB Hitems).
    assert (match items with [] => 12 | _ => 11 + Z.of_nat (length items) end = 11 + n) as ->.
    { destruct items; [done|done]. }
    apply (Hkept wsB); [done|]. etrans.
    + apply (confined_clean_extra_rows (12 + n) (11 + n)). lia.
    + apply (confined_render_trailing_block (12 + n) (11 + n)). lia.
Qed.

(** A witness for X2: the third of three items on the blank template. *)
Lemma X2_witness :
  let p := [ ("Item Name", PStr "c"); ("Sachet Size", PStr "60x100");
             ("Filling Volume", PStr "10ml"); ("Products Heating", PStr "nie");
             ("Embossing Data", PStr "WW"); ("Required Bulk Quantity", PStr "25kg");
             ("Qty", PStr "25000") ] in
  let items := [sample_item "a"; sample_item "b"; sample_item "c"] in
  let m := exec (Main.map_data_to_excel (sample_order items)) blank_template in
  let q := exec (Processor.map_data_to_excel (sample_order items)) blank_template in
  ((∀ col key, (col, key) ∈ item_layout → value_at m (12 + 2, col) = field p key) ∧
   value_at m (12 + 2, 10) = PStr "/") ∧
  ((∀ col key, (col, key) ∈ item_layout → value_at q (12 + 2, col) = field p key) ∧
   value_at q (12 + 2, 10) = PStr "/").
Proof.
  intros p items m q.
  assert (text_item p) as Htext.
  { intros col key Hin. unfold item_layout in Hin.
    repeat (apply elem_of_cons in Hin as [[= -> ->]|Hin]; [eexists; reflexivity|]).
    by apply elem_of_nil in Hin. }
  assert (placeholder_free (λ c, c ∈ item_columns) 12 blank_template) as Hfree.
  { intros r c Hr _. by apply blank_template_lookup. }
  split.
  - apply (X2_item_fields_reach_their_columns blank_template (sample_order items)
             (join newline ["A"; "B"; "C"]) items 2 p (sample_order_record _)
             (proj1 blank_template_contract) Hfree eq_refl Htext m). by left.
  - apply (X2_item_fields_reach_their_columns blank_template (sample_order items)
             (join newline ["A"; "B"; "C"]) items 2 p (sample_order_record _)
             (proj1 blank_template_contract) Hfree eq_refl Htext q). by right.
Defined.

(** ** An item that is not a JSON object *)

(** X3.  When an element of "Items" is not a JSON object (a string, a
    number, null, a list), the item row writer still dissolves the
    merges on the row and writes the row label, then fails on the first
    [product.get], catches the error and returns: the row carries its
    label and nothing else is written. *)
Theorem X3_item_that_is_not_an_object (ws : Worksheet) (row : Z) (product : PyVal) :
  (∀ d, product ≠ PDict d) →
  1 ≤ row →
  placeholder ws (row, 1) = false →
  set_product_data row product ws
  = (Ok tt, write_cell (row, 1) (row_label (row - 11))
              (exec (safely_unmerge_row_cells row) ws)).
Proof.
  intros Hnd Hrow Hp. unfold set_product_data, try_except.
  rewrite (bind_ok _ _ _ _ _ (safely_unmerge_run row ws)).
  set (w1 := exec (safely_unmerge_row_cells row) ws).
  assert (placeholder w1 (row, 1) = false) as Hp1 by (by apply (npl_safely_unmerge row ws)).
  unfold row_label at 1.
  rewrite (bind_ok _ _ _ _ _ (cell_str_run row 1 _ w1 Hrow ltac:(lia) Hp1)).
  erewrite bind_raise; [reflexivity|].
  unfold lift, get. destruct product; try reflexivity. by destruct (Hnd d).
Qed.

(** A witness for X3: a bare string in place of the item, written to
    row 12 of the blank template. *)
Lemma X3_witness :
  set_product_data 12 (PStr "krém") blank_template
  = (Ok tt, write_cell (12, 1) (row_label (12 - 11))
              (exec (safely_unmerge_row_cells 12) blank_template)).
Proof.
  apply (X3_item_that_is_not_an_object blank_template 12 (PStr "krém")).
  - intros d. discriminate.
  - lia.
  - apply blank_template_lookup. lia.
Defined.

(** ** The header fields *)

Section header_fields.
Context (d : list (string * PyVal)) (reqs : string) (items : list PyVal) (ws : Worksheet).
Context (Hrec : order_record (PDict d) reqs items).
Context (Hplain : header_cells_plain ws).

(** The requirements box leaves column C as the header writes left it. *)
Lemma box_keeps_column_C w wsB :
  (∀ k, cells w !! k = cells (header_fields_written d ws) !! k ∨
        (cells w !! k = None ∧ k ∈ tail (range_cells reqs_box))) →
  fill_requirements_box (split newline reqs) w = (Ok tt, wsB) →
  ∀ r, cells wsB !! (r, 3) = cells (header_fields_written d ws) !! (r, 3).
Proof.
  intros Hc Hrun r.
  destruct (header_fields_written_facts d ws) as (_ & _ & _ & Hph).
  destruct (fill_requirements_box_run (split newline reqs) w) as (wsB' & Hrun' & _ & _ & HcB & _).
  { destruct Hplain as [_ H49]. apply Hph in H49. unfold placeholder in *.
    by destruct (Hc (4, 9)) as [->|[-> _]]. }
  rewrite Hrun in Hrun'. injection Hrun' as <-.
  rewrite HcB; cycle 1.
  { intros Hin%elem_of_range_cells. cbn in Hin. lia. }
  destruct (Hc (r, 3)) as [->|[_ Hin%elem_of_tail_range_cells]]; [done|].
  cbn in Hin. lia.
Qed.

Lemma header_fields_written_values r key :
  (r, key) ∈ header_layout →
  value_at (header_fields_written d ws) (r, 3) = field d key.
Proof.
  intros Hin. unfold header_layout in Hin. unfold header_fields_written, value_at.
  repeat (apply elem_of_cons in Hin as [[= -> ->]|Hin];
          [rewrite !write_cell_lookup;
           repeat (rewrite decide_False by (intros [= ?]; lia));
           by rewrite decide_True by done|]).
  by apply elem_of_nil in Hin.
Qed.

(** Both scripts: the sheet from which the item rows are worked on has
    the header fields in column C. *)
Lemma box_with_fields :
  (∃ wsB, box_done reqs ws wsB ∧
     (∀ r, cells wsB !! (r, 3) = cells (header_fields_written d ws) !! (r, 3)) ∧
     exec (Main.map_data_to_excel (PDict d)) ws = exec (main_tail (PDict d)) wsB) ∧
  (∃ wsB, box_done reqs ws wsB ∧
     (∀ r, cells wsB !! (r, 3) = cells (header_fields_written d ws) !! (r, 3)) ∧
     exec (Processor.map_data_to_excel (PDict d)) ws = exec (processor_tail (PDict d)) wsB).
Proof.
  destruct (header_fields_written_facts d ws) as (Hm & _).
  split.
  - destruct (unmerge_if_present_spec reqs_box (header_fields_written d ws))
      as (Hs1 & Hs2 & Hs3).
    destruct (box_done_from d reqs ws Hplain
                (exec (Main.unmerge_if_present reqs_box) (header_fields_written d ws)))
      as (wsB & Hrun & Hdone).
    { intros x Hx. rewrite <- Hm. by apply Hs1. }
    { intros x Hx. apply Hs2. by rewrite Hm. }
    { done. }
    exists wsB. split_and!; [done|by eapply box_keeps_column_C|].
    unfold Main.map_data_to_excel. rewrite exec_try_pass. unfold exec at 1.
    rewrite (bind_ok _ _ _ _ _ (write_header_fields_ok d reqs items ws Hrec Hplain)).
    rewrite (bind_ok _ _ _ _ _ (unmerge_if_present_ok _ _)).
    rewrite (bind_ok _ _ _ _ _ Hrun). reflexivity.
  - destruct (box_done_from d reqs ws Hplain (header_fields_written d ws))
      as (wsB & Hrun & Hdone).
    { intros x Hx. by rewrite <- Hm. }
    { intros x Hx. right. by rewrite Hm. }
    { auto. }
    exists wsB. split_and!; [done| |].
    { eapply box_keeps_column_C; [|done]. auto. }
    unfold Processor.map_data_to_excel. rewrite exec_try_pass. unfold exec at 1.
    rewrite (bind_ok _ _ _ _ _ (write_header_fields_ok d reqs items ws Hrec Hplain)).
    rewrite (bind_ok _ _ _ _ _ Hrun). reflexivity.
Qed.

End header_fields.

(** X1.  Let the data be an order record, on a template whose header
    cells are ordinary cells that lie in no merged range reaching the
    item rows.  After either script C3 holds the client name, C4 the
    order number, C5 the foil, C6 the return of bulk containers and C7
    the microbiological analysis: what [data.get(key, '')] returns, so
    the empty string for an absent field and no value for a null one. *)
Theorem X1_header_fields_reach_column_C
    (ws : Worksheet) (data : PyVal) (reqs : string) (items : list PyVal) :
  order_record data reqs items →
  header_cells_plain ws →
  header_cells_free ws →
  ∀ final,
    final = exec (Main.map_data_to_excel data) ws ∨
    final = exec (Processor.map_data_to_excel data) ws →
    ∀ r key, (r, key) ∈ header_layout →
      get data key (PStr "") = Ok (value_at final (r, 3)).
Proof.
  intros Hrec Hplain Hfree final Hfinal r key Hin.
  destruct Hrec as (d & -> & Hrec).
  assert (order_record (PDict d) reqs items) as Hrec' by (by exists d).
  rewrite get_field. f_equal.
  rewrite <- (header_fields_written_values d ws r key Hin).
  assert (3 ≤ r ≤ 7) as Hr.
  { unfold header_layout in Hin.
    repeat (apply elem_of_cons in Hin as [[= -> ->]|Hin]; [lia|]).
    by apply elem_of_nil in Hin. }
  assert (∀ wsB w', box_done reqs ws wsB →
            (∀ r, cells wsB !! (r, 3) = cells (header_fields_written d ws) !! (r, 3)) →
            changes_below 12 wsB w' →
            value_at (header_fields_written d ws) (r, 3) = value_at w' (r, 3)) as Hkept.
  { intros wsB w' (_ & HmB & _) HC (Hc & _). unfold value_at. rewrite <- HC.
    destruct (Hc r 3) as [->|[_ (rg & Hrg & Hmax & Hcov)]]; [lia|done|].
    exfalso. apply HmB in Hrg as [Hrg| ->]; [|cbn in Hmax; lia].
    by apply (Hfree rg r). }
  destruct (box_with_fields d reqs items ws Hrec' Hplain) as [Hmain Hproc].
  destruct Hfinal as [-> | ->].
  - destruct Hmain as (wsB & Hdone & HC & ->).
    apply (Hkept wsB); [done..|]. by apply confined_main_tail.
  - destruct Hproc as (wsB & Hdone & HC & ->).
    apply (Hkept wsB); [done..|]. by apply confined_processor_tail.
Qed.

(** A witness for X1: the sample order on the blank template. *)
Lemma X1_witness :
  let data := sample_order [sample_item "a"] in
  let m := exec (Main.map_data_to_excel data) blank_template in
  let q := exec (Processor.map_data_to_excel data) blank_template in
  (∀ r key, (r, key) ∈ header_layout → get data key (PStr "") = Ok (value_at m (r, 3))) ∧
  (∀ r key, (r, key) ∈ header_layout → get data key (PStr "") = Ok (value_at q (r, 3))).
Proof.
  intros data m q.
  assert (header_cells_free blank_template) as Hfree.
  { intros rg r Hin Hmax _. exfalso.
    pose proof (proj2 (proj2 blank_template_contract) rg Hin). lia. }
  split.
  - apply (X1_header_fields_reach_column_C blank_template data
             (join newline ["A"; "B"; "C"]) [sample_item "a"] (sample_order_record _)
             (proj1 blank_template_contract) Hfree m). by left.
  - apply (X1_header_fields_reach_column_C blank_template data
             (join newline ["A"; "B"; "C"]) [sample_item "a"] (sample_order_record _)
             (proj1 blank_template_contract) Hfree q). by right.
Defined.

(** ** What reads the same after a computation *)

Section reads.
Context (S : Z * Z → Prop).
Implicit Types (ws : Worksheet) (k : Z * Z).

#[global] Instance reads_same_preorder : PreOrder (reads_same S).
Proof.
  split; [by intros ws k|].
  intros a b c H1 H2 k Hk. by rewrite (H2 k Hk), (H1 k Hk).
Qed.

#[global] Instance content_same_preorder : PreOrder (content_same S).
Proof.
  split; [by intros ws k|].
  intros a b c H1 H2 k Hk. destruct (H1 k Hk) as [<- <-]. by apply H2.
Qed.

Lemma reads_content ws ws' : reads_same S ws ws' → content_same S ws ws'.
Proof. intros H k Hk. specialize (H k Hk). unfold view in H. by simplify_eq. Qed.

Lemma cs_rs {A} (m : M A) : respects (reads_same S) m → respects (content_same S) m.
Proof. intros H ws. apply reads_content, H. Qed.

Lemma rs__get_cell row col : respects (reads_same S) (_get_cell row col).
Proof.
  intros ws k _. unfold view, value_at, style_at, placeholder. simpl.
  rewrite ensure_cell_lookup. case_decide; [|done]. subst.
  by destruct (cells ws !! (row, col)).
Qed.

Lemma rs_set_value k v : S k → respects (reads_same S) (set_value k v).
Proof.
  intros HS ws k' Hk'. unfold exec, set_value.
  destruct (cells ws !! k) as [[v0 st|st]|]; simpl; try reflexivity.
  destruct (storable v); simpl; [|reflexivity].
  unfold view, value_at, style_at, placeholder. simpl.
  rewrite lookup_insert_ne; [done|]. by intros ->.
Qed.

Lemma rs_set_style k f : S k → respects (reads_same S) (set_style k f).
Proof.
  intros HS ws k' Hk'. unfold view, value_at, style_at, placeholder. simpl.
  rewrite lookup_alter_ne; [done|]. by intros ->.
Qed.

Lemma rs_set_height row h : respects (reads_same S) (set_height row h).
Proof. by intros ws k. Qed.

Lemma rs_cell_none row col : respects (reads_same S) (cell row col PNone).
Proof.
  unfold cell. destruct (_ || _); [apply respects_raise; apply _|].
  rule respects_bind__get_cell; [apply rs__get_cell|].
  rule respects_bind; intros; rule respects_ret.
Qed.

Lemma rs_cell row col v : S (row, col) → respects (reads_same S) (cell row col v).
Proof. intros. rule respects_cell; [apply rs__get_cell|]. intros. by apply rs_set_value. Qed.

Lemma rs_merge_cells rg :
  (∀ k, k ∈ range_cells rg → S k) → respects (reads_same S) (merge_cells rg).
Proof.
  intros HS ws. destruct (valid_range rg) eqn:Hv.
  - unfold exec. rewrite merge_cells_run by done. cbn [snd].
    intros k Hk. unfold view, value_at, style_at, placeholder.
    rewrite merge_done_lookup.
    rewrite decide_False; cycle 1.
    { intros Hin. apply Hk, HS. by apply elem_of_tail. }
    case_decide as E; [|done]. subst k. by destruct (cells ws !! _).
  - unfold exec, merge_cells. rewrite Hv. by intros k.
Qed.

Lemma cs_set_style k f : respects (content_same S) (set_style k f).
Proof.
  intros ws k' Hk'. unfold value_at, placeholder. simpl.
  destruct (decide (k = k')) as [->|].
  - rewrite lookup_alter_eq. by destruct (cells ws !! k') as [[]|].
  - by rewrite lookup_alter_ne.
Qed.

End reads.

Lemma reads_same_mono (S S' : Z * Z → Prop) ws ws' :
  (∀ k, S k → S' k) → reads_same S ws ws' → reads_same S' ws ws'.
Proof. intros HS H k Hk. apply H. intros HSk. by apply Hk, HS. Qed.

Lemma content_same_mono (S S' : Z * Z → Prop) ws ws' :
  (∀ k, S k → S' k) → content_same S ws ws' → content_same S' ws ws'.
Proof. intros HS H k Hk. apply H. intros HSk. by apply Hk, HS. Qed.

(** A row inserted at [idx]: what was read at a row from [idx] down is
    read one row lower, the new row reads empty. *)
Lemma insert_rows_view idx ws r c :
  view (exec (insert_rows idx) ws) (r, c) =
  if decide (r < idx) then view ws (r, c)
  else if decide (r = idx) then (PNone, default_style, false)
  else view ws (r - 1, c).
Proof.
  unfold view, value_at, style_at, placeholder. rewrite insert_rows_lookup.
  by repeat case_decide.
Qed.

(** *** Row heights *)

Section row_heights.
Context (S : Z → Prop).

#[global] Instance heights_same_preorder : PreOrder (heights_same S).
Proof.
  split; [by intros ws r|].
  intros a b c H1 H2 r Hr. by rewrite (H2 r Hr), (H1 r Hr).
Qed.

Lemma hs_eq {A} (m : M A) :
  (∀ ws, heights (exec m ws) = heights ws) → respects (heights_same S) m.
Proof. intros H ws r _. by rewrite H. Qed.

Lemma hs_set_height row h : S row → respects (heights_same S) (set_height row h).
Proof. intros HS ws r Hr. simpl. rewrite lookup_insert_ne; [done|]. by intros ->. Qed.

Lemma hs__get_cell row col : respects (heights_same S) (_get_cell row col).
Proof. by apply hs_eq. Qed.

Lemma hs_set_value k v : respects (heights_same S) (set_value k v).
Proof.
  apply hs_eq. intros ws. unfold exec, set_value.
  destruct (cells ws !! k) as [[v0 st|st]|]; simpl; try reflexivity.
  by destruct (storable v).
Qed.

Lemma hs_set_style k f : respects (heights_same S) (set_style k f).
Proof. by apply hs_eq. Qed.

Lemma hs_cell row col v : respects (heights_same S) (cell row col v).
Proof. rule respects_cell; [apply hs__get_cell|]. intros. apply hs_set_value. Qed.

Lemma hs_insert_rows idx : respects (heights_same S) (insert_rows idx).
Proof. by apply hs_eq. Qed.

Lemma hs_delete_rows idx amount : respects (heights_same S) (delete_rows idx amount).
Proof. by apply hs_eq. Qed.

Lemma hs_merge_cells rg : respects (heights_same S) (merge_cells rg).
Proof.
  apply hs_eq. intros ws. unfold exec, merge_cells. by destruct (valid_range rg).
Qed.

Lemma hs_safely_unmerge row : respects (heights_same S) (safely_unmerge_row_cells row).
Proof. apply hs_eq. intros ws. by destruct (safely_unmerge_spec row ws) as (_ & _ & -> & _). Qed.

Lemma hs_unmerge_if_present rg : respects (heights_same S) (Main.unmerge_if_present rg).
Proof.
  apply hs_eq. intros ws. unfold exec. rewrite unmerge_if_present_run. cbn [snd].
  case_decide as Hin; [|done].
  destruct (list_remove_elem _ _ Hin) as [l' Hrem].
  by destruct (unmerge_cells_present _ _ _ Hrem) as (_ & -> & _).
Qed.

End row_heights.

Ltac respect_prim ::=
  lazymatch goal with
  | |- confined _ (set_height _ _) => apply confined_set_height
  | |- confined _ (safely_unmerge_row_cells _) => apply confined_safely_unmerge; lia
  | |- confined _ (_get_cell _ _) => apply confined__get_cell; lia
  | |- confined _ (cell _ _ _) => apply confined_cell; lia
  | |- confined _ (setitem _ _ _) => apply confined_setitem; lia
  | |- confined _ (set_value _ _) => apply confined_set_value; simpl; lia
  | |- confined _ (set_style _ _) => apply confined_set_style; simpl; lia
  | |- confined _ (insert_rows _) => apply confined_insert_rows; lia
  | |- confined _ (merge_cells _) => apply confined_merge_cells; simpl; lia
  | |- respects (same_outside _) (cell _ _ _) =>
      apply so_cell; simpl; split; [done|repeat constructor]
  | |- respects no_new_placeholder (set_height _ _) => apply npl_set_height
  | |- respects no_new_placeholder (safely_unmerge_row_cells _) => apply npl_safely_unmerge
  | |- respects no_new_placeholder (_get_cell _ _) => apply npl__get_cell
  | |- respects no_new_placeholder (cell _ _ _) => apply npl_cell
  | |- respects no_new_placeholder (set_value _ _) => apply npl_set_value
  | |- respects no_new_placeholder (set_style _ _) => apply npl_set_style
  | |- respects merged_same (set_height _ _) => apply ms_set_height
  | |- respects merged_same (_get_cell _ _) => apply ms__get_cell
  | |- respects merged_same (cell _ _ _) => apply ms_cell
  | |- respects merged_same (set_value _ _) => apply ms_set_value
  | |- respects merged_same (set_style _ _) => apply ms_set_style
  | |- respects merged_same (insert_rows _) => apply ms_insert_rows
  | |- respects (rows_only _) (set_height _ _) => apply ro_set_height
  | |- respects (rows_only _) (_get_cell _ _) => apply ro__get_cell; simpl; lia
  | |- respects (rows_only _) (cell _ _ _) => apply ro_cell; simpl; lia
  | |- respects (rows_only _) (set_value _ _) => apply ro_set_value; simpl; lia
  | |- respects (rows_only _) (set_style _ _) => apply ro_set_style; simpl; lia
  | |- respects (rows_only _) (merge_cells _) => apply ro_merge_cells; simpl; intros; lia
  | |- respects (keeps (placeholder_free _ _)) (insert_rows _) => apply kpf_insert_rows; lia
  | |- respects (keeps (placeholder_free _ _)) (set_height _ _) =>
      apply kpf_npl, npl_set_height
  | |- respects (keeps (placeholder_free _ _)) (safely_unmerge_row_cells _) =>
      apply kpf_npl, npl_safely_unmerge
  | |- respects (keeps (placeholder_free _ _)) (_get_cell _ _) => apply kpf_npl, npl__get_cell
  | |- respects (keeps (placeholder_free _ _)) (cell _ _ _) => apply kpf_npl, npl_cell
  | |- respects (keeps (placeholder_free _ _)) (set_value _ _) => apply kpf_npl, npl_set_value
  | |- respects (keeps (placeholder_free _ _)) (set_style _ _) => apply kpf_npl, npl_set_style
  | |- respects (reads_same _) (set_height _ _) => apply rs_set_height
  | |- respects (reads_same _) (_get_cell _ _) => apply rs__get_cell
  | |- respects (reads_same _) (cell _ _ PNone) => apply rs_cell_none
  | |- respects (reads_same _) (cell _ _ _) => apply rs_cell; simpl; lia
  | |- respects (reads_same _) (set_value _ _) => apply rs_set_value; simpl; lia
  | |- respects (reads_same _) (set_style _ _) => apply rs_set_style; simpl; lia
  | |- respects (content_same _) (set_height _ _) => apply cs_rs, rs_set_height
  | |- respects (content_same _) (_get_cell _ _) => apply cs_rs, rs__get_cell
  | |- respects (content_same _) (cell _ _ PNone) => apply cs_rs, rs_cell_none
  | |- respects (content_same _) (cell _ _ _) => apply cs_rs, rs_cell; simpl; lia
  | |- respects (content_same _) (set_value _ _) => apply cs_rs, rs_set_value; simpl; lia
  | |- respects (content_same _) (set_style _ _) => apply cs_set_style
  | |- respects (heights_same _) (set_height _ _) => apply hs_set_height; simpl; lia
  | |- respects (heights_same _) (safely_unmerge_row_cells _) => apply hs_safely_unmerge
  | |- respects (heights_same _) (_get_cell _ _) => apply hs__get_cell
  | |- respects (heights_same _) (cell _ _ _) => apply hs_cell
  | |- respects (heights_same _) (set_value _ _) => apply hs_set_value
  | |- respects (heights_same _) (set_style _ _) => apply hs_set_style
  | |- respects (heights_same _) (insert_rows _) => apply hs_insert_rows
  | |- respects (heights_same _) (delete_rows _ _) => apply hs_delete_rows
  | |- respects (heights_same _) (merge_cells _) => apply hs_merge_cells
  end.

(** ** Copying the format of a row *)

Lemma exec_for_app {A} (l1 l2 : list A) (body : A → M unit) ws :
  (∀ x, total (body x)) →
  exec (for_ (l1 ++ l2) body) ws = exec (for_ l2 body) (exec (for_ l1 body) ws).
Proof.
  intros Ht. revert ws. induction l1 as [|x l1 IH]; intros ws; [done|].
  rewrite <- app_comm_cons, !exec_for_cons by done. apply IH.
Qed.

Lemma copy_row_format_unfold src tgt :
  copy_row_format src tgt =
  try_except
    (h ← get_height src;
     set_height tgt h ;;
     safely_unmerge_row_cells tgt ;;
     for_ (seqZ 1 12) (copy_cell_format src tgt) ;;
     last_cell ← cell tgt 12 PNone;
     set_style last_cell (with_fill red_fill))
    Exception (λ _, mret tt).
Proof. reflexivity. Qed.

Lemma total_copy_cell_format src tgt col : total (copy_cell_format src tgt col).
Proof. apply total_try_except. intros; apply total_ret. Qed.

Lemma rs_copy_cell_format src tgt col :
  respects (reads_same (λ k, k.1 = tgt ∧ k.2 = col)) (copy_cell_format src tgt col).
Proof. unfold copy_cell_format. respect. Qed.

Lemma ms_copy_cell_format src tgt col : respects merged_same (copy_cell_format src tgt col).
Proof. unfold copy_cell_format. respect. Qed.

Lemma with_all_components (s t : Style) :
  with_alignment (alignment s)
    (with_protection (protection s)
       (with_number_format (number_format s)
          (with_fill (fill s) (with_border (border s) (with_font (font s) t))))) = s.
Proof. by destruct s. Qed.

Lemma style_at_ensure_cell k k' ws :
  style_at (set_cells (ensure_cell k) ws) k' = style_at ws k'.
Proof.
  unfold style_at. simpl. rewrite ensure_cell_lookup. case_decide; [|done]. subst.
  by destruct (cells ws !! k').
Qed.

Lemma copy_cell_format_style src tgt col ws :
  1 ≤ src → 1 ≤ tgt → 1 ≤ col → src ≠ tgt →
  style_at (exec (copy_cell_format src tgt col) ws) (tgt, col) =
  if decide (style_at ws (src, col) = default_style)
  then style_at ws (tgt, col) else style_at ws (src, col).
Proof.
  intros Hs Ht Hc Hne. unfold copy_cell_format. rewrite exec_try_pass. unfold exec.
  rewrite (bind_ok _ _ _ _ _ (cell_none_run src col ws Hs Hc)).
  set (w1 := set_cells (ensure_cell (src, col)) ws).
  rewrite (bind_ok _ _ _ _ _ (cell_none_run tgt col w1 Ht Hc)).
  set (w2 := set_cells (ensure_cell (tgt, col)) w1).
  erewrite (bind_ok (has_style _)) by reflexivity.
  assert (∀ k, style_at w2 k = style_at ws k) as Hst.
  { intros k. subst w2 w1. by rewrite !style_at_ensure_cell. }
  assert (from_option (λ x, bool_decide (cell_style x ≠ default_style)) false
            (cells w2 !! (src, col))
          = bool_decide (style_at ws (src, col) ≠ default_style)) as ->.
  { rewrite <- Hst. unfold style_at. destruct (cells w2 !! (src, col)); [done|].
    symmetry. apply bool_decide_eq_false_2. intros H. by apply H. }
  assert (is_Some (cells w2 !! (tgt, col))) as [c Hex].
  { subst w2. simpl. rewrite ensure_cell_lookup, decide_True by done. eauto. }
  clearbody w2. clear w1.
  case_bool_decide as Hd.
  - rewrite decide_False by done.
    erewrite (bind_ok (style_of _)) by reflexivity.
    repeat (erewrite (bind_ok (set_style _ _)) by reflexivity).
    unfold style_at at 1. simpl. rewrite !lookup_alter_eq, Hex. simpl.
    change (from_option cell_style default_style (cells w2 !! (src, col)))
      with (style_at w2 (src, col)).
    rewrite Hst. destruct c; simpl; by rewrite with_all_components.
  - rewrite decide_True by (by destruct (decide (style_at ws (src, col) = default_style))).
    simpl. apply Hst.
Qed.

(** Dissolving merges has nothing to do with row heights. *)
Section blind.

Lemma hb_ret {A} (a : A) : heights_blind (mret a).
Proof. by intros f ws. Qed.

Lemma hb_bind {A B} (m : M A) (k : A → M B) :
  heights_blind m → (∀ a, heights_blind (k a)) → heights_blind (m ≫= k).
Proof.
  intros Hm Hk f ws. unfold mbind, M_bind. rewrite Hm.
  destruct (m ws) as [[a|e] w']; simpl; [apply Hk|done].
Qed.

Lemma hb_try {A} (body : M A) cls (h : Exn → M A) :
  heights_blind body → (∀ e, heights_blind (h e)) → heights_blind (try_except body cls h).
Proof.
  intros Hb Hh f ws. unfold try_except. rewrite Hb.
  destruct (body ws) as [[a|e] w']; simpl; [done|].
  destruct (cls e); [apply Hh|done].
Qed.

Lemma hb_for {A} (l : list A) (body : A → M unit) :
  (∀ x, heights_blind (body x)) → heights_blind (for_ l body).
Proof.
  intros Hb. induction l as [|x l IH]; [apply hb_ret|].
  cbn [for_]. apply hb_bind; [apply Hb|]. by intros _.
Qed.

Lemma hb_delete_each (ks : list (Z * Z)) : heights_blind (delete_each ks).
Proof.
  induction ks as [|k ks IH]; [apply hb_ret|].
  intros f ws. cbn [delete_each]. unfold mbind, M_bind, get_ws at 1 3. simpl.
  destruct (cells ws !! k); [|done]. exact (IH f (set_cells (delete k) ws)).
Qed.

Lemma hb_unmerge_cells rg : heights_blind (unmerge_cells rg).
Proof.
  intros f ws. unfold unmerge_cells, mbind, M_bind, get_ws at 1 3. simpl.
  destruct (existsb (issubset rg) (merged ws)); [|done].
  destruct (list_remove rg (merged ws)) as [l'|]; [|done].
  exact (hb_delete_each _ f (set_merged (λ _, l') ws)).
Qed.

Lemma hb_safely_unmerge row : heights_blind (safely_unmerge_row_cells row).
Proof.
  intros f ws. unfold safely_unmerge_row_cells.
  apply (hb_try _ _ _) with (f := f) (ws := ws); [|intros; apply hb_ret].
  intros g w. unfold mbind at 1 3, M_bind at 1 3, get_ws at 1 3. simpl.
  apply (hb_for _ _) with (f := g) (ws := w). intros rg.
  apply hb_try; [apply hb_unmerge_cells|intros; apply hb_ret].
Qed.

End blind.

Lemma safely_unmerge_set_heights row f ws :
  exec (safely_unmerge_row_cells row) (set_heights f ws)
  = set_heights f (exec (safely_unmerge_row_cells row) ws).
Proof. unfold exec. by rewrite hb_safely_unmerge. Qed.

Lemma view_facts ws ws' k :
  view ws' k = view ws k →
  value_at ws' k = value_at ws k ∧ style_at ws' k = style_at ws k ∧
  placeholder ws' k = placeholder ws k.
Proof. unfold view. intros H. by simplify_eq. Qed.

Lemma rs_copy_loop src tgt (lo n : Z) :
  respects (reads_same (λ k, k.1 = tgt ∧ lo ≤ k.2 < lo + n))
    (for_ (seqZ lo n) (copy_cell_format src tgt)).
Proof.
  rule respects_for. intros c Hc%elem_of_seqZ ws.
  eapply reads_same_mono; [|apply rs_copy_cell_format]. simpl. intros k [? ?]. lia.
Qed.

Lemma copy_loop_style src tgt c ws :
  1 ≤ src → 1 ≤ tgt → src ≠ tgt → 1 ≤ c ≤ 12 →
  style_at (exec (for_ (seqZ 1 12) (copy_cell_format src tgt)) ws) (tgt, c) =
  if decide (style_at ws (src, c) = default_style)
  then style_at ws (tgt, c) else style_at ws (src, c).
Proof.
  intros Hs Ht Hne Hc.
  replace 12 with ((c - 1) + (13 - c)) at 1 by lia.
  rewrite seqZ_app by lia. replace (1 + (c - 1)) with c by lia.
  rewrite (seqZ_cons c) by lia.
  rewrite exec_for_app by apply total_copy_cell_format.
  rewrite exec_for_cons by apply total_copy_cell_format.
  set (wA := exec (for_ (seqZ 1 (c - 1)) (copy_cell_format src tgt)) ws).
  set (wB := exec (copy_cell_format src tgt c) wA).
  pose proof (rs_copy_loop src tgt 1 (c - 1) ws) as HA. fold wA in HA.
  pose proof (rs_copy_loop src tgt (Z.succ c) (Z.pred (13 - c)) wB) as HC.
  destruct (view_facts _ _ _ (HC (tgt, c) ltac:(simpl; lia))) as (_ & -> & _).
  subst wB. rewrite copy_cell_format_style by lia.
  destruct (view_facts _ _ _ (HA (tgt, c) ltac:(simpl; lia))) as (_ & -> & _).
  destruct (view_facts _ _ _ (HA (src, c) ltac:(simpl; lia))) as (_ & -> & _).
  done.
Qed.

Lemma heights_same_none ws ws' : heights_same (λ _, False) ws ws' → heights ws' = heights ws.
Proof. intros H. apply map_eq. intros r. apply H. tauto. Qed.

Lemma hs_copy_loop src tgt l :
  respects (heights_same (λ _, False)) (for_ l (copy_cell_format src tgt)).
Proof. rule respects_for. intros c _. unfold copy_cell_format. respect. Qed.

(** What [copy_row_format] does, cell by cell. *)
Lemma copy_row_format_spec (ws : Worksheet) (source_row target_row : Z) :
  1 ≤ source_row → 1 ≤ target_row → source_row ≠ target_row →
  let w0 := exec (safely_unmerge_row_cells target_row) ws in
  let ws' := exec (copy_row_format source_row target_row) ws in
  (∀ col, 1 ≤ col ≤ 12 →
     style_at ws' (target_row, col) = copied_style w0 source_row target_row col) ∧
  heights ws' !! target_row = Some (default None (heights ws !! source_row)) ∧
  (∀ r, r ≠ target_row → heights ws' !! r = heights ws !! r) ∧
  content_same (λ _, False) w0 ws' ∧
  (∀ k, k.1 ≠ target_row → style_at ws' k = style_at w0 k) ∧
  merged ws' = merged w0.
Proof.
  intros Hs Ht Hne w0 ws'.
  set (h := default None (heights ws !! source_row)).
  set (w1 := set_heights <[target_row := h]> w0).
  set (loop := for_ (seqZ 1 12) (copy_cell_format source_row target_row)).
  set (wL := exec loop w1).
  assert (ws' = set_cells (alter (map_style (with_fill red_fill)) (target_row, 12))
                  (set_cells (ensure_cell (target_row, 12)) wL)) as Hws'.
  { subst ws'. rewrite copy_row_format_unfold, exec_try_pass.
    rewrite (exec_bind _ _ _ h) by reflexivity.
    rewrite (exec_bind _ _ _ tt) by reflexivity.
    rewrite (exec_bind _ _ _ tt)
      by (unfold result; by rewrite safely_unmerge_run).
    change (exec (get_height source_row) ws) with ws.
    change (exec (set_height target_row h) ws) with (set_heights <[target_row := h]> ws).
    rewrite safely_unmerge_set_heights. fold w0 w1.
    rewrite (exec_bind _ _ _ tt)
      by (apply total_unit, total_for; intros; apply total_copy_cell_format).
    fold loop wL. unfold exec. by rewrite style_cell_run by lia. }
  assert (reads_same (λ k, k.1 = target_row) w1 wL) as HL.
  { eapply reads_same_mono; [|apply (rs_copy_loop source_row target_row 1 12)].
    simpl. tauto. }
  assert (∀ k, style_at ws' k
               = if decide (k = (target_row, 12)) then with_fill red_fill (style_at wL k)
                 else style_at wL k) as Hstyle.
  { intros k. rewrite Hws'. unfold style_at. simpl. case_decide as E.
    - subst k. rewrite lookup_alter_eq, ensure_cell_lookup, decide_True by done.
      by destruct (cells wL !! (target_row, 12)) as [[]|].
    - rewrite lookup_alter_ne, ensure_cell_lookup_ne by done. done. }
  split_and!.
  - intros col Hcol. rewrite Hstyle. unfold copied_style.
    assert (style_at wL (target_row, col)
            = if decide (style_at w0 (source_row, col) = default_style)
              then style_at w0 (target_row, col) else style_at w0 (source_row, col)) as ->.
    { subst wL loop. by rewrite copy_loop_style by lia. }
    destruct (decide (col = 12)) as [->|Hc12].
    + by rewrite decide_True by done.
    + rewrite decide_False; [done|]. intros [= ?]. done.
  - rewrite Hws'. simpl.
    assert (heights wL = heights w1) as ->.
    { apply heights_same_none. subst wL loop. apply hs_copy_loop. }
    subst w1. simpl. by rewrite lookup_insert_eq.
  - intros r Hr. rewrite Hws'. simpl.
    assert (heights wL = heights w1) as ->.
    { apply heights_same_none. subst wL loop. apply hs_copy_loop. } subst w1. simpl. rewrite lookup_insert_ne by done.
    subst w0. by destruct (safely_unmerge_spec target_row ws) as (_ & _ & -> & _).
  - assert (respects (content_same (λ _, False)) loop) as Hc.
    { subst loop. rule respects_for. intros c _. unfold copy_cell_format. respect. }
    intros k Hk. destruct (Hc w1 k Hk) as [Hv Hp]. fold wL in Hv, Hp.
    rewrite Hws'. unfold value_at, placeholder in *. simpl.
    destruct (decide (k = (target_row, 12))) as [->|E].
    + rewrite lookup_alter_eq, ensure_cell_lookup, decide_True by done.
      change (cells w0) with (cells w1). rewrite <- Hv, <- Hp.
      by destruct (cells wL !! (target_row, 12)) as [[]|].
    + rewrite lookup_alter_ne, ensure_cell_lookup_ne by done.
      change (cells w0) with (cells w1). by rewrite <- Hv, <- Hp.
  - intros k Hk. rewrite Hstyle. rewrite decide_False by (intros ->; by apply Hk).
    destruct (view_facts _ _ _ (HL k Hk)) as (_ & -> & _). done.
  - rewrite Hws'. simpl.
    assert (respects merged_same loop) as Hm.
    { subst loop. rule respects_for. intros c _. apply ms_copy_cell_format. }
    apply (Hm w1).
Qed.

(** X5.  Copying the format of a row to another row ([source_row] and
    [target_row] distinct, both at least 1): the merges on the target
    row are dissolved; then every cell A–L of the target row takes the
    style of the cell of the source row in its column when that cell
    has a style, and keeps its own otherwise; the fill of the
    target's column L is set to solid red; the target row takes the
    height of the source row.  No value changes, no style outside the
    target row changes, no other height changes, and no merged range
    is touched beyond the dissolving. *)
Theorem X5_copy_row_format_copies_styles (ws : Worksheet) (source_row target_row : Z) :
  1 ≤ source_row → 1 ≤ target_row → source_row ≠ target_row →
  let w0 := exec (safely_unmerge_row_cells target_row) ws in
  let ws' := exec (copy_row_format source_row target_row) ws in
  (∀ col, 1 ≤ col ≤ 12 →
     style_at ws' (target_row, col) = copied_style w0 source_row target_row col) ∧
  heights ws' !! target_row = Some (default None (heights ws !! source_row)) ∧
  (∀ r, r ≠ target_row → heights ws' !! r = heights ws !! r) ∧
  content_same (λ _, False) w0 ws' ∧
  (∀ k, k.1 ≠ target_row → style_at ws' k = style_at w0 k) ∧
  merged ws' = merged w0.
Proof. apply copy_row_format_spec. Qed.

(** A witness for X5: row 13 of the blank template copied to row 14. *)
Lemma X5_witness :
  let w0 := exec (safely_unmerge_row_cells 14) blank_template in
  let ws' := exec (copy_row_format 13 14) blank_template in
  (∀ col, 1 ≤ col ≤ 12 → style_at ws' (14, col) = copied_style w0 13 14 col) ∧
  heights ws' !! 14 = Some (default None (heights blank_template !! 13)) ∧
  (∀ r, r ≠ 14 → heights ws' !! r = heights blank_template !! r) ∧
  content_same (λ _, False) w0 ws' ∧
  (∀ k, k.1 ≠ 14 → style_at ws' k = style_at w0 k) ∧
  merged ws' = merged w0.
Proof. apply (X5_copy_row_format_copies_styles blank_template 13 14); lia. Defined.


(** ** Provisioning the item rows *)

Lemma prepare_product_rows_unfold n :
  prepare_product_rows n =
  if n <=? 2 then mret tt else for_ (seqZ 0 (n - 2)) prepare_row.
Proof. reflexivity. Qed.

Lemma total_prepare_row i : total (prepare_row i).
Proof. apply total_try_except. intros; apply total_ret. Qed.

Lemma view_write_cell ws k k' v :
  k ≠ k' → view (write_cell k v ws) k' = view ws k'.
Proof.
  intros Hne. unfold view, value_at, style_at, placeholder.
  by rewrite write_cell_lookup, decide_False by done.
Qed.

Lemma view_parts ws k v st b :
  view ws k = (v, st, b) → value_at ws k = v ∧ style_at ws k = st ∧ placeholder ws k = b.
Proof. unfold view. intros H. by simplify_eq. Qed.

Lemma filter_touches_nil row (l : list CellRange) :
  (∀ rg, rg ∈ l → ¬ touches_row row rg) → filter (λ r, touches_row row r) l = [].
Proof.
  induction l as [|x l IH]; intros H; [done|].
  rewrite filter_cons_False by (apply H; left). apply IH. intros rg Hin. apply H. by right.
Qed.

(** One more item row: the rows above are as before, the rows below
    move one row down, and the new row is a copy of the model row with
    its label. *)
Lemma prepare_row_spec i w :
  0 ≤ i → (∀ rg, rg ∈ merged w → ¬ touches_row (14 + i) rg) →
  let w' := exec (prepare_row i) w in
  (∀ r c, r < 14 + i → view w' (r, c) = view w (r, c)) ∧
  (∀ r c, 14 + i < r → view w' (r, c) = view w (r - 1, c)) ∧
  value_at w' (14 + i, 1) = row_label (3 + i) ∧
  (∀ c, 1 ≤ c ≤ 12 → style_at w' (14 + i, c) = model_row_style w c) ∧
  merged w' = merged w ∧
  heights w' = <[14 + i := default None (heights w !! 13)]> (heights w).
Proof.
  intros Hi Hfree w'. subst w'. unfold prepare_row. rewrite exec_try_pass.
  rewrite (exec_bind _ _ _ tt) by (unfold result; by rewrite insert_rows_run).
  set (w1 := exec (insert_rows (14 + i)) w).
  assert (merged w1 = merged w) as Hm1 by apply insert_rows_merged.
  assert (heights w1 = heights w) as Hh1 by done.
  rewrite (exec_bind _ _ _ tt) by apply total_unit, total_copy_row_format.
  set (w2 := exec (copy_row_format 13 (14 + i)) w1).
  assert (exec (safely_unmerge_row_cells (14 + i)) w1 = w1) as Hnoop.
  { unfold exec. rewrite safely_unmerge_noop; [done|].
    apply filter_touches_nil. intros rg Hin. rewrite Hm1 in Hin. by apply Hfree. }
  destruct (copy_row_format_spec w1 13 (14 + i)) as (Hst & Hht & Hho & Hcs & Hso & Hm2);
    [lia..|].
  fold w2 in Hst, Hht, Hho, Hcs, Hso, Hm2. rewrite Hnoop in Hst, Hcs, Hso, Hm2.
  assert (∀ k, k.1 ≠ 14 + i → view w2 k = view w1 k) as Hv2.
  { intros k Hk. unfold view. destruct (Hcs k) as [-> ->]; [tauto|]. by rewrite Hso. }
  assert (∀ c, view w1 (14 + i, c) = (PNone, default_style, false)) as Hnew.
  { intros c. subst w1. rewrite insert_rows_view.
    rewrite decide_False, decide_True by lia. done. }
  assert (placeholder w2 (14 + i, 1) = false) as Hp2.
  { destruct (Hcs (14 + i, 1)) as [_ ->]; [tauto|].
    by destruct (view_parts _ _ _ _ _ (Hnew 1)) as (_ & _ & ?). }
  assert (exec (cell (14 + i) 1 (row_label (3 + i)) ;; mret tt) w2
          = write_cell (14 + i, 1) (row_label (3 + i)) w2) as ->.
  { unfold exec, row_label.
    by rewrite (bind_ok _ _ _ _ _ (cell_str_run (14 + i) 1 _ w2 ltac:(lia) ltac:(lia) Hp2)). }
  set (w3 := write_cell (14 + i, 1) _ w2).
  assert (∀ k, k.1 ≠ 14 + i → view w3 k = view w1 k) as Hv3.
  { intros k Hk. subst w3. rewrite view_write_cell by (intros <-; by apply Hk).
    by apply Hv2. }
  split_and!.
  - intros r c Hr. rewrite Hv3 by (simpl; lia). subst w1. rewrite insert_rows_view.
    by rewrite decide_True by lia.
  - intros r c Hr. rewrite Hv3 by (simpl; lia). subst w1. rewrite insert_rows_view.
    by rewrite !decide_False by lia.
  - subst w3. unfold value_at. by rewrite write_cell_lookup, decide_True by done.
  - intros c Hc. subst w3. unfold style_at at 1. rewrite write_cell_lookup.
    assert (style_at w2 (14 + i, c) = model_row_style w c) as Hs2.
    { rewrite Hst by lia. unfold copied_style, model_row_style.
      destruct (view_parts _ _ _ _ _ (Hnew c)) as (_ & -> & _).
      assert (style_at w1 (13, c) = style_at w (13, c)) as ->.
      { subst w1. pose proof (insert_rows_view (14 + i) w 13 c) as Hv.
        rewrite decide_True in Hv by lia. by apply view_facts in Hv as (_ & ? & _). }
      by destruct (decide (style_at w (13, c) = default_style)) as [->|]. }
    case_decide as E; [|exact Hs2]. injection E as <-. simpl. exact Hs2.
  - subst w3. simpl. by rewrite Hm2.
  - subst w3. simpl. apply map_eq. intros r.
    destruct (decide (r = 14 + i)) as [->|Hr].
    + by rewrite Hht, lookup_insert_eq, Hh1.
    + by rewrite Hho, lookup_insert_ne, Hh1 by done.
Qed.

Lemma prepare_rows_loop ws (m : nat) :
  (∀ rg r, rg ∈ merged ws → 14 ≤ r < 14 + Z.of_nat m → ¬ touches_row r rg) →
  let w := exec (for_ (seqZ 0 (Z.of_nat m)) prepare_row) ws in
  (∀ r c, 14 ≤ r → view w (r + Z.of_nat m, c) = view ws (r, c)) ∧
  (∀ r c, r ≤ 13 → view w (r, c) = view ws (r, c)) ∧
  (∀ i, 0 ≤ i < Z.of_nat m → value_at w (14 + i, 1) = row_label (3 + i)) ∧
  (∀ i c, 0 ≤ i < Z.of_nat m → 1 ≤ c ≤ 12 →
     style_at w (14 + i, c) = model_row_style ws c) ∧
  merged w = merged ws ∧
  (∀ i, 0 ≤ i < Z.of_nat m →
     heights w !! (14 + i) = Some (default None (heights ws !! 13))) ∧
  (∀ r, ¬ (14 ≤ r < 14 + Z.of_nat m) → heights w !! r = heights ws !! r).
Proof.
  induction m as [|m IH]; intros Hfree w; subst w.
  - change (exec _ ws) with ws. split_and!; try done; try (intros; lia).
    intros r c Hr. by replace (r + Z.of_nat 0) with r by lia.
  - rewrite seqZ_S, exec_for_app by apply total_prepare_row.
    rewrite exec_for_cons by apply total_prepare_row.
    change (exec (for_ [] prepare_row) ?x) with x.
    destruct IH as (HA & HB & HC & HS & HD & HE & HF).
    { intros rg r Hin Hr. apply Hfree; [done|lia]. }
    set (w := exec (for_ (seqZ 0 (Z.of_nat m)) prepare_row) ws) in *.
    replace (0 + Z.of_nat m) with (Z.of_nat m) by lia.
    destruct (prepare_row_spec (Z.of_nat m) w) as (H1 & H2 & H3 & H4 & H5 & H6); [lia|..].
    { intros rg Hin. rewrite HD in Hin. apply Hfree; [done|lia]. }
    set (w' := exec (prepare_row (Z.of_nat m)) w) in *.
    assert (∀ c, model_row_style w c = model_row_style ws c) as Hmodel.
    { intros c. unfold model_row_style.
      by destruct (view_facts _ _ _ (HB 13 c ltac:(lia))) as (_ & -> & _). }
    split_and!.
    + intros r c Hr. rewrite H2 by lia.
      replace (r + Z.of_nat (S m) - 1) with (r + Z.of_nat m) by lia. by apply HA.
    + intros r c Hr. rewrite H1 by lia. by apply HB.
    + intros i Hi. destruct (decide (i = Z.of_nat m)) as [->|Hne]; [done|].
      destruct (view_facts _ _ _ (H1 (14 + i) 1 ltac:(lia))) as (-> & _).
      apply HC. lia.
    + intros i c Hi Hc. destruct (decide (i = Z.of_nat m)) as [->|Hne].
      * rewrite H4 by done. apply Hmodel.
      * destruct (view_facts _ _ _ (H1 (14 + i) c ltac:(lia))) as (_ & -> & _).
        apply HS; lia.
    + by rewrite H5.
    + intros i Hi. rewrite H6. destruct (decide (i = Z.of_nat m)) as [->|Hne].
      * rewrite lookup_insert_eq. f_equal. f_equal. apply HF. lia.
      * rewrite lookup_insert_ne by lia. apply HE. lia.
    + intros r Hr. rewrite H6, lookup_insert_ne by lia. apply HF. lia.
Qed.

(** X4.  Provisioning rows for [n] items on a sheet where no merged
    range touches the rows 14 to [11 + n]: with [k = max 0 (n - 2)],
    whatever was read at a row from 14 down (value, style, placeholder)
    is read [k] rows lower, the rows up to the model row 13 read as
    before, each of the [k] new rows 14, 15, ... carries its label
    "3.", "4.", ... in column A, the styles of the model row in A–L
    (the fill of L red) and the height of the model row, and the
    merged ranges are unchanged.  For [n <= 2] nothing changes. *)
Theorem X4_row_provisioning_moves_the_rows_below (ws : Worksheet) (n : Z) :
  (∀ rg r, rg ∈ merged ws → 14 ≤ r ≤ 11 + n → ¬ touches_row r rg) →
  let ws' := exec (prepare_product_rows n) ws in
  let k := Z.max 0 (n - 2) in
  (∀ r c, 14 ≤ r → view ws' (r + k, c) = view ws (r, c)) ∧
  (∀ r c, r ≤ 13 → view ws' (r, c) = view ws (r, c)) ∧
  (∀ i, 0 ≤ i < k → value_at ws' (14 + i, 1) = row_label (3 + i)) ∧
  (∀ i c, 0 ≤ i < k → 1 ≤ c ≤ 12 → style_at ws' (14 + i, c) = model_row_style ws c) ∧
  (∀ i, 0 ≤ i < k → heights ws' !! (14 + i) = Some (default None (heights ws !! 13))) ∧
  merged ws' = merged ws ∧
  (n ≤ 2 → ws' = ws).
Proof.
  intros Hfree ws' k. subst ws'. rewrite prepare_product_rows_unfold.
  destruct (n <=? 2) eqn:Hn.
  - apply Z.leb_le in Hn. change (exec (mret tt) ws) with ws.
    assert (k = 0) as -> by (subst k; lia).
    split_and!; try done; try (intros; lia).
    intros r c Hr. by replace (r + 0) with r by lia.
  - apply Z.leb_gt in Hn. assert (k = n - 2) as -> by (subst k; lia).
    replace (n - 2) with (Z.of_nat (Z.to_nat (n - 2))) by lia.
    destruct (prepare_rows_loop ws (Z.to_nat (n - 2))) as (HA & HB & HC & HS & HD & HE & _).
    { intros rg r Hin Hr. apply Hfree; [done|lia]. }
    split_and!; try done. intros. lia.
Qed.

(** A witness for X4: rows for four items on the blank template. *)
Lemma X4_witness :
  let ws' := exec (prepare_product_rows 4) blank_template in
  let k := Z.max 0 (4 - 2) in
  (∀ r c, 14 ≤ r → view ws' (r + k, c) = view blank_template (r, c)) ∧
  (∀ r c, r ≤ 13 → view ws' (r, c) = view blank_template (r, c)) ∧
  (∀ i, 0 ≤ i < k → value_at ws' (14 + i, 1) = row_label (3 + i)) ∧
  (∀ i c, 0 ≤ i < k → 1 ≤ c ≤ 12 →
     style_at ws' (14 + i, c) = model_row_style blank_template c) ∧
  (∀ i, 0 ≤ i < k →
     heights ws' !! (14 + i) = Some (default None (heights blank_template !! 13))) ∧
  merged ws' = merged blank_template ∧
  (4 ≤ 2 → ws' = blank_template).
Proof.
  apply (X4_row_provisioning_moves_the_rows_below blank_template 4).
  intros rg r Hin Hr. pose proof (proj2 (proj2 blank_template_contract) rg Hin).
  intros Ht%touches_row_spec. lia.
Defined.

(** ** The nine rows of the trailing block *)

(** A row inserted past the last row of the sheet moves nothing. *)
Lemma insert_rows_beyond idx ws :
  sheet_max_row ws < idx → exec (insert_rows idx) ws = ws.
Proof.
  intros Hmax.
  assert (cells (exec (insert_rows idx) ws) = cells ws) as Hc.
  { apply map_eq. intros [r c]. rewrite insert_rows_lookup.
    assert (∀ r' c', idx ≤ r' → cells ws !! (r', c') = None) as Hnone.
    { intros r' c' Hr'. destruct (cells ws !! (r', c')) eqn:E; [|done].
      pose proof (sheet_max_row_ge ws r' c' ltac:(by rewrite E)). lia. }
    destruct (decide (r < idx)); [done|].
    destruct (decide (r = idx)) as [->|]; [by rewrite Hnone by lia|].
    by rewrite !Hnone by lia. }
  revert Hc. unfold exec, insert_rows, modify. simpl. destruct ws as [cs ms hs]. simpl.
  unfold set_cells. simpl. by intros ->.
Qed.

(** [add_additional_rows] never moves a row: it inserts a row only
    past the end of the sheet. *)
Lemma add_row_run cur w :
  exec (Processor.add_row cur) w
  = exec (try_except (Processor.blank_row cur) Exception (λ _, mret tt))
      (set_heights <[cur := Some 25]> (exec (safely_unmerge_row_cells cur) w)).
Proof.
  unfold Processor.add_row.
  rewrite (exec_bind _ _ _ tt) by (unfold result; by rewrite safely_unmerge_run).
  set (w1 := exec (safely_unmerge_row_cells cur) w).
  rewrite (exec_bind _ _ _ (sheet_max_row w1)) by reflexivity.
  change (exec ws_max_row w1) with w1.
  assert (exec (if sheet_max_row w1 <? cur then insert_rows cur else mret tt) w1 = w1
          ∧ result (if sheet_max_row w1 <? cur then insert_rows cur else mret tt) w1 = Ok tt)
    as [Hins Hres].
  { destruct (sheet_max_row w1 <? cur) eqn:E; [|done].
    split; [|done]. apply insert_rows_beyond. by apply Z.ltb_lt. }
  rewrite (exec_bind _ _ _ tt) by done. rewrite Hins.
  by rewrite (exec_bind _ _ _ tt) by reflexivity.
Qed.

Lemma content_of_cells ws ws' k :
  cells ws' !! k = cells ws !! k → content ws' k = content ws k ∧ blanked ws' k = blanked ws k.
Proof. unfold blanked, content, value_at, placeholder. by intros ->. Qed.

Ltac blank_cell_tac cur col w Hr Hc :=
  rewrite (bind_ok _ _ _ _ _ (cell_none_run cur col w Hr Hc));
  set (wE := set_cells (ensure_cell (cur, col)) w);
  erewrite (bind_ok (isinstance_MergedCell _)) by reflexivity;
  assert (∀ k, k ≠ (cur, col) → cells wE !! k = cells w !! k) as HE
    by (intros k Hk; subst wE; simpl; by rewrite ensure_cell_lookup_ne by done);
  assert (content wE (cur, col) = content w (cur, col)) as HcE
    by (subst wE; unfold content, value_at, placeholder; simpl;
        rewrite ensure_cell_lookup, decide_True by done;
        by destruct (cells w !! (cur, col)));
  change (from_option is_MergedCell false (cells wE !! (cur, col)))
    with (placeholder wE (cur, col));
  assert (placeholder wE (cur, col) = placeholder w (cur, col)) as HpE
    by (unfold content in HcE; by simplify_eq).

(** A margin cell (A or L) of a row of the block, then the rest. *)
Lemma blank_margin_then {B} cur col (rest : unit → M B) w :
  1 ≤ cur → 1 ≤ col →
  ∃ w1,
    (c ← cell cur col PNone;
     b ← isinstance_MergedCell c;
     (if negb b then set_value c (PStr "") else mret tt) ≫= rest) w = rest tt w1 ∧
    content w1 (cur, col) = blanked w (cur, col) ∧
    (∀ k, k ≠ (cur, col) → cells w1 !! k = cells w !! k) ∧
    merged w1 = merged w ∧ heights w1 = heights w.
Proof.
  intros Hr Hc. blank_cell_tac cur col w Hr Hc.
  unfold blanked. rewrite <- HpE.
  destruct (placeholder wE (cur, col)) eqn:Hp; simpl.
  - exists wE. split; [by erewrite bind_ok by reflexivity|]. by rewrite HcE.
  - destruct (ensure_cell_plain w (cur, col)) as (v & st & Hk); [by rewrite <- HpE|].
    eexists. split.
    { erewrite bind_ok; [reflexivity|]. eapply set_value_run; [exact Hk|done]. }
    split_and!; [|intros k Hk'; simpl; rewrite lookup_insert_ne by done; by apply HE|done..].
    unfold content, value_at, placeholder. simpl. by rewrite lookup_insert_eq.
Qed.

(** A middle cell (B–K) of a row of the block. *)
Lemma blank_middle_run cur col w :
  1 ≤ cur → 1 ≤ col →
  ∃ w1, blank_middle cur col w = (Ok tt, w1) ∧
    content w1 (cur, col) = blanked w (cur, col) ∧
    (∀ k, k ≠ (cur, col) → cells w1 !! k = cells w !! k) ∧
    merged w1 = merged w ∧ heights w1 = heights w.
Proof.
  intros Hr Hc. unfold blank_middle. blank_cell_tac cur col w Hr Hc.
  unfold blanked. rewrite <- HpE.
  destruct (placeholder wE (cur, col)) eqn:Hp; simpl.
  - exists wE. split; [done|]. by rewrite HcE.
  - destruct (ensure_cell_plain w (cur, col)) as (v & st & Hk); [by rewrite <- HpE|].
    eexists. split.
    { erewrite bind_ok; [reflexivity|]. eapply set_value_run; [exact Hk|done]. }
    split_and!; [|intros k Hk'; simpl;
                  rewrite lookup_alter_ne, lookup_insert_ne by done; by apply HE|done..].
    unfold content, value_at, placeholder. simpl.
    by rewrite lookup_alter_eq, lookup_insert_eq.
Qed.

Lemma blank_middle_loop cur (cols : list Z) : ∀ w,
  NoDup cols → (∀ c, c ∈ cols → 1 ≤ c) → 1 ≤ cur →
  ∃ w1, for_ cols (blank_middle cur) w = (Ok tt, w1) ∧
    (∀ c, c ∈ cols → content w1 (cur, c) = blanked w (cur, c)) ∧
    (∀ k, ¬ (k.1 = cur ∧ k.2 ∈ cols) → cells w1 !! k = cells w !! k) ∧
    merged w1 = merged w ∧ heights w1 = heights w.
Proof.
  induction cols as [|c cols IH]; intros w Hnd Hpos Hr.
  - exists w. split_and!; try done. intros c Hc. by apply elem_of_nil in Hc.
  - apply NoDup_cons in Hnd as [Hc Hnd].
    destruct (blank_middle_run cur c w Hr (Hpos c ltac:(left))) as (wa & Hrun & Hca & Hfa & Hma & Hha).
    destruct (IH wa Hnd) as (w1 & Hloop & Hc1 & Hf1 & Hm1 & Hh1); [|done|].
    { intros c' Hc'. apply Hpos. by right. }
    exists w1. cbn [for_]. rewrite (bind_ok _ _ _ _ _ Hrun). split; [done|].
    split_and!; [| |congruence..].
    + intros c' [->|Hc']%elem_of_cons.
      * rewrite <- Hca. apply content_of_cells, Hf1. simpl. intros [_ ?]. done.
      * rewrite (Hc1 c' Hc'). apply content_of_cells, Hfa. intros [= ->]. done.
    + intros k Hk. rewrite Hf1, Hfa; [done|..].
      * intros ->. apply Hk. split; [done|left].
      * intros [? ?]. apply Hk. split; [done|by right].
Qed.

(** The cells A–L of a row after [add_additional_rows] went over it:
    the placeholders as before, every other cell holding the empty
    string; nothing else changes, and nothing raises. *)
Lemma blank_row_run cur w :
  1 ≤ cur →
  ∃ w1, Processor.blank_row cur w = (Ok tt, w1) ∧
    (∀ c, 1 ≤ c ≤ 12 → content w1 (cur, c) = blanked w (cur, c)) ∧
    (∀ k, ¬ (k.1 = cur ∧ 1 ≤ k.2 ≤ 12) → cells w1 !! k = cells w !! k) ∧
    merged w1 = merged w ∧ heights w1 = heights w.
Proof.
  intros Hr. unfold Processor.blank_row.
  destruct (blank_margin_then cur 1
              (λ _, end_cell ← cell cur 12 PNone;
                    b ← isinstance_MergedCell end_cell;
                    (if negb b then set_value end_cell (PStr "") else mret tt) ;;
                    for_ (seqZ 2 10) (blank_middle cur)) w Hr ltac:(lia))
    as (wa & Hrun1 & Hca & Hfa & Hma & Hha).
  destruct (blank_margin_then cur 12 (λ _, for_ (seqZ 2 10) (blank_middle cur)) wa Hr ltac:(lia))
    as (wb & Hrun2 & Hcb & Hfb & Hmb & Hhb).
  destruct (blank_middle_loop cur (seqZ 2 10) wb) as (wc & Hrun3 & Hcc & Hfc & Hmc & Hhc);
    [apply NoDup_seqZ|intros c Hc%elem_of_seqZ; lia|done|].
  exists wc. split.
  { etrans; [exact Hrun1|]. etrans; [exact Hrun2|]. exact Hrun3. }
  split_and!; [| |congruence..].
  - intros c Hc.
    destruct (decide (c = 1)) as [->|H1].
    { rewrite <- Hca. etrans; [apply content_of_cells, Hfc|apply content_of_cells, Hfb].
      - simpl. intros [_ Hin%elem_of_seqZ]. lia.
      - intros [= ?]. }
    destruct (decide (c = 12)) as [->|H12].
    { etrans; [apply content_of_cells, Hfc|].
      - simpl. intros [_ Hin%elem_of_seqZ]. lia.
      - rewrite Hcb. apply content_of_cells, Hfa. intros [= ?]. }
    rewrite Hcc by (apply elem_of_seqZ; lia).
    etrans; [apply content_of_cells, Hfb|apply content_of_cells, Hfa]; intros [= ?]; lia.
  - intros [r c] Hk. simpl in Hk. rewrite Hfc, Hfb, Hfa; [done|..].
    + intros [= -> ->]. apply Hk. lia.
    + intros [= -> ->]. apply Hk. lia.
    + simpl. intros [-> Hin%elem_of_seqZ]. apply Hk. lia.
Qed.

Lemma add_row_spec cur w :
  1 ≤ cur → (∀ rg, rg ∈ merged w → ¬ touches_row cur rg) →
  let w' := exec (Processor.add_row cur) w in
  (∀ c, 1 ≤ c ≤ 12 → content w' (cur, c) = blanked w (cur, c)) ∧
  (∀ k, ¬ (k.1 = cur ∧ 1 ≤ k.2 ≤ 12) → cells w' !! k = cells w !! k) ∧
  merged w' = merged w ∧
  heights w' = <[cur := Some 25]> (heights w).
Proof.
  intros Hcur Hfree w'. subst w'. rewrite add_row_run.
  assert (exec (safely_unmerge_row_cells cur) w = w) as ->.
  { unfold exec. rewrite safely_unmerge_noop; [done|]. by apply filter_touches_nil. }
  rewrite exec_try_pass.
  destruct (blank_row_run cur (set_heights <[cur := Some 25]> w) Hcur)
    as (w1 & Hrun & Hc & Hf & Hm & Hh).
  unfold exec. rewrite Hrun. cbn [snd]. split_and!; [|done..].
  intros c Hc'. rewrite (Hc c Hc'). by apply content_of_cells.
Qed.

Lemma add_rows_spec s (l : list Z) : ∀ w,
  NoDup l → (∀ i, i ∈ l → 1 ≤ s + i) →
  (∀ rg i, rg ∈ merged w → i ∈ l → ¬ touches_row (s + i) rg) →
  let w' := exec (for_ l (λ i, Processor.add_row (s + i))) w in
  (∀ i c, i ∈ l → 1 ≤ c ≤ 12 → content w' (s + i, c) = blanked w (s + i, c)) ∧
  (∀ k, (∀ i, i ∈ l → ¬ (k.1 = s + i ∧ 1 ≤ k.2 ≤ 12)) → cells w' !! k = cells w !! k) ∧
  merged w' = merged w ∧
  (∀ i, i ∈ l → heights w' !! (s + i) = Some (Some 25)) ∧
  (∀ r, (∀ i, i ∈ l → r ≠ s + i) → heights w' !! r = heights w !! r).
Proof.
  induction l as [|x l IH]; intros w Hnd Hpos Hfree w'; subst w'.
  - change (exec _ w) with w. split_and!; try done; intros i; intros; by apply elem_of_nil in H.
  - rewrite exec_for_cons by apply total_add_row.
    apply NoDup_cons in Hnd as [Hx Hnd].
    destruct (add_row_spec (s + x) w) as (Hc & Hf & Hm & Hh).
    { apply Hpos. left. }
    { intros rg Hin. apply Hfree; [done|left]. }
    set (wa := exec (Processor.add_row (s + x)) w) in *.
    destruct (IH wa Hnd) as (IHc & IHf & IHm & IHh & IHo).
    { intros i Hi. apply Hpos. by right. }
    { intros rg i Hin Hi. rewrite Hm in Hin. apply Hfree; [done|by right]. }
    split_and!.
    + intros i c [->|Hi]%elem_of_cons Hcol.
      * rewrite <- Hc by done. apply content_of_cells, IHf.
        intros i Hi [E _]. simpl in E. assert (i = x) as -> by lia. done.
      * rewrite IHc by done. apply content_of_cells, Hf.
        simpl. intros [E _]. assert (i = x) as -> by lia. done.
    + intros k Hk. rewrite IHf, Hf; [done|..].
      * apply Hk. left.
      * intros i Hi. apply Hk. by right.
    + congruence.
    + intros i [->|Hi]%elem_of_cons.
      * rewrite IHo, Hh; [by rewrite lookup_insert_eq|].
        intros i Hi E. assert (i = x) as -> by lia. done.
      * by apply IHh.
    + intros r Hr. rewrite IHo, Hh.
      * rewrite lookup_insert_ne; [done|]. intros E. by apply (Hr x ltac:(left)).
      * intros i Hi. apply Hr. by right.
Qed.

Lemma add_additional_rows_run last w :
  Processor.add_additional_rows last w
  = (Ok (last + 9), exec (for_ (seqZ 0 9) (λ i, Processor.add_row (last + 1 + i))) w).
Proof.
  unfold Processor.add_additional_rows, try_except.
  set (loop := for_ (seqZ 0 9) (λ i, Processor.add_row (last + 1 + i))).
  assert (loop w = (Ok tt, exec loop w)) as Hloop.
  { apply total_run, total_for. intros; apply total_add_row. }
  rewrite (bind_ok _ _ _ _ _ Hloop). cbn. do 2 f_equal. lia.
Qed.

(** What [add_additional_rows] does on a sheet where no merged range
    touches the nine rows after the last item row. *)
Lemma add_additional_rows_content last w :
  0 ≤ last →
  (∀ rg r, rg ∈ merged w → last + 1 ≤ r ≤ last + 9 → ¬ touches_row r rg) →
  let w' := exec (Processor.add_additional_rows last) w in
  result (Processor.add_additional_rows last) w = Ok (last + 9) ∧
  (∀ r c, last + 1 ≤ r ≤ last + 9 → 1 ≤ c ≤ 12 → content w' (r, c) = blanked w (r, c)) ∧
  (∀ r c, ¬ (last + 1 ≤ r ≤ last + 9 ∧ 1 ≤ c ≤ 12) → cells w' !! (r, c) = cells w !! (r, c)) ∧
  (∀ r, last + 1 ≤ r ≤ last + 9 → heights w' !! r = Some (Some 25)) ∧
  (∀ r, ¬ (last + 1 ≤ r ≤ last + 9) → heights w' !! r = heights w !! r) ∧
  merged w' = merged w.
Proof.
  intros Hlast Hfree w'. subst w'. unfold result, exec.
  rewrite add_additional_rows_run. cbn [fst snd].
  destruct (add_rows_spec (last + 1) (seqZ 0 9) w) as (Hc & Hf & Hm & Hh & Ho).
  { apply NoDup_seqZ. }
  { intros i Hi%elem_of_seqZ. lia. }
  { intros rg i Hin Hi%elem_of_seqZ. apply Hfree; [done|lia]. }
  split_and!; [done| | | | |done].
  - intros r c Hr Hcol. replace r with (last + 1 + (r - last - 1)) by lia.
    apply Hc; [apply elem_of_seqZ; lia|done].
  - intros r c Hk. apply Hf. intros i Hi%elem_of_seqZ [E Hcol]. simpl in *. apply Hk. lia.
  - intros r Hr. replace r with (last + 1 + (r - last - 1)) by lia.
    apply Hh. apply elem_of_seqZ. lia.
  - intros r Hr. apply Ho. intros i Hi%elem_of_seqZ. lia.
Qed.

(** X6.  [add_additional_rows(ws, last_item_row)], on a sheet where no
    merged range touches the nine rows after the last item row,
    returns [last_item_row + 9]; in those nine rows every cell A–L
    that is not a merged-cell placeholder holds the empty string and
    the placeholders are as before; each of the nine rows is 25 high;
    no other cell, no other height and no merged range changes (in
    particular no row is inserted: the insertion only happens past the
    end of the sheet, where it moves nothing). *)
Theorem X6_add_additional_rows_blanks_nine_rows (ws : Worksheet) (last_item_row : Z) :
  0 ≤ last_item_row →
  (∀ rg r, rg ∈ merged ws → last_item_row + 1 ≤ r ≤ last_item_row + 9 →
           ¬ touches_row r rg) →
  let ws' := exec (Processor.add_additional_rows last_item_row) ws in
  result (Processor.add_additional_rows last_item_row) ws = Ok (last_item_row + 9) ∧
  (∀ r c, last_item_row + 1 ≤ r ≤ last_item_row + 9 → 1 ≤ c ≤ 12 →
     content ws' (r, c) = blanked ws (r, c)) ∧
  (∀ r c, ¬ (last_item_row + 1 ≤ r ≤ last_item_row + 9 ∧ 1 ≤ c ≤ 12) →
     cells ws' !! (r, c) = cells ws !! (r, c)) ∧
  (∀ r, last_item_row + 1 ≤ r ≤ last_item_row + 9 → heights ws' !! r = Some (Some 25)) ∧
  (∀ r, ¬ (last_item_row + 1 ≤ r ≤ last_item_row + 9) → heights ws' !! r = heights ws !! r) ∧
  merged ws' = merged ws.
Proof. apply add_additional_rows_content. Qed.

(** A witness for X6: the nine rows after row 13 of the blank template. *)
Lemma X6_witness :
  let ws' := exec (Processor.add_additional_rows 13) blank_template in
  result (Processor.add_additional_rows 13) blank_template = Ok (13 + 9) ∧
  (∀ r c, 13 + 1 ≤ r ≤ 13 + 9 → 1 ≤ c ≤ 12 →
     content ws' (r, c) = blanked blank_template (r, c)) ∧
  (∀ r c, ¬ (13 + 1 ≤ r ≤ 13 + 9 ∧ 1 ≤ c ≤ 12) →
     cells ws' !! (r, c) = cells blank_template !! (r, c)) ∧
  (∀ r, 13 + 1 ≤ r ≤ 13 + 9 → heights ws' !! r = Some (Some 25)) ∧
  (∀ r, ¬ (13 + 1 ≤ r ≤ 13 + 9) → heights ws' !! r = heights blank_template !! r) ∧
  merged ws' = merged blank_template.
Proof.
  apply (X6_add_additional_rows_blanks_nine_rows blank_template 13); [lia|].
  intros rg r Hin Hr. pose proof (proj2 (proj2 blank_template_contract) rg Hin).
  intros Ht%touches_row_spec. lia.
Defined.

(** ** What the formatters of the trailing block write *)

Section content_calculus.
Implicit Types (w : Worksheet) (k : Z * Z).

Lemma content_write_cell w k v k' :
  content (write_cell k v w) k' = if decide (k' = k) then (v, false) else content w k'.
Proof.
  unfold content, value_at, placeholder. rewrite write_cell_lookup.
  destruct (decide (k = k')) as [->|]; [by rewrite decide_True|].
  by rewrite decide_False by done.
Qed.

Lemma content_set_style w k f k' :
  content (set_cells (alter (map_style f) k) w) k' = content w k'.
Proof.
  unfold content, value_at, placeholder. simpl. destruct (decide (k = k')) as [->|].
  - rewrite lookup_alter_eq. by destruct (cells w !! k') as [[]|].
  - by rewrite lookup_alter_ne.
Qed.

Lemma content_ensure w k k' : content (set_cells (ensure_cell k) w) k' = content w k'.
Proof.
  unfold content, value_at, placeholder. simpl. rewrite ensure_cell_lookup.
  case_decide; [|done]. subst. by destruct (cells w !! k').
Qed.

Lemma content_merge_done rg w r c :
  content (merge_done rg w) (r, c) =
  if decide ((min_row rg ≤ r ≤ max_row rg ∧ min_col rg ≤ c ≤ max_col rg) ∧
             (r, c) ≠ (min_row rg, min_col rg))
  then (PNone, true) else content w (r, c).
Proof.
  unfold content, value_at, placeholder. rewrite merge_done_lookup.
  destruct (decide ((min_row rg ≤ r ≤ max_row rg ∧ min_col rg ≤ c ≤ max_col rg) ∧
                    (r, c) ≠ (min_row rg, min_col rg))) as [H|H].
  - rewrite (decide_True (P := (r, c) ∈ tail (range_cells rg))); [done|].
    by apply elem_of_tail_range_cells_iff.
  - rewrite (decide_False (P := (r, c) ∈ tail (range_cells rg))); cycle 1.
    { intros Hin. apply H. by apply elem_of_tail_range_cells_iff. }
    case_decide as E; [|done]. rewrite E. by destruct (cells w !! _).
Qed.

Lemma placeholder_content w k : placeholder w k = (content w k).2.
Proof. done. Qed.

(** [c = ws.cell(row, col); c.value = s; ...] on an ordinary cell. *)
Lemma write_then {B} row col s (rest : Z * Z → M B) w :
  1 ≤ row → 1 ≤ col → placeholder w (row, col) = false →
  (c ← cell row col PNone; set_value c (PStr s) ;; rest c) w
  = rest (row, col) (write_cell (row, col) (PStr s) w).
Proof.
  intros Hr Hc Hp.
  rewrite (bind_ok _ _ _ _ _ (cell_none_run row col w Hr Hc)).
  destruct (ensure_cell_plain w (row, col) Hp) as (v & st & Hk).
  erewrite (bind_ok (set_value _ _)); cycle 1.
  { eapply set_value_run; [exact Hk|done]. }
  f_equal. unfold write_cell, set_cells. simpl. f_equal.
  assert (st = style_at w (row, col)) as ->.
  { unfold style_at. rewrite ensure_cell_lookup, decide_True in Hk by done.
    destruct (cells w !! (row, col)) as [[]|]; by simplify_eq/=. }
  apply map_eq. intros k'. destruct (decide ((row, col) = k')) as [<-|Hne].
  - by rewrite !lookup_insert_eq.
  - by rewrite !lookup_insert_ne, ensure_cell_lookup_ne by done.
Qed.

End content_calculus.

Lemma content_write_at w r c v r' c' :
  content (write_cell (r, c) v w) (r', c')
  = if decide (r' = r ∧ c' = c) then (v, false) else content w (r', c').
Proof.
  rewrite content_write_cell. destruct (decide (r' = r ∧ c' = c)) as [[-> ->]|H].
  - by rewrite decide_True.
  - rewrite decide_False; [done|]. intros [= -> ->]. by apply H.
Qed.

Lemma content_merge_at rg w r c :
  content (merge_done rg w) (r, c) =
  if decide ((min_row rg ≤ r ≤ max_row rg ∧ min_col rg ≤ c ≤ max_col rg) ∧
             ¬ (r = min_row rg ∧ c = min_col rg))
  then (PNone, true) else content w (r, c).
Proof.
  rewrite content_merge_done.
  destruct (decide ((min_row rg ≤ r ≤ max_row rg ∧ min_col rg ≤ c ≤ max_col rg) ∧
                    ¬ (r = min_row rg ∧ c = min_col rg))) as [[H1 H2]|H].
  - rewrite decide_True; [done|]. split; [done|]. intros [= -> ->]. by apply H2.
  - rewrite decide_False; [done|]. intros [H1 H2]. apply H. split; [done|].
    intros [-> ->]. by apply H2.
Qed.

Ltac content_simpl :=
  repeat first
    [ rewrite content_write_at
    | rewrite content_set_style
    | rewrite content_ensure
    | rewrite content_merge_at ];
  cbn [min_row max_row min_col max_col].

Lemma format_expedition_row_content last w r c :
  1 ≤ last + 2 → placeholder w (last + 2, 9) = false →
  content (exec (Processor.format_expedition_row last) w) (r, c) =
  if decide (r = last + 2 ∧ 10 ≤ c ≤ 12) then (PNone, true)
  else if decide (r = last + 2 ∧ c = 9) then (PStr Processor.caption, false)
  else content w (r, c).
Proof.
  intros Ht Hp. unfold Processor.format_expedition_row.
  rewrite exec_try_pass. unfold exec. set (t := last + 2) in *.
  erewrite (bind_ok (merge_cells _)); cycle 1.
  { apply merge_cells_run. unfold valid_range. cbn. rewrite !andb_true_iff, !Z.leb_le. lia. }
  rewrite write_then; [|lia|lia|]; cycle 1.
  { rewrite placeholder_content. content_simpl. rewrite decide_False by lia. exact Hp. }
  repeat (erewrite (bind_ok (set_style _ _)) by reflexivity).
  change (seqZ 9 (12 + 1 - 9)) with [9; 10; 11; 12]. cbn [for_].
  repeat (erewrite (bind_ok (_ ≫= _)) by (apply style_cell_run; lia)).
  cbn [mret M_ret snd]. content_simpl.
  repeat case_decide; try done; lia.
Qed.

Lemma style_then {B} row col f (rest : M B) w :
  1 ≤ row → 1 ≤ col →
  (c ← cell row col PNone; set_style c f ;; rest) w
  = rest (set_cells (alter (map_style f) (row, col)) (set_cells (ensure_cell (row, col)) w)).
Proof. intros Hr Hc. by rewrite (bind_ok _ _ _ _ _ (cell_none_run row col w Hr Hc)). Qed.

Lemma format_palette_info_row_content last w r c :
  1 ≤ last + 3 →
  placeholder w (last + 3, 9) = false →
  placeholder w (last + 3, 10) = false →
  placeholder w (last + 3, 12) = false →
  content (exec (Processor.format_palette_info_row last) w) (r, c) =
  if decide (r = last + 3 ∧ c = 9) then (PStr "Typ palty", false)
  else if decide (r = last + 3 ∧ c = 10) then (PStr "Rozmer", false)
  else if decide (r = last + 3 ∧ c = 11) then (PNone, true)
  else if decide (r = last + 3 ∧ c = 12) then (PStr "Váha", false)
  else content w (r, c).
Proof.
  intros Ht Hp9 Hp10 Hp12. unfold Processor.format_palette_info_row.
  rewrite exec_try_pass. unfold exec. set (t := last + 3) in *.
  rewrite write_then by (lia || done).
  repeat (erewrite (bind_ok (set_style _ _)) by reflexivity).
  erewrite (bind_ok (merge_cells _)); cycle 1.
  { apply merge_cells_run. unfold valid_range. cbn. rewrite !andb_true_iff, !Z.leb_le. lia. }
  rewrite write_then; [|lia|lia|]; cycle 1.
  { rewrite placeholder_content. content_simpl.
    rewrite decide_False by lia. rewrite decide_False by lia. exact Hp10. }
  repeat (erewrite (bind_ok (set_style _ _)) by reflexivity).
  rewrite !style_then by lia.
  rewrite write_then; [|lia|lia|]; cycle 1.
  { rewrite placeholder_content. content_simpl.
    repeat (rewrite decide_False by lia). exact Hp12. }
  repeat (erewrite (bind_ok (set_style _ _)) by reflexivity).
  unfold set_style, modify. cbn [snd]. content_simpl.
  repeat case_decide; try done; lia.
Qed.

Lemma cs_format_footer_rows last :
  respects (content_same (λ _, False)) (Processor.format_footer_rows last).
Proof. unfold Processor.format_footer_rows. respect. Qed.

Lemma format_final_rows_content last w r c :
  1 ≤ last + 4 →
  content (exec (Processor.format_final_rows last) w) (r, c) =
  if decide ((last + 4 ≤ r ≤ last + 7 ∧ 10 ≤ c ≤ 11) ∧ ¬ (r = last + 4 ∧ c = 10))
  then (PNone, true) else content w (r, c).
Proof.
  intros Ht. unfold Processor.format_final_rows.
  rewrite exec_try_pass. unfold exec.
  match goal with |- context [for_ ?l ?b ≫= _] =>
    destruct (for_result_ok (λ x, ∀ k, content x k = content w k) l b w) as [Hres Hc1];
      [|done|set (w1 := exec (for_ l b) w) in *]
  end.
  { intros row Hrow%elem_of_seqZ x Hx. split.
    - unfold result. rewrite style_cell_run by lia. done.
    - intros k. unfold exec. rewrite style_cell_run by lia. cbn [snd].
      rewrite content_set_style, content_ensure. apply Hx. }
  erewrite (bind_ok (for_ _ _)); cycle 1.
  { rewrite (run_eta _ w), Hres. reflexivity. }
  fold w1.
  erewrite (bind_ok (merge_cells _)); cycle 1.
  { apply merge_cells_run. unfold valid_range. cbn. rewrite !andb_true_iff, !Z.leb_le. lia. }
  match goal with |- context [snd (?m (merge_done ?rg ?x))] =>
    assert (respects (content_same (λ _, False)) m) as Hcs by respect;
    pose proof (Hcs (merge_done rg x) (r, c)) as Hk
  end.
  unfold exec in Hk. destruct Hk as [Hv Hp]; [tauto|].
  unfold content at 1. rewrite Hv, Hp.
  change (value_at ?x ?k, placeholder ?x ?k) with (content x k).
  rewrite content_merge_at. cbn [min_row max_row min_col max_col]. by rewrite Hc1.
Qed.

Ltac zbool :=
  repeat match goal with
  | |- context [?a =? ?b] =>
      first [rewrite (proj2 (Z.eqb_eq a b)) by lia | rewrite (proj2 (Z.eqb_neq a b)) by lia]
  | |- context [?a <=? ?b] =>
      first [rewrite (proj2 (Z.leb_le a b)) by lia | rewrite (proj2 (Z.leb_gt a b)) by lia]
  end.

Lemma hs_format_expedition_row last :
  respects (heights_same (λ _, False)) (Processor.format_expedition_row last).
Proof. unfold Processor.format_expedition_row. respect. Qed.
Lemma hs_format_palette_info_row last :
  respects (heights_same (λ _, False)) (Processor.format_palette_info_row last).
Proof. unfold Processor.format_palette_info_row. respect. Qed.
Lemma hs_format_final_rows last :
  respects (heights_same (λ _, False)) (Processor.format_final_rows last).
Proof. unfold Processor.format_final_rows. respect. Qed.
Lemma hs_format_footer_rows last :
  respects (heights_same (λ _, False)) (Processor.format_footer_rows last).
Proof. unfold Processor.format_footer_rows. respect. Qed.

(** The trailing block rendered on nine rows without merges and
    without placeholders. *)
Lemma render_trailing_block_content last w :
  0 ≤ last →
  (∀ rg r, rg ∈ merged w → last + 1 ≤ r ≤ last + 9 → ¬ touches_row r rg) →
  (∀ r c, last + 1 ≤ r ≤ last + 9 → 1 ≤ c ≤ 12 → placeholder w (r, c) = false) →
  let w' := exec (Processor.render_trailing_block last) w in
  (∀ r c, last + 1 ≤ r ≤ last + 9 → 1 ≤ c ≤ 12 →
     content w' (r, c) = trailing_content last r c) ∧
  (∀ r c, ¬ (last + 1 ≤ r ≤ last + 9) → cells w' !! (r, c) = cells w !! (r, c)) ∧
  (∀ r, last + 1 ≤ r ≤ last + 9 → heights w' !! r = Some (Some 25)) ∧
  (∀ r, ¬ (last + 1 ≤ r ≤ last + 9) → heights w' !! r = heights w !! r).
Proof.
  intros Hlast Hfree Hplain w'. subst w'. rewrite render_trailing_block_steps.
  destruct (add_additional_rows_content last w Hlast Hfree) as (_ & Hca & Hfa & Hha & Hoa & _).
  set (wa := exec (Processor.add_additional_rows last) w) in *.
  assert (∀ r c, last + 1 ≤ r ≤ last + 9 → 1 ≤ c ≤ 12 → content wa (r, c) = (PStr "", false))
    as Hblank.
  { intros r c Hr Hc. rewrite Hca by done. unfold blanked. by rewrite Hplain. }
  assert (∀ r c, last + 1 ≤ r ≤ last + 9 → 1 ≤ c ≤ 12 → placeholder wa (r, c) = false) as Hpa.
  { intros r c Hr Hc. rewrite placeholder_content. by rewrite Hblank. }
  pose proof (λ r c, format_expedition_row_content last wa r c ltac:(lia)
                       (Hpa (last + 2) 9 ltac:(lia) ltac:(lia))) as Hcb.
  pose proof (ro_format_expedition_row last wa) as Hrb.
  pose proof (heights_same_none _ _ (hs_format_expedition_row last wa)) as Hhb.
  set (wb := exec (Processor.format_expedition_row last) wa) in *.
  assert (∀ c, 1 ≤ c ≤ 12 → placeholder wb (last + 3, c) = false) as Hpb.
  { intros c Hc. rewrite placeholder_content, Hcb.
    rewrite !decide_False by lia. by rewrite Hblank by lia. }
  pose proof (λ r c, format_palette_info_row_content last wb r c ltac:(lia)
                       (Hpb 9 ltac:(lia)) (Hpb 10 ltac:(lia)) (Hpb 12 ltac:(lia))) as Hcc.
  pose proof (ro_format_palette_info_row last wb) as Hrc.
  pose proof (heights_same_none _ _ (hs_format_palette_info_row last wb)) as Hhc.
  set (wc := exec (Processor.format_palette_info_row last) wb) in *.
  pose proof (λ r c, format_final_rows_content last wc r c ltac:(lia)) as Hcd.
  pose proof (ro_format_final_rows last wc) as Hrd.
  pose proof (heights_same_none _ _ (hs_format_final_rows last wc)) as Hhd.
  set (wd := exec (Processor.format_final_rows last) wc) in *.
  pose proof (cs_format_footer_rows last wd) as Hce.
  pose proof (ro_format_footer_rows last wd) as Hre.
  pose proof (heights_same_none _ _ (hs_format_footer_rows last wd)) as Hhe.
  set (we := exec (Processor.format_footer_rows last) wd) in *.
  unfold rows_only in *.
  split_and!.
  - intros r c Hr Hc.
    assert (content we (r, c) = content wd (r, c)) as ->.
    { unfold content. destruct (Hce (r, c)) as [-> ->]; [tauto|done]. }
    rewrite Hcd, Hcc, Hcb, Hblank by done.
    unfold trailing_content, trailing_placeholder.
    assert (r = last + 1 ∨ r = last + 2 ∨ r = last + 3 ∨ r = last + 4 ∨ r = last + 5 ∨
            r = last + 6 ∨ r = last + 7 ∨ r = last + 8 ∨ r = last + 9) as Hrs by lia.
    assert (c = 1 ∨ c = 2 ∨ c = 3 ∨ c = 4 ∨ c = 5 ∨ c = 6 ∨ c = 7 ∨ c = 8 ∨ c = 9 ∨
            c = 10 ∨ c = 11 ∨ c = 12) as Hcs by lia.
    clear -Hrs Hcs.
    repeat (destruct Hrs as [->|Hrs]); try subst r;
      repeat (destruct Hcs as [->|Hcs]); try subst c;
      zbool; cbn [andb orb negb];
      repeat first [rewrite decide_True by lia | rewrite decide_False by lia];
      reflexivity.
  - intros r c Hr. rewrite Hre, Hrd, Hrc, Hrb by lia. apply Hfa. lia.
  - intros r Hr. rewrite Hhe, Hhd, Hhc, Hhb. by apply Hha.
  - intros r Hr. rewrite Hhe, Hhd, Hhc, Hhb. by apply Hoa.
Qed.

Lemma sheet_max_row_eq ws R :
  1 ≤ R → (∃ c, is_Some (cells ws !! (R, c))) →
  (∀ r c, R < r → cells ws !! (r, c) = None) → sheet_max_row ws = R.
Proof.
  intros HR [c Hc] Hnone. apply sheet_max_row_ge in Hc.
  destruct (sheet_max_row_cases ws) as [E|[c' [x Hx]]]; [lia|].
  destruct (decide (sheet_max_row ws ≤ R)); [lia|].
  rewrite Hnone in Hx by lia. done.
Qed.

(** The trailing block at the end of a run of the processor script on
    a template with nothing merged from the item rows down. *)
Lemma processor_block d reqs items ws :
  order_record (PDict d) reqs items → header_cells_plain ws →
  (∀ rg, rg ∈ merged ws → max_row rg < 12) →
  let last := match items with [] => 12 | _ => 11 + Z.of_nat (length items) end in
  let final := exec (Processor.map_data_to_excel (PDict d)) ws in
  (∀ r c, last + 1 ≤ r ≤ last + 9 → 1 ≤ c ≤ 12 →
     content final (r, c) = trailing_content last r c) ∧
  (∀ r c, last + 9 < r → cells final !! (r, c) = None) ∧
  (∀ r, last + 1 ≤ r ≤ last + 9 → heights final !! r = Some (Some 25)).
Proof.
  intros Hrec Hplain Hmerged last final. subst final.
  assert (12 ≤ last) as Hlast by (subst last; destruct items; cbn [length]; lia).
  destruct (processor_box d reqs items ws Hrec Hplain) as (wsB & Hdone & ->).
  destruct Hdone as (_ & HmB & _ & _).
  destruct Hrec as (d' & [= <-] & _ & _ & _ & _ & _ & _ & Hitems).
  rewrite (processor_tail_run d items wsB Hitems). fold last.
  destruct (clean_extra_rows_spec last (items_written items wsB)) as [Hempty Hd]; [lia|].
  set (w1 := exec (Processor.clean_extra_rows last) (items_written items wsB)) in *.
  assert (∀ rg, rg ∈ merged w1 → max_row rg < 12) as Hm1.
  { intros rg Hin. apply Hd in Hin as [Hin _].
    apply (items_written_merged items wsB rg) in Hin as [Hin _].
    apply HmB in Hin as [Hin| ->]; [by apply Hmerged|cbn; lia]. }
  destruct (render_trailing_block_content last w1) as (Hc & Hf & Hh & _); [lia|..].
  { intros rg r Hin Hr Ht%touches_row_spec. apply Hm1 in Hin. lia. }
  { intros r c Hr _. unfold placeholder. by rewrite Hempty by lia. }
  split_and!; [done| |done].
  intros r c Hr. rewrite Hf by lia. apply Hempty. lia.
Qed.

(** X7.  After the processor script ran on an order record, from a
    template with ordinary header cells and nothing merged from the
    item rows down, the nine rows after the last item row read, in
    A–L: the caption in I of the second row with J–L its placeholders;
    "Typ palty" in I, "Rozmer" in J (K its placeholder) and "Váha" in L
    of the third row; the placeholders of the notes box J–K in rows
    four to seven; the empty string in every other cell. *)
Theorem X7_trailing_block_contents
    (ws : Worksheet) (data : PyVal) (reqs : string) (items : list PyVal) :
  order_record data reqs items →
  header_cells_plain ws →
  (∀ rg, rg ∈ merged ws → max_row rg < 12) →
  let last := match items with [] => 12 | _ => 11 + Z.of_nat (length items) end in
  let final := exec (Processor.map_data_to_excel data) ws in
  ∀ r c, last + 1 ≤ r ≤ last + 9 → 1 ≤ c ≤ 12 →
    content final (r, c) = trailing_content last r c.
Proof.
  intros (d & -> & Hrec) Hplain Hmerged.
  apply (processor_block d reqs items ws); [by exists d|done..].
Qed.

(** A witness for X7: the palette row after two items on the blank
    template. *)
Lemma X7_witness :
  let items := [sample_item "a"; sample_item "b"] in
  let final := exec (Processor.map_data_to_excel (sample_order items)) blank_template in
  content final (16, 9) = (PStr "Typ palty", false) ∧
  content final (16, 11) = (PNone, true) ∧
  content final (18, 1) = (PStr "", false).
Proof.
  intros items final.
  pose proof (X7_trailing_block_contents blank_template (sample_order items)
                (join newline ["A"; "B"; "C"]) items (sample_order_record _)
                (proj1 blank_template_contract) (proj2 (proj2 blank_template_contract))) as H.
  split_and!.
  - apply (H 16 9); simpl; lia.
  - apply (H 16 11); simpl; lia.
  - apply (H 18 1); simpl; lia.
Defined.

(** X8.  After the processor script ran on an order record, from a
    template with ordinary header cells and nothing merged from the
    item rows down, the sheet ends with the trailing block: no cell
    lies below row [last_item_row + 9], [ws.max_row] is that row, and
    each of the nine rows of the block is 25 high. *)
Theorem X8_sheet_ends_with_the_trailing_block
    (ws : Worksheet) (data : PyVal) (reqs : string) (items : list PyVal) :
  order_record data reqs items →
  header_cells_plain ws →
  (∀ rg, rg ∈ merged ws → max_row rg < 12) →
  let last := match items with [] => 12 | _ => 11 + Z.of_nat (length items) end in
  let final := exec (Processor.map_data_to_excel data) ws in
  (∀ r c, last + 9 < r → cells final !! (r, c) = None) ∧
  sheet_max_row final = last + 9 ∧
  (∀ r, last + 1 ≤ r ≤ last + 9 → heights final !! r = Some (Some 25)).
Proof.
  intros (d & -> & Hrec) Hplain Hmerged last final.
  destruct (processor_block d reqs items ws) as (Hc & Hnone & Hh); [by exists d|done..|].
  fold last final in Hc, Hnone, Hh.
  assert (12 ≤ last) as Hlast by (subst last; destruct items; cbn [length]; lia).
  split_and!; [done| |done].
  apply sheet_max_row_eq; [lia| |done].
  exists 1. specialize (Hc (last + 9) 1 ltac:(lia) ltac:(lia)).
  unfold content, value_at in Hc. destruct (cells final !! (last + 9, 1)); [done|].
  revert Hc. unfold trailing_content, trailing_placeholder. zbool. cbn. done.
Qed.

(** A witness for X8: two items on the blank template, the sheet ends
    at row 22. *)
Lemma X8_witness :
  let items := [sample_item "a"; sample_item "b"] in
  let final := exec (Processor.map_data_to_excel (sample_order items)) blank_template in
  (∀ r c, 13 + 9 < r → cells final !! (r, c) = None) ∧
  sheet_max_row final = 13 + 9 ∧
  (∀ r, 13 + 1 ≤ r ≤ 13 + 9 → heights final !! r = Some (Some 25)).
Proof.
  intros items.
  apply (X8_sheet_ends_with_the_trailing_block blank_template (sample_order items)
           (join newline ["A"; "B"; "C"]) items (sample_order_record _)
           (proj1 blank_template_contract) (proj2 (proj2 blank_template_contract))).
Defined.

(** ** An order without items *)

(** X9.  An order record without items (an empty "Items" list, or no
    "Items" key), on a template that meets the template contract:
    [main.py] renders the header on row 13 and the processor script on
    row 14, its trailing block starting on row 13; neither writes an
    item, and the first item row 12 keeps exactly the cells the
    template had. *)
Theorem X9_order_without_items
    (ws : Worksheet) (data : PyVal) (reqs : string) :
  order_record data reqs [] →
  template_contract ws →
  let m := exec (Main.map_data_to_excel data) ws in
  let q := exec (Processor.map_data_to_excel data) ws in
  header_at m 13 ∧ header_at q 14 ∧
  (∀ c, 1 ≤ c ≤ 12 → content q (13, c) = (PStr "", false)) ∧
  (∀ c, cells m !! (12, c) = cells ws !! (12, c)) ∧
  (∀ c, cells q !! (12, c) = cells ws !! (12, c)).
Proof.
  intros (d & -> & Hrec) [Hplain [Hfree Hmerged]] m q.
  assert (order_record (PDict d) reqs []) as Hrec' by (by exists d).
  destruct Hrec as (_ & _ & _ & _ & _ & _ & Hitems).
  split_and!.
  - apply (main_layout d reqs [] ws Hrec' Hplain).
    + intros rg Hin. left. unfold first_item_row. by apply Hmerged.
    + split_and!; [intros r c Hr; apply Hfree; lia|apply Hfree; cbn; lia|].
      left. intros c _. apply Hfree. cbn. lia.
  - apply (processor_layout d reqs [] ws Hrec' Hplain).
    intros rg Hin. left. unfold first_item_row. by apply Hmerged.
  - intros c Hc.
    destruct (processor_block d reqs [] ws Hrec' Hplain Hmerged) as (Hb & _).
    subst q. rewrite (Hb 13 c) by lia. unfold trailing_content, trailing_placeholder.
    zbool. reflexivity.
  - intros c. subst m.
    destruct (main_box d reqs [] ws Hrec' Hplain) as (wsB & (_ & _ & HcB & _) & ->).
    rewrite (main_tail_run d [] wsB Hitems).
    change (items_written [] wsB) with wsB.
    pose proof (ro_recreate (11 + Z.of_nat (length (@nil PyVal)) + 2) wsB) as Hro.
    unfold rows_only in Hro. rewrite Hro by (cbn; lia). apply HcB. simpl. lia.
  - intros c. subst q.
    destruct (processor_box d reqs [] ws Hrec' Hplain) as (wsB & (_ & HmB & HcB & _) & ->).
    rewrite <- (HcB (12, c)) by (simpl; lia).
    assert (changes_below 13 wsB (exec (processor_tail (PDict d)) wsB)) as (Hc & _).
    { rewrite (processor_tail_run d [] wsB Hitems).
      change (items_written [] wsB) with wsB. etrans.
      - apply (confined_clean_extra_rows 13 12). lia.
      - apply (confined_render_trailing_block 13 12). lia. }
    destruct (Hc 12 c) as [->|[_ (rg & Hin & Hmax & _)]]; [lia|done|].
    exfalso. apply HmB in Hin as [Hin| ->]; [|cbn in Hmax; lia].
    apply Hmerged in Hin. lia.
Qed.

(** A witness for X9: an order with no "Items" key on the blank template. *)
Lemma X9_witness :
  let m := exec (Main.map_data_to_excel order_without_items) blank_template in
  let q := exec (Processor.map_data_to_excel order_without_items) blank_template in
  header_at m 13 ∧ header_at q 14 ∧
  (∀ c, 1 ≤ c ≤ 12 → content q (13, c) = (PStr "", false)) ∧
  (∀ c, cells m !! (12, c) = cells blank_template !! (12, c)) ∧
  (∀ c, cells q !! (12, c) = cells blank_template !! (12, c)).
Proof.
  apply (X9_order_without_items blank_template order_without_items "").
  - eexists. split; [reflexivity|]. split_and!; reflexivity.
  - apply blank_template_contract.
Defined.

(** ** Cleaning the answer of the model *)

Section stripping.
Variable drop : N → bool.

Lemma lstrip_dropped (a s : text) :
  Forall (λ c, drop c = true) a → lstrip drop (a ++ s) = lstrip drop s.
Proof. induction 1 as [|c a Hc _ IH]; [done|]. cbn. by rewrite Hc. Qed.

Lemma lstrip_all (a : text) : Forall (λ c, drop c = true) a → lstrip drop a = [].
Proof. intros Ha. rewrite <- (app_nil_r a). by rewrite lstrip_dropped. Qed.

Lemma lstrip_blocked (a : text) (b : N) (s : text) :
  drop b = false → lstrip drop (a ++ b :: s) = lstrip drop a ++ b :: s.
Proof.
  intros Hb. induction a as [|c a IH]; cbn; [by rewrite Hb|].
  by destruct (drop c).
Qed.

(** [lstrip] removes a prefix of removable characters, and stops at
    a character that is not removable. *)
Lemma lstrip_split (s : text) :
  ∃ a, s = a ++ lstrip drop s ∧ Forall (λ c, drop c = true) a ∧
       ∀ c, head (lstrip drop s) = Some c → drop c = false.
Proof.
  induction s as [|c s (a & E & Ha & Hh)]; [by exists []|]. cbn.
  destruct (drop c) eqn:Hc.
  - exists (c :: a). split_and!; [by rewrite E at 1|by constructor|done].
  - exists []. split_and!; [done|constructor|]. cbn. congruence.
Qed.

Lemma lstrip_Forall (P : N → Prop) (s : text) : Forall P s → Forall P (lstrip drop s).
Proof.
  destruct (lstrip_split s) as (a & E & _). rewrite E at 1.
  rewrite Forall_app. tauto.
Qed.

Lemma rstrip_dropped (s a : text) :
  Forall (λ c, drop c = true) a → rstrip drop (s ++ a) = rstrip drop s.
Proof.
  intros Ha. unfold rstrip. rewrite reverse_app, lstrip_dropped; [done|].
  by apply Forall_reverse.
Qed.

Lemma rstrip_blocked (s : text) (b : N) (a : text) :
  drop b = false → rstrip drop (s ++ [b] ++ a) = s ++ [b] ++ rstrip drop a.
Proof.
  intros Hb. unfold rstrip. rewrite !reverse_app, reverse_singleton.
  rewrite <- (assoc_L (++)). cbn [app]. rewrite lstrip_blocked by done.
  rewrite reverse_app, reverse_cons, reverse_involutive. by rewrite <- (assoc_L (++)).
Qed.

Lemma rstrip_split (s : text) :
  ∃ a, s = rstrip drop s ++ a ∧ Forall (λ c, drop c = true) a ∧
       ∀ c, last (rstrip drop s) = Some c → drop c = false.
Proof.
  destruct (lstrip_split (reverse s)) as (a & E & Ha & Hh).
  exists (reverse a). unfold rstrip. split_and!.
  - rewrite <- reverse_app, <- E. by rewrite reverse_involutive.
  - by apply Forall_reverse.
  - intros c. rewrite last_reverse. apply Hh.
Qed.
End stripping.

Lemma strip_sandwich (chars : option text) (pre body post : text) (b0 bl : N) :
  head body = Some b0 → last body = Some bl →
  removable chars b0 = false → removable chars bl = false →
  strip chars (pre ++ body ++ post) =
  lstrip (removable chars) pre ++ body ++ rstrip (removable chars) post.
Proof.
  intros H0 Hl Hb0 Hbl. unfold strip.
  destruct body as [|b r]; [done|]. cbn in H0. injection H0 as ->.
  cbn [app]. rewrite lstrip_blocked by done.
  apply last_Some in Hl as [body' Hl].
  change (b0 :: r ++ post) with ((b0 :: r) ++ post). rewrite Hl.
  rewrite <- (assoc_L (++) body'), (assoc_L (++) _ body').
  rewrite rstrip_blocked by done.
  change (b0 :: r ++ rstrip (removable chars) post)
    with ((b0 :: r) ++ rstrip (removable chars) post).
  rewrite Hl. by rewrite <- !(assoc_L (++)).
Qed.

(** What [strip] returns is the text without a removable prefix and a
    removable suffix, and it neither starts nor ends with a removable
    character. *)
Lemma strip_split (chars : option text) (s : text) :
  ∃ a b, s = a ++ strip chars s ++ b ∧
    Forall (λ c, removable chars c = true) a ∧
    Forall (λ c, removable chars c = true) b ∧
    (∀ c, head (strip chars s) = Some c → removable chars c = false) ∧
    (∀ c, last (strip chars s) = Some c → removable chars c = false).
Proof.
  unfold strip.
  destruct (lstrip_split (removable chars) s) as (a & Ea & Ha & Hhead).
  destruct (rstrip_split (removable chars) (lstrip (removable chars) s))
    as (b & Eb & Hb & Hlast).
  exists a, b. split_and!; [by rewrite <- Eb|done..| |done].
  intros c Hc. apply Hhead. rewrite Eb.
  by destruct (rstrip (removable chars) (lstrip (removable chars) s)).
Qed.

Lemma strip_fixed (chars : option text) (s : text) :
  (∀ c, head s = Some c → removable chars c = false) →
  (∀ c, last s = Some c → removable chars c = false) →
  strip chars s = s.
Proof.
  intros Hh Hl. destruct s as [|b0 r] eqn:E; [done|]. rewrite <- E.
  destruct (last s) as [bl|] eqn:El; [|by rewrite last_None in El; subst].
  pose proof (strip_sandwich chars [] s [] b0 bl) as H.
  rewrite app_nil_r in H. cbn in H. rewrite app_nil_r in H.
  apply H; [by subst|done|apply Hh; by subst|by apply Hl; subst].
Qed.

Lemma fence_not_space (c : N) : c ∈ lit "```json" → isspace c = false.
Proof.
  cbn. rewrite !elem_of_cons, elem_of_nil.
  intros [->|[->|[->|[->|[->|[->|[->|[]]]]]]]]; reflexivity.
Qed.

Lemma backtick_in_fence (c : N) : c ∈ lit "```" → c ∈ lit "```json".
Proof. cbn. rewrite !elem_of_cons, !elem_of_nil. tauto. Qed.

Lemma removable_chars_false (cs : text) (c : N) :
  removable (Some cs) c = false ↔ c ∉ cs.
Proof. cbn. by rewrite bool_decide_eq_false. Qed.

Lemma removable_chars_true (cs : text) (c : N) :
  removable (Some cs) c = true ↔ c ∈ cs.
Proof. cbn. by rewrite bool_decide_eq_true. Qed.

(** The second of the three cleaning steps, [.strip('```')], finds
    nothing to remove after [.strip('```json')]. *)
Lemma strip_backticks_after_fence (u : text) :
  strip (Some (lit "```")) (strip (Some (lit "```json")) u) =
  strip (Some (lit "```json")) u.
Proof.
  destruct (strip_split (Some (lit "```json")) u) as (_ & _ & _ & _ & _ & Hh & Hl).
  apply strip_fixed; intros c Hc; apply removable_chars_false;
    intros Hin%backtick_in_fence%removable_chars_true.
  - apply Hh in Hc. congruence.
  - apply Hl in Hc. congruence.
Qed.

Lemma clean_unfold (t : text) :
  clean t = strip None (strip (Some (lit "```json")) (strip None t)).
Proof. unfold clean. by rewrite strip_backticks_after_fence. Qed.

(** White space, the fence and white space again in front of the
    payload are gone after the four steps. *)
Lemma wrapper_removed (a b c : text) :
  spaces a → fence_chars b → spaces c →
  lstrip (removable None)
    (lstrip (removable (Some (lit "```")))
       (lstrip (removable (Some (lit "```json")))
          (lstrip (removable None) (a ++ b ++ c)))) = [].
Proof.
  intros Ha Hb Hc. rewrite lstrip_dropped by done.
  assert (∀ d s, spaces s → lstrip (removable None) (lstrip d s) = []) as Hsp.
  { intros d s Hs. apply lstrip_all. by apply lstrip_Forall. }
  destruct b as [|o b'] eqn:E.
  - cbn [app]. rewrite (lstrip_all _ c) by done. done.
  - rewrite <- E in *. assert (lstrip (removable None) (b ++ c) = b ++ c) as ->.
    { subst b. cbn. apply Forall_cons in Hb as [Ho _].
      apply fence_not_space in Ho. cbn in Ho. by rewrite Ho. }
    rewrite lstrip_dropped.
    + apply Hsp. by apply lstrip_Forall.
    + eapply Forall_impl; [exact Hb|]. intros x Hx. by apply removable_chars_true.
Qed.

Lemma rstrip_reverse (d : N → bool) (s : text) :
  rstrip d (reverse s) = reverse (lstrip d s).
Proof. unfold rstrip. by rewrite reverse_involutive. Qed.

(** X10.  An answer wrapped in a Markdown fence is unwrapped: white
    space, an opening made of fence characters (as "```json" or "```"),
    white space, the payload, white space, a closing made of fence
    characters and white space clean to the payload, when the payload
    neither starts nor ends with white space, a backtick or one of the
    letters j, s, o, n.  With an empty opening and closing: an answer
    without a fence loses its outer white space only. *)
Theorem X10_fenced_answer_is_unwrapped
    (ws1 opening ws2 body ws3 closing ws4 : text) (b0 bl : N) :
  spaces ws1 → spaces ws2 → spaces ws3 → spaces ws4 →
  fence_chars opening → fence_chars closing →
  head body = Some b0 → last body = Some bl →
  kept_char b0 → kept_char bl →
  clean (ws1 ++ opening ++ ws2 ++ body ++ ws3 ++ closing ++ ws4) = body.
Proof.
  intros H1 H2 H3 H4 Ho Hc Hh Hl [Hs0 Hf0] [Hsl Hfl].
  set (post := ws3 ++ closing ++ ws4). set (pre := ws1 ++ opening ++ ws2).
  assert (ws1 ++ opening ++ ws2 ++ body ++ post = pre ++ body ++ post) as ->.
  { unfold pre. by rewrite <- !(assoc_L (++)). }
  assert (∀ cs, cs = lit "```json" ∨ cs = lit "```" →
            removable (Some cs) b0 = false ∧ removable (Some cs) bl = false) as Hcs.
  { intros cs [-> | ->]; split; apply removable_chars_false; try done;
      intros Hin%backtick_in_fence; done. }
  destruct (Hcs (lit "```json")) as [? ?]; [by left|].
  destruct (Hcs (lit "```")) as [? ?]; [by right|].
  unfold clean.
  rewrite (strip_sandwich None _ _ _ b0 bl) by done.
  rewrite (strip_sandwich (Some (lit "```json")) _ _ _ b0 bl) by done.
  rewrite (strip_sandwich (Some (lit "```")) _ _ _ b0 bl) by done.
  rewrite (strip_sandwich None _ _ _ b0 bl) by done.
  unfold pre. rewrite wrapper_removed by done.
  rewrite <- (reverse_involutive post), !rstrip_reverse.
  unfold post. rewrite !reverse_app, <- (assoc_L (++)).
  rewrite wrapper_removed by (by apply Forall_reverse).
  by rewrite reverse_nil, app_nil_r.
Qed.

(** A witness for X10: a JSON list in a fence, on lines of its own. *)
Lemma X10_witness :
  clean (lit "```json" ++ [10%N] ++ lit "[1, 2]" ++ [10%N] ++ lit "```" ++ [10%N])
  = lit "[1, 2]".
Proof.
  apply (X10_fenced_answer_is_unwrapped
           [] (lit "```json") [10%N] (lit "[1, 2]") [10%N] (lit "```") [10%N] 91%N 93%N);
    try (repeat constructor; fail); try reflexivity.
  - split; [reflexivity|]. apply removable_chars_false. reflexivity.
  - split; [reflexivity|]. apply removable_chars_false. reflexivity.
Defined.

(** X11.  Cleaning an answer only takes characters away from its two
    ends, and only white space, backticks and the letters j, s, o, n;
    what is left neither starts nor ends with white space.  The step
    [.strip('```')] never removes anything: [.strip('```json')] has
    taken every backtick from the ends before. *)
Theorem X11_clean_trims_the_ends_only (t : text) :
  (∃ pre post, t = pre ++ clean t ++ post ∧
     Forall cleaned_char pre ∧ Forall cleaned_char post) ∧
  (∀ c, head (clean t) = Some c → isspace c = false) ∧
  (∀ c, last (clean t) = Some c → isspace c = false) ∧
  strip (Some (lit "```")) (strip (Some (lit "```json")) (strip None t)) =
  strip (Some (lit "```json")) (strip None t).
Proof.
  split_and!; [| | |apply strip_backticks_after_fence].
  - rewrite clean_unfold.
    destruct (strip_split None t) as (a1 & b1 & E1 & Ha1 & Hb1 & _).
    destruct (strip_split (Some (lit "```json")) (strip None t))
      as (a2 & b2 & E2 & Ha2 & Hb2 & _).
    destruct (strip_split None (strip (Some (lit "```json")) (strip None t)))
      as (a3 & b3 & E3 & Ha3 & Hb3 & _).
    exists (a1 ++ a2 ++ a3), (b3 ++ b2 ++ b1). split_and!.
    + rewrite E1 at 1. rewrite E2 at 1. rewrite E3 at 1.
      by rewrite <- !(assoc_L (++)).
    + rewrite !Forall_app. split_and!; (eapply Forall_impl; [eassumption|]);
        intros c Hc; [by left|right; by apply removable_chars_true|by left].
    + rewrite !Forall_app. split_and!; (eapply Forall_impl; [eassumption|]);
        intros c Hc; [by left|right; by apply removable_chars_true|by left].
  - rewrite clean_unfold. intros c.
    destruct (strip_split None (strip (Some (lit "```json")) (strip None t)))
      as (_ & _ & _ & _ & _ & Hh & _).
    apply Hh.
  - rewrite clean_unfold. intros c.
    destruct (strip_split None (strip (Some (lit "```json")) (strip None t)))
      as (_ & _ & _ & _ & _ & _ & Hl).
    apply Hl.
Qed.

(** ** The retry loop *)

Section retries.
Context {float : Type}.
Variable json_loads : text → Loaded.
Variable world : nat → Attempt.
Variable of_int : Z → float.
Variable fadd : float → float → float.
Variable random : nat → float.
Variables max_retries initial_delay : Z.

Abbreviation body := (attempt_body json_loads world of_int fadd random max_retries initial_delay).
Abbreviation loop := (attempts_over json_loads world of_int fadd random max_retries initial_delay).
Abbreviation wait := (wait_time of_int fadd random initial_delay).
Abbreviation limited := (λ k, rate_limited json_loads world k = true).

(** An attempt that does not end the call sleeps when it is rate
    limited, and goes on or gives up otherwise. *)
Lemma attempt_unsettled (attempt : nat) (rest : Run float) :
  settles json_loads world attempt = None →
  body attempt rest =
  if rate_limited json_loads world attempt
  then next (Some (wait attempt)) rest
  else continue_or_none max_retries attempt rest.
Proof.
  unfold settles, attempt_body, rate_limited, on_exception.
  destruct (world attempt) as [|e|t]; [done|done|].
  by destruct (json_loads (clean t)).
Qed.

Lemma attempt_settled (attempt : nat) (rest : Run float) (v : PyVal) :
  settles json_loads world attempt = Some v →
  body attempt rest = stop v ∧ rate_limited json_loads world attempt = false.
Proof.
  unfold settles, attempt_body, rate_limited.
  destruct (world attempt) as [|e|t]; [by intros [= <-]|done|].
  destruct (json_loads (clean t)); [by intros [= <-]|done..].
Qed.

Lemma waits_cons (a n : nat) :
  wait <$> filter limited (seq a (S n)) =
  (if rate_limited json_loads world a then [wait a] else [])
    ++ (wait <$> filter limited (seq (S a) n)).
Proof.
  cbn [seq]. destruct (rate_limited json_loads world a) eqn:E.
  - by rewrite filter_cons_True.
  - rewrite filter_cons_False; [done|]. by rewrite E.
Qed.

(** No attempt ends the call: every attempt is made, the rate
    limited ones sleep, and [None] is returned. *)
Lemma attempts_over_unsettled (n a : nat) :
  (a + n)%nat = Z.to_nat max_retries →
  (∀ k, (a ≤ k < a + n)%nat → settles json_loads world k = None) →
  loop (seq a n) =
  {| returned := PNone; slept := wait <$> filter limited (seq a n); attempts := n |}.
Proof.
  revert a. induction n as [|n IH]; intros a Hlen Hnone; [done|].
  rewrite waits_cons. cbn [seq attempts_over].
  rewrite attempt_unsettled by (apply Hnone; lia).
  rewrite IH by first [lia | intros; apply Hnone; lia].
  destruct (rate_limited json_loads world a); [done|].
  unfold continue_or_none. case_match; [done|].
  assert (n = 0%nat) as -> by lia. done.
Qed.

(** The attempt [k] is the first to end the call: the attempts
    before it are made, the rate limited ones sleep, and what
    attempt [k] settles is returned. *)
Lemma attempts_over_settled (n a k : nat) (v : PyVal) :
  (a + n)%nat = Z.to_nat max_retries →
  (a ≤ k < a + n)%nat →
  settles json_loads world k = Some v →
  (∀ j, (a ≤ j < k)%nat → settles json_loads world j = None) →
  loop (seq a n) =
  {| returned := v; slept := wait <$> filter limited (seq a (k - a));
     attempts := S (k - a) |}.
Proof.
  revert a. induction n as [|n IH]; intros a Hlen Hk Hv Hnone; [lia|].
  cbn [seq attempts_over]. destruct (decide (k = a)) as [->|Hne].
  - destruct (attempt_settled a (loop (seq (S a) n)) v Hv) as [-> _].
    by rewrite Nat.sub_diag.
  - rewrite attempt_unsettled by (apply Hnone; lia).
    rewrite IH by first [lia | done | intros; apply Hnone; lia].
    replace (k - a)%nat with (S (k - S a)) by lia. rewrite waits_cons.
    destruct (rate_limited json_loads world a); [done|].
    unfold continue_or_none. case_match; [done|lia].
Qed.
End retries.

(** X12.  The first attempt that ends the call decides it.  When
    attempt [k] (below [max_retries]) is the first at which the file
    cannot be read or the cleaned answer parses, the call makes
    exactly the attempts [0..k] and returns [None] for the read
    failure and the parsed value otherwise; before that it slept once
    for each earlier attempt whose exception text contains "429", for
    [initial_delay * 2 ** attempt + random.random()], and for no
    other. *)
Theorem X12_first_settling_attempt_decides {float : Type}
    (json_loads : text → Loaded) (world : nat → Attempt)
    (of_int : Z → float) (fadd : float → float → float) (random : nat → float)
    (max_retries initial_delay : Z) (k : nat) (v : PyVal) :
  Z.of_nat k < max_retries →
  settles json_loads world k = Some v →
  (∀ j, (j < k)%nat → settles json_loads world j = None) →
  let run := process_pdf json_loads world of_int fadd random max_retries initial_delay in
  returned run = v ∧ attempts run = S k ∧
  slept run = wait_time of_int fadd random initial_delay
                <$> filter (λ j, rate_limited json_loads world j = true) (seq 0 k).
Proof.
  intros Hk Hv Hnone run. subst run. unfold process_pdf.
  rewrite (attempts_over_settled _ _ _ _ _ _ _ _ 0 k v); try done; try lia.
  - by rewrite Nat.sub_0_r.
  - intros j Hj. apply Hnone. lia.
Qed.

(** A witness for X12: two rate-limited attempts, then an answer that
    parses, with the defaults of [main.py]. *)
Lemma X12_witness :
  let world := λ k : nat, if (k <? 2)%nat then CallFails (lit "429 Resource exhausted")
                          else Responds (lit "[1]") in
  let run := process_pdf (λ _, Parsed (PList [PInt 1])) world id Z.add (λ _, 0) 5 2 in
  returned run = PList [PInt 1] ∧ attempts run = 3%nat ∧ slept run = [2; 4].
Proof.
  intros world.
  apply (X12_first_settling_attempt_decides
           (λ _, Parsed (PList [PInt 1])) world id Z.add (λ _, 0) 5 2 2 (PList [PInt 1])).
  - lia.
  - reflexivity.
  - intros j Hj. destruct j as [|[|j]]; [reflexivity|reflexivity|lia].
Defined.

(** X13.  When no attempt below [max_retries] ends the call (each one
    raises, or answers with a text that does not parse), the call
    makes all [max_retries] attempts and returns [None]; it slept once
    for each attempt whose exception text contains "429".  When every
    attempt is rate limited it slept after each of them, the last one
    included, for [initial_delay * 2 ** attempt + random.random()]. *)
Theorem X13_no_attempt_settles {float : Type}
    (json_loads : text → Loaded) (world : nat → Attempt)
    (of_int : Z → float) (fadd : float → float → float) (random : nat → float)
    (max_retries initial_delay : Z) :
  (∀ k, Z.of_nat k < max_retries → settles json_loads world k = None) →
  let run := process_pdf json_loads world of_int fadd random max_retries initial_delay in
  returned run = PNone ∧ attempts run = Z.to_nat max_retries ∧
  slept run = wait_time of_int fadd random initial_delay
                <$> filter (λ j, rate_limited json_loads world j = true)
                      (seq 0 (Z.to_nat max_retries)) ∧
  ((∀ k, Z.of_nat k < max_retries → rate_limited json_loads world k = true) →
   slept run = wait_time of_int fadd random initial_delay <$> seq 0 (Z.to_nat max_retries)).
Proof.
  intros Hnone run. subst run. unfold process_pdf.
  rewrite (attempts_over_unsettled _ _ _ _ _ _ _ (Z.to_nat max_retries) 0);
    [|done|intros k Hk; apply Hnone; lia].
  split_and!; [done..|]. intros Hall. cbn [slept]. f_equal.
  assert (∀ n a, (a + n)%nat = Z.to_nat max_retries →
            filter (λ j, rate_limited json_loads world j = true) (seq a n) = seq a n) as Hf.
  { induction n as [|n IH]; intros a Ha; [done|]. cbn [seq].
    rewrite filter_cons_True by (apply Hall; lia). f_equal. apply IH. lia. }
  by apply Hf.
Qed.

(** A witness for X13: the model is rate limited throughout, with the
    defaults of [main.py]. *)
Lemma X13_witness :
  let run := process_pdf (λ _, JSONDecodeError) (λ _, CallFails (lit "429 Resource exhausted"))
               id Z.add (λ _, 0) 5 2 in
  returned run = PNone ∧ attempts run = 5%nat ∧ slept run = [2; 4; 8; 16; 32].
Proof.
  destruct (X13_no_attempt_settles
              (λ _, JSONDecodeError) (λ _, CallFails (lit "429 Resource exhausted"))
              id Z.add (λ _, 0) 5 2) as (Hr & Ha & _ & Hs).
  - reflexivity.
  - split_and!; [exact Hr|exact Ha|]. apply Hs. reflexivity.
Defined.

(** ** The drivers *)

Lemma not_an_object_untouched (data : PyVal) (ws : Worksheet) :
  (∀ d, data ≠ PDict d) →
  exec (Main.map_data_to_excel data) ws = ws ∧
  exec (Processor.map_data_to_excel data) ws = ws.
Proof. intros Hd. destruct data; try done. by destruct (Hd d). Qed.

(** X14.  The drivers save one Excel file for each listed PDF whose
    extracted data is truthy, and none for the others ([None] after
    the retries, but also an empty object or list): with a template
    that loads and a save that works, the files saved are, in the
    order of the listing, the assembler's result on a fresh copy of
    the template.  The data is not validated: when it is truthy but
    not a JSON object the file saved is the template, unchanged.  When
    the template cannot be loaded no file is saved. *)
Theorem X14_one_file_per_truthy_answer
    (map_data_to_excel : PyVal → M unit) (template : Worksheet)
    (save : string → Worksheet → Res unit)
    (process_pdf : string → PyVal) (output_excel : string → string)
    (pdf_files : list string) :
  map_data_to_excel = Main.map_data_to_excel ∨
  map_data_to_excel = Processor.map_data_to_excel →
  (∀ path wb, save path wb = Ok tt) →
  process_all_pdfs map_data_to_excel (Ok template) save process_pdf output_excel pdf_files =
    (λ f, (output_excel f, exec (map_data_to_excel (process_pdf f)) template))
      <$> filter (λ f, truthy (process_pdf f) = true) pdf_files ∧
  (∀ data, (∀ d, data ≠ PDict d) → exec (map_data_to_excel data) template = template) ∧
  (∀ e, process_all_pdfs map_data_to_excel (Raise e) save process_pdf output_excel pdf_files
        = []).
Proof.
  intros Hmap Hsave.
  assert (∀ data, total (map_data_to_excel data)) as Htot.
  { intros data. destruct Hmap as [-> | ->];
      [apply total_main_map_data_to_excel|apply total_processor_map_data_to_excel]. }
  split_and!.
  - assert (∀ l, l ≫= process_one map_data_to_excel (Ok template) save process_pdf output_excel
              = (λ f, (output_excel f, exec (map_data_to_excel (process_pdf f)) template))
                  <$> filter (λ f, truthy (process_pdf f) = true) l) as Hl.
    { induction l as [|f l IH]; [done|]. cbn [mbind list_bind]. rewrite IH.
      unfold process_one at 1, process_excel_imputation.
      destruct (truthy (process_pdf f)) eqn:Et; cbn [negb].
      - rewrite filter_cons_True by done. rewrite (total_run _ template (Htot _)), Hsave. done.
      - rewrite filter_cons_False by (by rewrite Et). done. }
    unfold process_all_pdfs. destruct pdf_files; [done|apply Hl].
  - intros data Hd. destruct Hmap as [-> | ->]; by apply not_an_object_untouched.
  - intros e. unfold process_all_pdfs. destruct pdf_files as [|f l]; [done|].
    generalize (f :: l). intros l'. induction l' as [|g l' IH]; [done|].
    cbn [mbind list_bind]. rewrite IH. unfold process_one, process_excel_imputation.
    by destruct (negb _).
Qed.

(** A witness for X14: two PDFs; the model answers the first with a
    JSON list and the second exhausts its retries. *)
Lemma X14_witness :
  let process_pdf := λ f : string, if String.eqb f "a.pdf" then PList [PInt 1] else PNone in
  process_all_pdfs Main.map_data_to_excel (Ok blank_template) (λ _ _, Ok tt)
    process_pdf (λ f, f +:+ ".xlsx") ["a.pdf"; "b.pdf"]
  = [("a.pdf.xlsx", blank_template)].
Proof.
  intros process_pdf.
  destruct (X14_one_file_per_truthy_answer Main.map_data_to_excel blank_template
              (λ _ _, Ok tt) process_pdf (λ f, f +:+ ".xlsx") ["a.pdf"; "b.pdf"])
    as (E & _ & _); [by left|done|].
  rewrite E. reflexivity.
Defined.
